(** * SITH R2-D2 simulator: panel commands, sequences, command log and mock API

    A shallow embedding of the panel-command handling of the web simulator
    ([sith/web_simulator/static/js/simulator.js]) and of the Python [SITHAPI]
    client that the Pyodide test harnesses carry as a string literal
    ([test_pyodide_simple.js], [test_pyodide_mock.js]), together with models
    of the sequence engine, dispatcher and configuration store that the
    protocol specification describes. *)

From Stdlib Require Import ZArith String Ascii Bool DecimalString DecimalN DecimalPos Lia.
From stdpp Require Import base list.
From Equations Require Import Equations.

Local Open Scope string_scope.
Local Open Scope Z_scope.

(** ** JavaScript string primitives used by the simulator *)

Module JS.

(** A string is the sequence of its code units, those below 256. *)

(** [String.prototype.startsWith(prefix)]. *)
Fixpoint startsWith (pre s : string) : bool :=
  match pre, s with
  | EmptyString, _ => true
  | String a pre', String b s' => if Ascii.eqb a b then startsWith pre' s' else false
  | String _ _, EmptyString => false
  end.

(** [String.prototype.substring(n)]: the code units from index [n] on. *)
Fixpoint substring (n : nat) (s : string) : string :=
  match n, s with
  | O, _ => s
  | S n', String _ s' => substring n' s'
  | S _, EmptyString => EmptyString
  end.

(** The white space that [parseInt] skips, among the code units below 256:
    TAB, LF, VT, FF, CR, SP and NBSP. *)
Definition isWhiteSpace (c : ascii) : bool :=
  let n := nat_of_ascii c in
  ((9 <=? n) && (n <=? 13))%nat || (n =? 32)%nat || (n =? 160)%nat.

Fixpoint trimStart (s : string) : string :=
  match s with
  | String c s' => if isWhiteSpace c then trimStart s' else s
  | EmptyString => EmptyString
  end.

Fixpoint trimEnd (s : string) : string :=
  match s with
  | String c s' =>
      let r := trimEnd s' in
      if isWhiteSpace c && String.eqb r "" then "" else String c r
  | EmptyString => EmptyString
  end.

(** [String.prototype.trim()]. *)
Definition trim (s : string) : string := trimEnd (trimStart s).

(** Value of a character as a digit in some radix up to 36. *)
Definition digitValue (c : ascii) : option Z :=
  let n := Z.of_nat (nat_of_ascii c) in
  if (48 <=? n) && (n <=? 57) then Some (n - 48)
  else if (97 <=? n) && (n <=? 122) then Some (n - 87)
  else if (65 <=? n) && (n <=? 90) then Some (n - 55)
  else None.

(** The longest prefix of radix-[R] digits, as a number; [acc] is [None]
    while no digit has been read. *)
Fixpoint parseDigits (R : Z) (s : string) (acc : option Z) : option Z :=
  match s with
  | EmptyString => acc
  | String c s' =>
      match digitValue c with
      | Some d =>
          if d <? R
          then parseDigits R s' (Some (match acc with Some a => a * R + d | None => d end))
          else acc
      | None => acc
      end
  end.

(** The sign that [parseInt] takes off the front. *)
Definition splitSign (s : string) : Z * string :=
  match s with
  | String "-" r => (-1, r)
  | String "+" r => (1, r)
  | _ => (1, s)
  end.

(** The radix when none is given: 16 after [0x] or [0X], else 10. *)
Definition splitRadix (s : string) : Z * string :=
  if startsWith "0x" s || startsWith "0X" s then (16, substring 2 s) else (10, s).

(** [parseInt(s)] with no radix argument.  [None] is NaN.  The result is a
    Number; it is kept as the exact integer, which the comparisons the
    simulator makes with it ([=== 0], [>= 1], [<= 16]) cannot tell from
    its rounding to a double, and [-0 === 0] holds. *)
Definition parseInt (s : string) : option Z :=
  let '(sign, s2) := splitSign (trimStart s) in
  let '(R, s3) := splitRadix s2 in
  match parseDigits R s3 None with
  | None => None
  | Some m => Some (sign * m)
  end.

(** The tokens of a [class] attribute: the runs between ASCII white space
    (TAB, LF, FF, CR, SP); [cur] is the run being read. *)
Definition isAsciiWhiteSpace (c : ascii) : bool :=
  let n := nat_of_ascii c in
  ((n =? 9) || (n =? 10) || (n =? 12) || (n =? 13) || (n =? 32))%nat.

Fixpoint classTokens (cur s : string) : list string :=
  match s with
  | EmptyString => if String.eqb cur "" then [] else [cur]
  | String c s' =>
      if isAsciiWhiteSpace c
      then (if String.eqb cur "" then classTokens "" s' else cur :: classTokens "" s')
      else classTokens (cur ++ String c "") s'
  end.

End JS.

(** ** The Python values and formatting the mock API uses *)

Module Py.

(** The JSON-like values of the result dictionaries. *)
#[warnings="-register-all"] Inductive value :=
| VBool (b : bool)
| VInt (z : Z)
| VStr (s : string)
| VList (l : list value).

(** A [dict] literal, in insertion order. *)
Definition dict := list (string * value).

Fixpoint get (k : string) (d : dict) : option value :=
  match d with
  | [] => None
  | (k', v) :: d' => if String.eqb k k' then Some v else get k d'
  end.

(** [str(n)] for a non-negative [int]. *)
Definition decimal (n : Z) : string :=
  DecimalString.NilEmpty.string_of_uint (N.to_uint (Z.to_N n)).

(** The number that a sequence of decimal digits stands for, read after
    the digits that gave [acc]. *)
Fixpoint uint_value (d : Decimal.uint) (acc : Z) : Z :=
  match d with
  | Decimal.Nil => acc
  | Decimal.D0 l => uint_value l (10 * acc)
  | Decimal.D1 l => uint_value l (10 * acc + 1)
  | Decimal.D2 l => uint_value l (10 * acc + 2)
  | Decimal.D3 l => uint_value l (10 * acc + 3)
  | Decimal.D4 l => uint_value l (10 * acc + 4)
  | Decimal.D5 l => uint_value l (10 * acc + 5)
  | Decimal.D6 l => uint_value l (10 * acc + 6)
  | Decimal.D7 l => uint_value l (10 * acc + 7)
  | Decimal.D8 l => uint_value l (10 * acc + 8)
  | Decimal.D9 l => uint_value l (10 * acc + 9)
  end.

(** Left padding with ['0'] up to [width] characters. *)
Definition zfill (width : nat) (s : string) : string :=
  String.concat "" (replicate (width - String.length s) "0") ++ s.

(** The format specification [:02d] on an [int]: a sign for a negative
    number, and zeros between the sign and the digits up to a width of 2. *)
Definition fmt_02d (n : Z) : string :=
  if n <? 0 then "-" ++ zfill 1 (decimal (- n)) else zfill 2 (decimal n).

(** [[x] * n]. *)
Definition list_repeat (x : value) (n : nat) : list value := replicate n x.

End Py.

(** ** The simulator's dome panels *)

Module Simulator.

(** A panel [div] of the dome: the fields of the DOM element that the
    simulator reads or writes. *)
Record Panel := mkPanel {
  panelNumber : nat;          (* [id = `panel-${i}`], [textContent = i] *)
  className : string;
  background : string         (* [style.background] *)
}.

(** The state argument of [setPanelState] is a string. *)
Definition setPanelState (panel : Panel) (state : string) : Panel :=
  {| panelNumber := panelNumber panel;
     className := "panel " ++ state;
     background :=
       if String.eqb state "open" then "#4CAF50"
       else if String.eqb state "closed" then "#333"
       else background panel |}.


(** [initializeDome]: sixteen closed panels, numbered from 1. *)
Definition initializeDome : list Panel :=
  (fun i => {| panelNumber := i; className := "panel closed"; background := "" |})
    <$> seq 1 16.

(** [this.panels.forEach(panel => this.setPanelState(panel, state))]. *)
Definition setAllPanels (panels : list Panel) (state : string) : list Panel :=
  (fun p => setPanelState p state) <$> panels.

(** [this.setPanelState(this.panels[panelNum - 1], state)]: where the array
    has no such element, [setPanelState] is handed [undefined] and the
    assignment to its [className] throws a TypeError ([None]). *)
Definition setOnePanel (panels : list Panel) (panelNum : Z) (state : string)
  : option (list Panel) :=
  let i := Z.to_nat (panelNum - 1) in
  match panels !! i with
  | Some p => Some (<[i := setPanelState p state]> panels)
  | None => None
  end.

(** [updatePanelsFromCommand(command)], on the [panels] array.  When
    [parseInt] gives NaN, every comparison is false and no branch is taken. *)
Definition updatePanelsFromCommand (command : string) (panels : list Panel)
  : option (list Panel) :=
  if JS.startsWith ":OP" command then
    match JS.parseInt (JS.substring 3 command) with
    | Some panelNum =>
        if panelNum =? 0 then Some (setAllPanels panels "open")
        else if (1 <=? panelNum) && (panelNum <=? 16)
             then setOnePanel panels panelNum "open"
             else Some panels
    | None => Some panels
    end
  else if JS.startsWith ":CL" command then
    match JS.parseInt (JS.substring 3 command) with
    | Some panelNum =>
        if panelNum =? 0 then Some (setAllPanels panels "closed")
        else if (1 <=? panelNum) && (panelNum <=? 16)
             then setOnePanel panels panelNum "closed"
             else Some panels
    | None => Some panels
    end
  else Some panels.

(** *** The command that [updatePanelsFromCommand] reads off a frame

    The function goes from the frame to the panels in one step; [decode] is
    its reading of the frame alone and [applyCommand] what it then does to
    the panels ([updatePanelsFromCommand_decode] below shows that the two
    compose to it).  The target of [00] is [All], a value of its own. *)

Inductive Opcode := OP | CL.

Inductive Target := All | PanelN (n : Z).

Record Command := mkCommand { opcode : Opcode; target : Target }.

Definition decodeTarget (command : string) : option Target :=
  match JS.parseInt (JS.substring 3 command) with
  | Some panelNum =>
      if panelNum =? 0 then Some All
      else if (1 <=? panelNum) && (panelNum <=? 16) then Some (PanelN panelNum)
      else None
  | None => None
  end.

Definition decode (command : string) : option Command :=
  if JS.startsWith ":OP" command then mkCommand OP <$> decodeTarget command
  else if JS.startsWith ":CL" command then mkCommand CL <$> decodeTarget command
  else None.

Definition stateOf (op : Opcode) : string :=
  match op with OP => "open" | CL => "closed" end.

Definition applyCommand (c : Command) (panels : list Panel) : option (list Panel) :=
  match target c with
  | All => Some (setAllPanels panels (stateOf (opcode c)))
  | PanelN n => setOnePanel panels n (stateOf (opcode c))
  end.

(** The frame that the API client sends for a command: [open_panel],
    [close_panel], [open_all_panels] and [close_all_panels] of [SITHAPI]. *)
Definition encode (c : Command) : string :=
  (match opcode c with OP => ":OP" | CL => ":CL" end) ++
  (match target c with All => "00" | PanelN n => Py.fmt_02d n end).

(** The commands that the client can send: the target is all panels
    ([00]) or one of the panels [01] to [16]. *)
Definition canonical (c : Command) : Prop :=
  target c = All \/ exists n, target c = PanelN n /\ 1 <= n <= 16.

(** [classList.contains('open')] on the class names that [setPanelState]
    and [initializeDome] write. *)
Definition classListContains (cls token : string) : bool :=
  existsb (String.eqb token) (JS.classTokens "" cls).

(** [togglePanel(panelNum)].  Where [this.panels[panelNum - 1]] is
    [undefined] (the index -1 of [panelNum] 0, or an index past the end),
    reading its [classList] throws a TypeError ([None]). *)
Definition togglePanel (panels : list Panel) (panelNum : nat) : option (list Panel) :=
  if (panelNum =? 0)%nat then None
  else
    match panels !! (panelNum - 1)%nat with
    | Some panel =>
        Some (<[(panelNum - 1)%nat :=
                 if classListContains (className panel) "open"
                 then setPanelState panel "closed"
                 else setPanelState panel "open"]> panels)
    | None => None
    end.

(** *** Sequences *)

Record Step := mkStep {
  time_ms : Z;
  servo_positions : list Z;
  description : string
}.

Record Sequence := mkSequence {
  name : string;
  seq_description : string;
  steps : list Step
}.

(** The literal of [loadWaveSequence]. *)
Definition waveSequence : Sequence :=
  {| name := "R2-D2 Wave";
     seq_description := "Classic wave sequence";
     steps :=
       [ mkStep 200 [2000; 2000; 2000; 2000; 2000; 2000; 2000; 2000; 2000; 2000; 2000; 2000]
           "Close all panels";
         mkStep 300 [1000; 2000; 2000; 2000; 2000; 2000; 2000; 2000; 2000; 2000; 2000; 2000]
           "Open panel 1";
         mkStep 300 [2000; 1000; 2000; 2000; 2000; 2000; 2000; 2000; 2000; 2000; 2000; 2000]
           "Open panel 2";
         mkStep 300 [2000; 2000; 1000; 2000; 2000; 2000; 2000; 2000; 2000; 2000; 2000; 2000]
           "Open panel 3";
         mkStep 300 [2000; 2000; 2000; 1000; 2000; 2000; 2000; 2000; 2000; 2000; 2000; 2000]
           "Open panel 4";
         mkStep 600 [2000; 2000; 2000; 2000; 2000; 2000; 2000; 2000; 2000; 2000; 2000; 2000]
           "Close all panels" ] |}.

(** The literal of [loadScreamSequence]. *)
Definition screamSequence : Sequence :=
  {| name := "R2-D2 Scream";
     seq_description := "Scream sequence with all panels";
     steps :=
       [ mkStep 200 [2000; 2000; 2000; 2000; 2000; 2000; 2000; 2000; 2000; 2000; 2000; 2000]
           "Close all panels";
         mkStep 1000 [1000; 1000; 1000; 1000; 1000; 1000; 1000; 1000; 1000; 1000; 1000; 1000]
           "SCREAM! Open all panels";
         mkStep 1500 [2000; 2000; 2000; 2000; 2000; 2000; 2000; 2000; 2000; 2000; 2000; 2000]
           "Close all panels" ] |}.

(** The servo position constants of the protocol reference
    ([_OPN], [_CLS], [_MID], [_NP]) and its pulse range. *)
Definition OPEN : Z := 1000.
Definition CLOSED : Z := 2000.
Definition MID : Z := 1750.
Definition NO_PULSE : Z := -1.
Definition PULSE_MIN : Z := 500.
Definition PULSE_MAX : Z := 2500.

Definition valid_position (v : Z) : bool :=
  ((PULSE_MIN <=? v) && (v <=? PULSE_MAX))
  || (v =? OPEN) || (v =? CLOSED) || (v =? MID) || (v =? NO_PULSE).

Definition position_ok (v : Z) : Prop :=
  PULSE_MIN <= v <= PULSE_MAX \/ v = OPEN \/ v = CLOSED \/ v = MID \/ v = NO_PULSE.

Definition valid_step (st : Step) : bool := forallb valid_position (servo_positions st).

Definition valid_sequence (sq : Sequence) : bool := forallb valid_step (steps sq).

(** [updatePanelsFromSequence(servoPositions)]: the [forEach] from [index]
    on. *)
Fixpoint updatePanelsFromIndex (index : nat) (servoPositions : list Z)
    (panels : list Panel) : list Panel :=
  match servoPositions with
  | [] => panels
  | position :: rest =>
      updatePanelsFromIndex (S index) rest
        (match panels !! index with
         | Some panel =>
             if position =? 1000 then <[index := setPanelState panel "open"]> panels
             else if position =? 2000 then <[index := setPanelState panel "closed"]> panels
             else panels
         | None => panels
         end)
  end.

Definition updatePanelsFromSequence (servoPositions : list Z) (panels : list Panel)
  : list Panel :=
  updatePanelsFromIndex 0 servoPositions panels.

(** *** The command log *)

Record LogEntry := mkLogEntry { entryClass : string; textContent : string }.

(** The child nodes of the log container: [children] counts the elements
    only, [firstChild] is the first node of any kind. *)
Inductive Node := Element (e : LogEntry) | TextNode (s : string).

Definition isElement (n : Node) : bool :=
  match n with Element _ => true | TextNode _ => false end.

Definition children (nodes : list Node) : list Node := filter isElement nodes.

(** [while (children.length > 100) removeChild(firstChild)]. *)
Equations? keepLast100 (nodes : list Node) : list Node by wf (length nodes) lt :=
  keepLast100 nodes with decide (100 < length (children nodes))%nat => {
    | left _ := keepLast100 (tail nodes);
    | right _ := nodes }.
Proof. destruct nodes; simpl in *; lia. Qed.

(** [addLogEntry(message, type)]; [now] is [new Date().toLocaleTimeString()]. *)
Definition addLogEntry (now message type : string) (nodes : list Node) : list Node :=
  keepLast100
    (nodes ++ [Element {| entryClass := "log-entry " ++ type;
                          textContent := "[" ++ now ++ "] " ++ message |}]).

Definition clearLog : list Node :=
  [Element {| entryClass := "log-entry"; textContent := "Log cleared..." |}].

(** *** The simulator object and its handlers

    Of the object, the fields that the handlers below read and write: the
    panel array, the loaded sequence, the child nodes of the log container
    and the command count on display.  The status texts and the enabling
    of buttons are not kept.  A [fetch] either resolves to the fields of the
    JSON that the handler reads, or rejects with a message.  Log messages
    are given without the pictograph that starts them in the source. *)

Record State := mkState {
  panels : list Panel;
  currentSequence : option Sequence;
  commandLog : list Node;
  commandCount : option Z
}.

Inductive Fetch (A : Type) :=
| Resolved (result : A)
| Rejected (message : string).
Arguments Resolved {A} result.
Arguments Rejected {A} message.

Record CommandResult := mkCommandResult {
  cr_success : bool;
  cr_message : string;
  cr_command_count : Z
}.

Record SequenceResult := mkSequenceResult {
  sr_success : bool;
  sr_steps : string;        (* as [${result.steps}] prints it *)
  sr_error : string
}.

(** The object after the constructor; [nodes] is what the page has in the
    log container. *)
Definition construct (nodes : list Node) : State :=
  {| panels := initializeDome; currentSequence := None;
     commandLog := nodes; commandCount := None |}.

Definition log (now message type : string) (st : State) : State :=
  {| panels := panels st; currentSequence := currentSequence st;
     commandLog := addLogEntry now message type (commandLog st);
     commandCount := commandCount st |}.

Definition withPanels (ps : list Panel) (st : State) : State :=
  {| panels := ps; currentSequence := currentSequence st;
     commandLog := commandLog st; commandCount := commandCount st |}.

(** The message of the TypeError that [setPanelState(undefined, ...)]
    throws (as V8 words it). *)
Definition typeErrorMessage : string :=
  "Cannot set properties of undefined (setting 'className')".

(** [sendCommand()], with the text of the input field, and the response of
    [/api/command]. *)
Definition sendCommand (now input : string) (response : Fetch CommandResult)
    (st : State) : State :=
  let command := JS.trim input in
  if String.eqb command "" then st
  else
    match response with
    | Resolved result =>
        if cr_success result then
          let st1 := log now (command ++ " - " ++ cr_message result) "success" st in
          let st2 := {| panels := panels st1; currentSequence := currentSequence st1;
                        commandLog := commandLog st1;
                        commandCount := Some (cr_command_count result) |} in
          match updatePanelsFromCommand command (panels st2) with
          | Some ps => withPanels ps st2
          | None => log now ("Error sending command: " ++ typeErrorMessage) "error" st2
          end
        else log now (command ++ " - " ++ cr_message result) "error" st
    | Rejected message => log now ("Error sending command: " ++ message) "error" st
    end.

(** [loadSequence(sequenceData)], with the response of [/api/sequence]. *)
Definition loadSequence (now : string) (sequenceData : Sequence)
    (response : Fetch SequenceResult) (st : State) : State :=
  match response with
  | Resolved result =>
      if sr_success result then
        log now ("Loaded sequence: " ++ name sequenceData ++ " (" ++ sr_steps result
                 ++ " steps)") "success"
          {| panels := panels st; currentSequence := Some sequenceData;
             commandLog := commandLog st; commandCount := commandCount st |}
      else log now ("Failed to load sequence: " ++ sr_error result) "error" st
  | Rejected message => log now ("Error loading sequence: " ++ message) "error" st
  end.

Definition loadWaveSequence (now : string) (response : Fetch SequenceResult) : State -> State :=
  loadSequence now waveSequence response.

Definition loadScreamSequence (now : string) (response : Fetch SequenceResult) : State -> State :=
  loadSequence now screamSequence response.

(** [updateSequenceStatus(data)], as far as the panels go: the step at
    [data.current_step] of the loaded sequence, when there is one. *)
Definition updateSequenceStatus (current_step : Z) (st : State) : State :=
  match currentSequence st with
  | Some sq =>
      match (if 0 <=? current_step then steps sq !! Z.to_nat current_step else None) with
      | Some step => withPanels (updatePanelsFromSequence (servo_positions step) (panels st)) st
      | None => st
      end
  | None => st
  end.

(** What can happen to the page. *)
Inductive Event :=
| SendCommand (now input : string) (response : Fetch CommandResult)
| ClickLoadWave (now : string) (response : Fetch SequenceResult)
| ClickLoadScream (now : string) (response : Fetch SequenceResult)
| ClickPanel (panelNum : nat)
| SequenceStatus (current_step : Z)
| SocketStatus (now message : string)
| ClickClearLog.

Definition handle (e : Event) (st : State) : State :=
  match e with
  | SendCommand now input response => sendCommand now input response st
  | ClickLoadWave now response => loadWaveSequence now response st
  | ClickLoadScream now response => loadScreamSequence now response st
  | ClickPanel panelNum =>
      match togglePanel (panels st) panelNum with
      | Some ps => withPanels ps st
      | None => st
      end
  | SequenceStatus current_step => updateSequenceStatus current_step st
  | SocketStatus now message => log now message "info" st
  | ClickClearLog =>
      {| panels := panels st; currentSequence := currentSequence st;
         commandLog := clearLog; commandCount := commandCount st |}
  end.

(** The states of the page: the constructor's, and those an event leads to. *)
Inductive reachable : State -> Prop :=
| reachable_construct nodes : reachable (construct nodes)
| reachable_handle e st : reachable st -> reachable (handle e st).

(** What the page can have loaded: nothing, or one of the two literals. *)
Definition loaded_ok (st : State) : Prop :=
  currentSequence st = None \/ currentSequence st = Some waveSequence
  \/ currentSequence st = Some screamSequence.

End Simulator.

(** ** The [SITHAPI] client of the Pyodide harnesses *)

Module SITHAPI.

(** What the interpreter shares with the outside: the lines printed and the
    HTTP requests made through [requests]. *)
Inductive Method := GET | POST.

Record Request := mkRequest {
  req_method : Method;
  req_url : string;
  req_json : Py.dict
}.

Record World := mkWorld {
  stdout : list string;
  requests_made : list Request
}.

(** A small state monad over [World]. *)
Definition M (A : Type) : Type := World -> A * World.
Definition ret {A} (a : A) : M A := fun w => (a, w).
Definition bind {A B} (m : M A) (k : A -> M B) : M B :=
  fun w => let '(a, w') := m w in k a w'.
Definition print (line : string) : M unit :=
  fun w => (tt, {| stdout := stdout w ++ [line]; requests_made := requests_made w |}).

Notation "x <- m ;; k" := (bind m (fun x => k))
  (at level 100, m at next level, right associativity).
Notation "m ;;; k" := (bind m (fun _ => k))
  (at level 100, right associativity).

Section Client.

(** [HAS_REQUESTS]: whether [import requests] succeeded. *)
Variable HAS_REQUESTS : bool.

(** The server behind [base_url]: given the requests made before and the
    new one, the JSON of the response, or the message of the exception that
    the call raises. *)
Variable server : list Request -> Request -> Py.dict + string.

Record API := mkAPI {
  base_url : string;
  session : bool            (* a [requests.Session()] (truthy) or [None] *)
}.

(** [__init__]. *)
Definition init (url : string) : M API :=
  print "SITH API initialized" ;;;
  ret {| base_url := url; session := HAS_REQUESTS |}.

(** [self.session.post(...)] or [.get(...)] followed by [response.json()],
    inside [try ... except Exception as e]. *)
Definition http (r : Request) : M Py.dict :=
  fun w =>
    let w' := {| stdout := stdout w; requests_made := requests_made w ++ [r] |} in
    match server (requests_made w) r with
    | inl result => (result, w')
    | inr e => ([("success", Py.VBool false); ("error", Py.VStr e)], w')
    end.

Definition send_command (self : API) (command : string) : M Py.dict :=
  if HAS_REQUESTS && session self then
    http {| req_method := POST; req_url := base_url self ++ "/api/command";
            req_json := [("command", Py.VStr command)] |}
  else
    print ("Simulated command: " ++ command) ;;;
    ret [("success", Py.VBool true); ("message", Py.VStr ("Simulated: " ++ command))].

Definition panel_range_error : Py.dict :=
  [("success", Py.VBool false); ("error", Py.VStr "Panel number must be 1-16")].

Definition open_panel (self : API) (panel_num : Z) : M Py.dict :=
  if (1 <=? panel_num) && (panel_num <=? 16)
  then send_command self (":OP" ++ Py.fmt_02d panel_num)
  else ret panel_range_error.

Definition close_panel (self : API) (panel_num : Z) : M Py.dict :=
  if (1 <=? panel_num) && (panel_num <=? 16)
  then send_command self (":CL" ++ Py.fmt_02d panel_num)
  else ret panel_range_error.

Definition open_all_panels (self : API) : M Py.dict := send_command self ":OP00".

Definition close_all_panels (self : API) : M Py.dict := send_command self ":CL00".

(** [sequence_name] is what the f-string makes of the argument. *)
Definition run_sequence (self : API) (sequence_name : string) : M Py.dict :=
  send_command self (":SE" ++ sequence_name).

Definition get_status (self : API) : M Py.dict :=
  if HAS_REQUESTS && session self then
    http {| req_method := GET; req_url := base_url self ++ "/api/status"; req_json := [] |}
  else
    ret [("success", Py.VBool true); ("status", Py.VStr "simulation_mode");
         ("panels", Py.VStr "all_closed")].

Definition get_panels (self : API) : M Py.dict :=
  if HAS_REQUESTS && session self then
    http {| req_method := GET; req_url := base_url self ++ "/api/panels"; req_json := [] |}
  else
    ret [("success", Py.VBool true);
         ("panels", Py.VList (Py.list_repeat (Py.VBool false) 16))].

Definition reset (self : API) : M Py.dict :=
  if HAS_REQUESTS && session self then
    http {| req_method := POST; req_url := base_url self ++ "/api/reset"; req_json := [] |}
  else
    print "Simulated: Resetting R2-D2" ;;;
    ret [("success", Py.VBool true); ("message", Py.VStr "Simulated: Reset complete")].

(** The calls a user script makes on the global [sith]. *)
Inductive Call :=
| CallOpenPanel (panel_num : Z)
| CallClosePanel (panel_num : Z)
| CallOpenAllPanels
| CallCloseAllPanels
| CallRunSequence (sequence_name : string)
| CallGetStatus
| CallGetPanels
| CallReset.

Definition call (self : API) (c : Call) : M Py.dict :=
  match c with
  | CallOpenPanel n => open_panel self n
  | CallClosePanel n => close_panel self n
  | CallOpenAllPanels => open_all_panels self
  | CallCloseAllPanels => close_all_panels self
  | CallRunSequence s => run_sequence self s
  | CallGetStatus => get_status self
  | CallGetPanels => get_panels self
  | CallReset => reset self
  end.

(** A script: the calls in order, their results collected. *)
Fixpoint run (self : API) (cs : list Call) : M (list Py.dict) :=
  match cs with
  | [] => ret []
  | c :: cs' => r <- call self c ;; rs <- run self cs' ;; ret (r :: rs)
  end.

End Client.

End SITHAPI.

(** ** The protocol core that the specification describes

    The decoder, dispatcher and sequence engine are not among the sources;
    the definitions of this module follow the specification's sections 3,
    4.2, 4.3, 4.4 and 6. *)

Module Core.

(** Modelled from the spec: the Command of the data model (section 3).  The
    decoder and its Command type are missing from the sources.  The target
    [00] is the value [All]; the operand of [SE] is a sequence id or name. *)
Inductive Family :=
| Panel | HoloProjector | Display | Sound | Setup | I2C | AltSound | AltHP.

Inductive Opcode := SE | OP | CL | RC | ST | HD.

Inductive SequenceRef := ById (id : nat) | ByName (name : string).

Inductive Target := All | Actuator (n : nat) | Named (ref : SequenceRef).

Inductive Argument :=
| ArgDecimal (n : Z) | ArgHex (byte : Z) | ArgChar (c : ascii) | ArgString (s : string).

Record Command := mkCommand {
  family : Family;
  opcode : option Opcode;     (* the mnemonic; [None] outside the Panel family *)
  target : option Target;
  arguments : list Argument;
  raw : string
}.

(** Modelled from the spec: the error taxonomy of section 7, which no source
    file declares.  [UnknownSequence] and [Unsupported] are not in it: the
    first is the failure of a lookup in [start], which the spec leaves
    unnamed, the second marks the families this model does not dispatch. *)
Inductive Error :=
| FrameTooLong | MalformedCommand | UnknownOpcode | ArgumentError
| InvalidTransition | HalCallFailed (message : string) | ConfigChecksumMismatch
| UnknownSequence | Unsupported.

Inductive Outcome := Success | Failed (e : Error).

(** Modelled from the spec: the frame grammar of section 6 and the decoding
    rules of section 4.2 (the Classifier and Decoder is missing from the
    sources).  The Panel family is decoded in full; a frame of another
    family is classified and keeps its body as one string argument. *)
Definition classify (start : ascii) : option Family :=
  if Ascii.eqb start ":" then Some Panel
  else if Ascii.eqb start "*" then Some HoloProjector
  else if Ascii.eqb start "@" then Some Display
  else if Ascii.eqb start "$" then Some Sound
  else if Ascii.eqb start "#" then Some Setup
  else if Ascii.eqb start "&" then Some I2C
  else if Ascii.eqb start "!" then Some AltSound
  else if Ascii.eqb start "%" then Some AltHP
  else None.

Definition mnemonic (s : string) : option Opcode :=
  if String.eqb s "SE" then Some SE
  else if String.eqb s "OP" then Some OP
  else if String.eqb s "CL" then Some CL
  else if String.eqb s "RC" then Some RC
  else if String.eqb s "ST" then Some ST
  else if String.eqb s "HD" then Some HD
  else None.

Definition digit (c : ascii) : option nat :=
  let n := nat_of_ascii c in
  if ((48 <=? n) && (n <=? 57))%nat then Some (n - 48)%nat else None.

Definition two_digits (s : string) : option nat :=
  match s with
  | String a (String b EmptyString) =>
      match digit a, digit b with
      | Some x, Some y => Some (10 * x + y)%nat
      | _, _ => None
      end
  | _ => None
  end.

Definition isAlphanumeric (c : ascii) : bool :=
  let n := nat_of_ascii c in
  (((48 <=? n) && (n <=? 57)) || ((65 <=? n) && (n <=? 90)) || ((97 <=? n) && (n <=? 122)))%nat.

Fixpoint allAlphanumeric (s : string) : bool :=
  match s with
  | EmptyString => true
  | String c s' => isAlphanumeric c && allAlphanumeric s'
  end.

(** Modelled from the spec: the operand of a Panel frame (the decoder is
    missing from the sources).  After [SE] it is a two-digit id or an
    alphanumeric name; after the other opcodes it is a two-digit target from
    00 to 16, and anything else is an ArgumentError. *)
Definition decodePanelTarget (op : Opcode) (operand : string) : Error + Target :=
  match op with
  | SE =>
      match two_digits operand with
      | Some id => inr (Named (ById id))
      | None =>
          if negb (String.eqb operand "") && allAlphanumeric operand
          then inr (Named (ByName operand))
          else inl ArgumentError
      end
  | _ =>
      match two_digits operand with
      | Some O => inr All
      | Some n => if (n <=? 16)%nat then inr (Actuator n) else inl ArgumentError
      | None => inl ArgumentError
      end
  end.

(** Modelled from the spec: the Classifier and Decoder of section 4.2
    (missing from the sources): MalformedCommand for an unknown start
    character, UnknownOpcode for an unknown mnemonic. *)
Definition decode (frame : string) : Error + Command :=
  match frame with
  | EmptyString => inl MalformedCommand
  | String start body =>
      match classify start with
      | None => inl MalformedCommand
      | Some Panel =>
          match mnemonic (String.substring 0 2 body) with
          | None => inl UnknownOpcode
          | Some op =>
              match decodePanelTarget op (JS.substring 2 body) with
              | inl e => inl e
              | inr t =>
                  inr {| family := Panel; opcode := Some op; target := Some t;
                         arguments := []; raw := frame |}
              end
          end
      | Some f =>
          inr {| family := f; opcode := None; target := None;
                 arguments := [ArgString body]; raw := frame |}
      end
  end.

(** Modelled from the spec: the frame form of a Panel-family Command, for
    the round trip of section 8 (no encoder is among the sources). *)
Definition mnemonic_string (op : Opcode) : string :=
  match op with
  | SE => "SE" | OP => "OP" | CL => "CL" | RC => "RC" | ST => "ST" | HD => "HD"
  end.

Definition two_digit_string (n : nat) : string :=
  String (ascii_of_nat (48 + n / 10)) (String (ascii_of_nat (48 + n mod 10)) "").

Definition encode (cmd : Command) : option string :=
  match family cmd, opcode cmd, target cmd with
  | Panel, Some op, Some t =>
      Some (":" ++ mnemonic_string op ++
            match t with
            | All => "00"
            | Actuator n => two_digit_string n
            | Named (ById n) => two_digit_string n
            | Named (ByName s) => s
            end)
  | _, _, _ => None
  end.

(** The command of the simulator that an OP or CL Command corresponds to. *)
Definition to_simulator (cmd : Command) : option Simulator.Command :=
  match opcode cmd, target cmd with
  | Some OP, Some All => Some (Simulator.mkCommand Simulator.OP Simulator.All)
  | Some CL, Some All => Some (Simulator.mkCommand Simulator.CL Simulator.All)
  | Some OP, Some (Actuator n) =>
      Some (Simulator.mkCommand Simulator.OP (Simulator.PanelN (Z.of_nat n)))
  | Some CL, Some (Actuator n) =>
      Some (Simulator.mkCommand Simulator.CL (Simulator.PanelN (Z.of_nat n)))
  | _, _ => None
  end.

(** Modelled from the spec: the HAL capability surface of section 6, which
    the sources only name. *)
Inductive HalCall :=
| MotorsSetSpeed (left right : Z)
| MotorsStop
| DomeRotate (direction speed : Z)
| DomeStop
| ServosSetPosition (channel : nat) (pulse_us : Z)
| ServosRelease (channel : nat)
| LedsSetPattern (pattern_id : nat) (params : list Z)
| SoundPlay (bank index : nat)
| SoundStopAll.

(** Modelled from the spec: SequenceStep, Sequence and SequenceRun of the
    data model (the sequence engine is missing from the sources).  The
    positions of a step are kept in actuator order; [run_id] tells the runs
    of the engine apart. *)
Record SequenceStep := mkStep {
  offset_ms : N;
  actuator_positions : list (nat * Z);
  description : string
}.

Record Sequence := mkSequence {
  name : string;
  id : nat;
  includes_sound_and_light : bool;
  steps : list SequenceStep
}.

Inductive RunState := Idle | Running | Paused | Completed | Stopped.

Record SequenceRun := mkRun {
  run_id : nat;
  sequence : Sequence;
  current_step_index : nat;
  state : RunState;
  started_at : N;
  elapsed_ms : N
}.

(** What the core emits: HAL calls, by the dispatcher ([None]) or by a run,
    and completion notifications. *)
Inductive Reason := Finished (total_elapsed_ms : N) (step_count : nat) | Superseded.

Inductive Event :=
| Hal (run : option nat) (call : HalCall)
| Notify (run : nat) (reason : Reason).

(** The engine: the mapping from id and name to Sequence (builtin and
    registered, in order), the run started last, the runs before it, the
    virtual clock, and the id of the next run. *)
Record Engine := mkEngine {
  registry : list Sequence;
  current : option SequenceRun;
  past : list SequenceRun;
  clock : N;
  next_run : nat
}.

Definition init (builtin : list Sequence) : Engine :=
  {| registry := builtin; current := None; past := []; clock := 0%N; next_run := 0 |}.

Definition matches (ref : SequenceRef) (sq : Sequence) : bool :=
  match ref with
  | ById n => (id sq =? n)%nat
  | ByName s => String.eqb (name sq) s
  end.

Definition lookup (reg : list Sequence) (ref : SequenceRef) : option Sequence :=
  List.find (matches ref) reg.

Definition isActive (r : SequenceRun) : bool :=
  match state r with Running | Paused => true | _ => false end.

Definition withState (s : RunState) (r : SequenceRun) : SequenceRun :=
  {| run_id := run_id r; sequence := sequence r;
     current_step_index := current_step_index r; state := s;
     started_at := started_at r; elapsed_ms := elapsed_ms r |}.

(** Modelled from the spec: [start] of section 4.4.  An active run is
    stopped first, with one notification of reason Superseded; the new run
    begins at step 0, Running. *)
Definition start (ref : SequenceRef) (e : Engine) : Engine * list Event * Outcome :=
  match lookup (registry e) ref with
  | None => (e, [], Failed UnknownSequence)
  | Some sq =>
      let '(old, events) :=
        match current e with
        | Some r =>
            if isActive r
            then ([withState Stopped r], [Notify (run_id r) Superseded])
            else ([r], [])
        | None => ([], [])
        end in
      ({| registry := registry e;
          current := Some {| run_id := next_run e; sequence := sq;
                             current_step_index := 0; state := Running;
                             started_at := clock e; elapsed_ms := 0%N |};
          past := past e ++ old;
          clock := clock e;
          next_run := S (next_run e) |},
       events, Success)
  end.

(** Modelled from the spec: [stop], [pause] and [resume] of section 4.4;
    a call that is no valid transition changes nothing and reports
    InvalidTransition. *)
Definition transition (from : RunState -> bool) (to : RunState) (e : Engine)
  : Engine * list Event * Outcome :=
  match current e with
  | Some r =>
      if from (state r)
      then ({| registry := registry e; current := Some (withState to r);
               past := past e; clock := clock e; next_run := next_run e |},
            [], Success)
      else (e, [], Failed InvalidTransition)
  | None => (e, [], Failed InvalidTransition)
  end.

Definition stop : Engine -> Engine * list Event * Outcome :=
  transition (fun s => match s with Running | Paused => true | _ => false end) Stopped.

Definition pause : Engine -> Engine * list Event * Outcome :=
  transition (fun s => match s with Running => true | _ => false end) Paused.

Definition resume : Engine -> Engine * list Event * Outcome :=
  transition (fun s => match s with Paused => true | _ => false end) Running.

(** The no-op sentinel of a step position, and the positions of the
    protocol reference. *)
Definition NO_PULSE : Z := Simulator.NO_PULSE.
Definition OPEN : Z := Simulator.OPEN.
Definition CLOSED : Z := Simulator.CLOSED.

(** Modelled from the spec: the HAL calls of one step (section 4.4; the
    engine is missing from the sources): one for each actuator that the step
    gives a position, no-op sentinels skipped. *)
Definition step_calls (s : SequenceStep) : list HalCall :=
  (fun ap => ServosSetPosition (fst ap) (snd ap))
    <$> List.filter (fun ap => negb (snd ap =? NO_PULSE)) (actuator_positions s).

(** The steps, in list order, whose offset has been reached. *)
Fixpoint due (elapsed : N) (rest : list SequenceStep) : list SequenceStep :=
  match rest with
  | [] => []
  | s :: rest' => if (offset_ms s <=? elapsed)%N then s :: due elapsed rest' else []
  end.

(** Modelled from the spec: advancement on a scheduling tick (section 4.4),
    [dt] being the virtual time since the previous tick.  A run that is not
    Running does not advance. *)
Definition tick (dt : N) (e : Engine) : Engine * list Event * Outcome :=
  match current e with
  | Some r =>
      match state r with
      | Running =>
          let elapsed := (elapsed_ms r + dt)%N in
          let fired := due elapsed (drop (current_step_index r) (steps (sequence r))) in
          let index := (current_step_index r + length fired)%nat in
          let finished := (length (steps (sequence r)) <=? index)%nat in
          ({| registry := registry e;
              current := Some {| run_id := run_id r; sequence := sequence r;
                                 current_step_index := index;
                                 state := if finished then Completed else Running;
                                 started_at := started_at r; elapsed_ms := elapsed |};
              past := past e;
              clock := (clock e + dt)%N;
              next_run := next_run e |},
           ((Hal (Some (run_id r)) <$> concat (step_calls <$> fired))
            ++ (if finished
                then [Notify (run_id r) (Finished elapsed (length (steps (sequence r))))]
                else []))%list,
           Success)
      | _ =>
          ({| registry := registry e; current := current e; past := past e;
              clock := (clock e + dt)%N; next_run := next_run e |}, [], Success)
      end
  | None =>
      ({| registry := registry e; current := None; past := past e;
          clock := (clock e + dt)%N; next_run := next_run e |}, [], Success)
  end.

(** Modelled from the spec: the invariants of SequenceStep (section 3):
    positions in the pulse range or a sentinel, offsets that do not
    decrease. *)
Definition valid_step (s : SequenceStep) : bool :=
  forallb (fun ap => Simulator.valid_position (snd ap)) (actuator_positions s).

Fixpoint offsets_from (least : N) (ss : list SequenceStep) : bool :=
  match ss with
  | [] => true
  | s :: ss' => (least <=? offset_ms s)%N && offsets_from (offset_ms s) ss'
  end.

Definition well_formed (sq : Sequence) : bool :=
  forallb valid_step (steps sq) && offsets_from 0%N (steps sq).

(** Modelled from the spec: registration of a user-supplied sequence
    (sections 3 and 9; missing from the sources).  The sequence is added to
    the one ordered mapping, after those present, which it does not
    replace; the spec states no check of the data at registration. *)
Definition register (sq : Sequence) (e : Engine) : Engine * list Event * Outcome :=
  ({| registry := registry e ++ [sq]; current := current e; past := past e;
      clock := clock e; next_run := next_run e |}, [], Success).

(** Every sequence the engine holds, and the one it plays, keeps the
    invariants. *)
Definition all_well_formed (e : Engine) : Prop :=
  Forall (fun sq => well_formed sq = true) (registry e) /\
  forall r, current e = Some r -> well_formed (sequence r) = true.

(** The operations on the engine. *)
Inductive Op :=
| Start (ref : SequenceRef) | Stop | Pause | Resume | Tick (dt : N) | Register (sq : Sequence).

(** The sequences that a history of operations registers. *)
Definition registered (os : list Op) : list Sequence :=
  omap (fun o => match o with Register sq => Some sq | _ => None end) os.

Definition run_op (o : Op) (e : Engine) : Engine * list Event * Outcome :=
  match o with
  | Start ref => start ref e
  | Stop => stop e
  | Pause => pause e
  | Resume => resume e
  | Tick dt => tick dt e
  | Register sq => register sq e
  end.

(** A history of operations: the engine it leads to and all it emits. *)
Fixpoint run_ops (os : list Op) (e : Engine) : Engine * list Event :=
  match os with
  | [] => (e, [])
  | o :: os' =>
      let '(e1, ev1, _) := run_op o e in
      let '(e2, ev2) := run_ops os' e1 in
      (e2, (ev1 ++ ev2)%list)
  end.

(** The engines that operations lead to from a fresh one. *)
Inductive reachable : Engine -> Prop :=
| reachable_init builtin : reachable (init builtin)
| reachable_op o e : reachable e -> reachable (fst (fst (run_op o e))).

(** The run an event belongs to. *)
Definition event_run (ev : Event) : option nat :=
  match ev with
  | Hal run _ => run
  | Notify run _ => Some run
  end.

Definition isSupersededOf (a : nat) (ev : Event) : bool :=
  match ev with
  | Notify run Superseded => (run =? a)%nat
  | _ => false
  end.

Definition isHalOf (a : nat) (ev : Event) : bool :=
  match ev with
  | Hal (Some run) _ => (run =? a)%nat
  | _ => false
  end.

(** No run of [e] has an id below [k], nor will a run started later. *)
Definition ids_from (k : nat) (e : Engine) : Prop :=
  (k <= next_run e)%nat /\
  forall r, current e = Some r -> (k <= run_id r)%nat.

(** The id of the current run is below the next id to be given. *)
Definition ids_fresh (e : Engine) : Prop :=
  forall r, current e = Some r -> (run_id r < next_run e)%nat.

Definition events_from (k : nat) (evs : list Event) : Prop :=
  Forall (fun ev => forall j, event_run ev = Some j -> (k <= j)%nat) evs.

(** Modelled from the spec: the Command Dispatcher of section 4.3, for the
    Panel family (the dispatcher is missing from the sources).  A panel
    command is one direct HAL call per addressed actuator, an [SE] command
    is a [start] of the engine; a failure of the HAL becomes a failure
    result. *)
Section Dispatcher.

(** The backend chosen at construction: what a HAL call answers, [None] for
    success or the message of its failure. *)
Variable hal : HalCall -> option string.

(** The actuators that the target [All] addresses. *)
Variable panel_channels : list nat.

(** The spec names the stop and hold actions without their HAL calls. *)
Variable stop_call hold_call : nat -> HalCall.

Definition panel_call (op : Opcode) (channel : nat) : option HalCall :=
  match op with
  | OP => Some (ServosSetPosition channel OPEN)
  | CL => Some (ServosSetPosition channel CLOSED)
  | RC => Some (ServosRelease channel)
  | ST => Some (stop_call channel)
  | HD => Some (hold_call channel)
  | SE => None
  end.

Fixpoint outcome_of (calls : list HalCall) : Outcome :=
  match calls with
  | [] => Success
  | c :: calls' =>
      match hal c with
      | Some message => Failed (HalCallFailed message)
      | None => outcome_of calls'
      end
  end.

Definition direct (op : Opcode) (channels : list nat) (e : Engine)
  : Engine * list Event * Outcome :=
  let calls := omap (panel_call op) channels in
  (e, Hal None <$> calls, outcome_of calls).

(** Modelled from the spec: dispatch of one Command (section 4.3; the
    dispatcher is missing from the sources). *)
Definition dispatch (cmd : Command) (e : Engine) : Engine * list Event * Outcome :=
  match family cmd, opcode cmd, target cmd with
  | Panel, Some SE, Some (Named ref) => start ref e
  | Panel, Some SE, _ => (e, [], Failed ArgumentError)
  | Panel, Some op, Some All => direct op panel_channels e
  | Panel, Some op, Some (Actuator n) => direct op [n] e
  | Panel, _, _ => (e, [], Failed ArgumentError)
  | _, _, _ => (e, [], Failed Unsupported)
  end.

(** Modelled from the spec: one frame through the decoder and the
    dispatcher (section 7: a frame that does not decode is dropped with its
    error, and processing goes on). *)
Definition process_frame (frame : string) (e : Engine) : Engine * list Event * Outcome :=
  match decode frame with
  | inl err => (e, [], Failed err)
  | inr cmd => dispatch cmd e
  end.

Fixpoint process_frames (frames : list string) (e : Engine)
  : Engine * list Event * list Outcome :=
  match frames with
  | [] => (e, [], [])
  | frame :: frames' =>
      let '(e1, ev1, r1) := process_frame frame e in
      let '(e2, ev2, rs) := process_frames frames' e1 in
      (e2, (ev1 ++ ev2)%list, r1 :: rs)
  end.

End Dispatcher.

(** The positions of a step of the simulator, actuators counted from 1. *)
Definition of_positions (ps : list Z) : list (nat * Z) := zip (seq 1 (length ps)) ps.

(** A sequence literal of the simulator as a catalogue entry; its [time_ms]
    are taken for the offsets. *)
Definition of_simulator (n : nat) (sound_and_light : bool) (sq : Simulator.Sequence)
  : Sequence :=
  {| name := Simulator.name sq;
     id := n;
     includes_sound_and_light := sound_and_light;
     steps := (fun st => {| offset_ms := Z.to_N (Simulator.time_ms st);
                            actuator_positions := of_positions (Simulator.servo_positions st);
                            description := Simulator.description st |})
                <$> Simulator.steps sq |}.

(** The calls that set the given channels to CLOSED, in their order. *)
Definition close_channels (channels : list nat) : list HalCall :=
  (fun ch => ServosSetPosition ch CLOSED) <$> channels.

(** The positions of the steps of the simulator's Wave sequence. *)
Definition wave_positions : list (list (nat * Z)) :=
  (fun st => of_positions (Simulator.servo_positions st))
    <$> Simulator.steps Simulator.waveSequence.

(** The two catalogue entries that the sources have the steps of: Scream
    ([:SE01]) and Wave ([:SE02]), by the ids of the protocol reference. *)
Definition catalogue : list Sequence :=
  [of_simulator 1 true Simulator.screamSequence; of_simulator 2 true Simulator.waveSequence].

End Core.

(** ** The configuration store that the specification describes *)

Module ConfigStore.

(** Modelled from the spec: the Configuration of section 3 and the store of
    section 4.5; no source file has them.  The sound modules are those of
    the protocol reference ([#SM0], [#SM1]). *)
Inductive SoundModule := SparkFun | DFPlayer.

Record Configuration := mkConfiguration {
  servo_directions : N;          (* bitmask, one bit per actuator *)
  startup_sound_mode : N;
  quiet_mode : bool;
  slave_delay_ms : N;
  active_sound_module : SoundModule
}.

(** What is persisted: the fields and the checksum stored with them. *)
Record Persisted := mkPersisted {
  fields : Configuration;
  stored_checksum : N
}.

Inductive LogEvent := Warning (e : Core.Error).

Record Store := mkStore {
  config : Configuration;        (* the in-memory copy *)
  dirty : bool;
  persisted : Persisted;
  logged : list LogEvent
}.

Inductive Field :=
| ServoDirections | StartupSoundMode | QuietMode | SlaveDelayMs | ActiveSoundModule.

Section Store.

(** The compiled-in defaults, the checksum over the recognized fields, and
    the range of each field, which the spec leaves to the implementation. *)
Variable defaults : Configuration.
Variable checksum : Configuration -> N.
Variable in_range : Field -> N -> bool.

(** Modelled from the spec: [load()] of section 4.5. *)
Definition load (st : Store) : Store :=
  let p := persisted st in
  if (checksum (fields p) =? stored_checksum p)%N
  then {| config := fields p; dirty := false; persisted := p; logged := logged st |}
  else {| config := defaults; dirty := true; persisted := p;
          logged := logged st ++ [Warning Core.ConfigChecksumMismatch] |}.

(** Modelled from the spec: writing the in-memory copy with its checksum
    (the store is missing from the sources). *)
Definition write (st : Store) : Store :=
  {| config := config st; dirty := false;
     persisted := {| fields := config st; stored_checksum := checksum (config st) |};
     logged := logged st |}.

(** Modelled from the spec: [save()]; a dirty store is written. *)
Definition save (st : Store) : Store := if dirty st then write st else st.

Definition get (f : Field) (st : Store) : N :=
  match f with
  | ServoDirections => servo_directions (config st)
  | StartupSoundMode => startup_sound_mode (config st)
  | QuietMode => if quiet_mode (config st) then 1%N else 0%N
  | SlaveDelayMs => slave_delay_ms (config st)
  | ActiveSoundModule =>
      match active_sound_module (config st) with SparkFun => 0%N | DFPlayer => 1%N end
  end.

Definition update (f : Field) (v : N) (c : Configuration) : Configuration :=
  match f with
  | ServoDirections =>
      mkConfiguration v (startup_sound_mode c) (quiet_mode c) (slave_delay_ms c)
        (active_sound_module c)
  | StartupSoundMode =>
      mkConfiguration (servo_directions c) v (quiet_mode c) (slave_delay_ms c)
        (active_sound_module c)
  | QuietMode =>
      mkConfiguration (servo_directions c) (startup_sound_mode c) (negb (v =? 0)%N)
        (slave_delay_ms c) (active_sound_module c)
  | SlaveDelayMs =>
      mkConfiguration (servo_directions c) (startup_sound_mode c) (quiet_mode c) v
        (active_sound_module c)
  | ActiveSoundModule =>
      mkConfiguration (servo_directions c) (startup_sound_mode c) (quiet_mode c)
        (slave_delay_ms c) (if (v =? 0)%N then SparkFun else DFPlayer)
  end.

(** Modelled from the spec: [set(field, value)] of section 4.5: the value is
    validated, applied in memory and written through. *)
Definition set (f : Field) (v : N) (st : Store) : Store * Core.Outcome :=
  if in_range f v
  then (write {| config := update f v (config st); dirty := true;
                 persisted := persisted st; logged := logged st |},
        Core.Success)
  else (st, Core.Failed Core.ArgumentError).

End Store.

(** The checksum of the protocol reference ([calc_crc]): the 16-bit sum of
    the servo directions, the startup sound, the random-sound (quiet) flag
    and the player selection. *)
Definition calc_crc (c : Configuration) : N :=
  ((servo_directions c + startup_sound_mode c
    + (if quiet_mode c then 1 else 0)
    + match active_sound_module c with SparkFun => 0 | DFPlayer => 1 end) mod 65536)%N.

End ConfigStore.

(** ** The rest of the simulator page: connection, sequence controls, log refresh *)

Module Page.

(** The [disabled] flags of the four sequence buttons. *)
Record Buttons := mkButtons {
  startDisabled : bool;
  pauseDisabled : bool;
  resumeDisabled : bool;
  stopDisabled : bool
}.

(** [updateSequenceButtons(running, paused = false)]. *)
Definition updateSequenceButtons (running paused : bool) : Buttons :=
  {| startDisabled := running;
     pauseDisabled := negb running || paused;
     resumeDisabled := negb running || negb paused;
     stopDisabled := negb running |}.

(** The connection indicator: [isConnected], the colour of the dot and the
    text beside it. *)
Record Connection := mkConnection {
  isConnected : bool;
  statusDot : string;
  statusText : string
}.

(** The socket handlers set [isConnected] and call
    [updateConnectionStatus(connected)]. *)
Definition updateConnectionStatus (connected : bool) : Connection :=
  {| isConnected := connected;
     statusDot := if connected then "#4CAF50" else "#F44336";
     statusText := if connected then "Connected" else "Disconnected" |}.

(** The page: the fields of [Simulator.State], the buttons and the
    connection indicator. *)
Record Page := mkPage {
  sim : Simulator.State;
  buttons : Buttons;
  connection : Connection
}.

(** The page after the constructor: the buttons and the indicator are as the
    document has them. *)
Definition construct (nodes : list Simulator.Node) (b : Buttons) (dot text : string) : Page :=
  {| sim := Simulator.construct nodes; buttons := b;
     connection := {| isConnected := false; statusDot := dot; statusText := text |} |}.

(** The fields of the JSON of the sequence control routes that the handlers
    read. *)
Record ControlResult := mkControlResult {
  success : bool;
  error : string
}.

Definition withSim (s : Simulator.State) (pg : Page) : Page :=
  {| sim := s; buttons := buttons pg; connection := connection pg |}.

Definition log (now message type : string) (pg : Page) : Page :=
  withSim (Simulator.log now message type (sim pg)) pg.

Definition withButtons (b : Buttons) (pg : Page) : Page :=
  {| sim := sim pg; buttons := b; connection := connection pg |}.

(** [loadSequence(sequenceData)] on the page: a successful load also
    enables the start button. *)
Definition loadSequence (now : string) (sequenceData : Simulator.Sequence)
    (response : Simulator.Fetch Simulator.SequenceResult) (pg : Page) : Page :=
  let pg' := withSim (Simulator.loadSequence now sequenceData response (sim pg)) pg in
  match response with
  | Simulator.Resolved result =>
      if Simulator.sr_success result
      then withButtons {| startDisabled := false;
                          pauseDisabled := pauseDisabled (buttons pg);
                          resumeDisabled := resumeDisabled (buttons pg);
                          stopDisabled := stopDisabled (buttons pg) |} pg'
      else pg'
  | Simulator.Rejected _ => pg'
  end.

(** [startSequence()], with the response of [/api/sequence/start]. *)
Definition startSequence (now : string) (response : Simulator.Fetch ControlResult)
    (pg : Page) : Page :=
  match response with
  | Simulator.Resolved result =>
      if success result
      then withButtons (updateSequenceButtons true false)
             (log now "Sequence started" "success" pg)
      else log now ("Failed to start sequence: " ++ error result) "error" pg
  | Simulator.Rejected message => log now ("Error starting sequence: " ++ message) "error" pg
  end.

(** [pauseSequence()]: an unsuccessful result is passed over. *)
Definition pauseSequence (now : string) (response : Simulator.Fetch ControlResult)
    (pg : Page) : Page :=
  match response with
  | Simulator.Resolved result =>
      if success result
      then withButtons (updateSequenceButtons true true)
             (log now "Sequence paused" "info" pg)
      else pg
  | Simulator.Rejected message => log now ("Error pausing sequence: " ++ message) "error" pg
  end.

(** [resumeSequence()]. *)
Definition resumeSequence (now : string) (response : Simulator.Fetch ControlResult)
    (pg : Page) : Page :=
  match response with
  | Simulator.Resolved result =>
      if success result
      then withButtons (updateSequenceButtons true false)
             (log now "Sequence resumed" "success" pg)
      else pg
  | Simulator.Rejected message => log now ("Error resuming sequence: " ++ message) "error" pg
  end.

(** [stopSequence()]: after the log entry and the buttons,
    [updateSequenceStatus] is called with [current_step: 0]. *)
Definition stopSequence (now : string) (response : Simulator.Fetch ControlResult)
    (pg : Page) : Page :=
  match response with
  | Simulator.Resolved result =>
      if success result
      then
        let pg1 := withButtons (updateSequenceButtons false false)
                     (log now "Sequence stopped" "info" pg) in
        withSim (Simulator.updateSequenceStatus 0 (sim pg1)) pg1
      else pg
  | Simulator.Rejected message => log now ("Error stopping sequence: " ++ message) "error" pg
  end.

(** What [response.json()] of [/api/commands] resolves to, as [refreshLog]
    reads it.  An array is the list of its elements: an element is read by
    [cmd.timestamp] and [cmd.command], and is here the time, as
    [toLocaleTimeString] prints it, with the text of the command, or it is
    [null] (or [undefined]), where reading [timestamp] throws the TypeError
    whose message it carries.  Any other value has no [forEach], and calling
    it throws the TypeError whose message it carries. *)
Inductive CommandsJson :=
| Commands (items : list (string * string + string))
| NoArray (message : string).

Definition withLog (nodes : list Simulator.Node) (pg : Page) : Page :=
  withSim {| Simulator.panels := Simulator.panels (sim pg);
             Simulator.currentSequence := Simulator.currentSequence (sim pg);
             Simulator.commandLog := nodes;
             Simulator.commandCount := Simulator.commandCount (sim pg) |} pg.

(** The entry that [refreshLog] makes of a command. *)
Definition commandEntry (cmd : string * string) : Simulator.Node :=
  Simulator.Element {| Simulator.entryClass := "log-entry info";
                       Simulator.textContent := "[" ++ fst cmd ++ "] " ++ snd cmd |}.

(** [commands.forEach(cmd => ...)] on the container [nodes]: the entries
    are appended one by one, up to an element that throws. *)
Fixpoint appendCommands (items : list (string * string + string))
    (nodes : list Simulator.Node) : list Simulator.Node + list Simulator.Node * string :=
  match items with
  | [] => inl nodes
  | inl cmd :: items' => appendCommands items' (nodes ++ [commandEntry cmd])
  | inr message :: _ => inr (nodes, message)
  end.

(** [refreshLog()].  The container is emptied and gets one entry for each
    command of the response.  The [try] covers all of it: when the request
    fails, the error is logged on the log as it was; when the response is no
    array, or an element throws, the container has been emptied, and the
    error is logged after the entries made so far. *)
Definition refreshLog (now : string) (response : Simulator.Fetch CommandsJson)
    (pg : Page) : Page :=
  match response with
  | Simulator.Resolved (Commands items) =>
      match appendCommands items [] with
      | inl nodes => withLog nodes pg
      | inr (nodes, message) =>
          withLog (Simulator.addLogEntry now ("Error refreshing log: " ++ message) "error"
                     nodes) pg
      end
  | Simulator.Resolved (NoArray message) =>
      withLog (Simulator.addLogEntry now ("Error refreshing log: " ++ message) "error" []) pg
  | Simulator.Rejected message => log now ("Error refreshing log: " ++ message) "error" pg
  end.

(** What can happen to the page, beyond the events of [Simulator]. *)
Inductive Event :=
| Sim (e : Simulator.Event)
| SocketConnect (now : string)
| SocketDisconnect (now : string)
| SequenceCompleted (now message : string)
| ClickStart (now : string) (response : Simulator.Fetch ControlResult)
| ClickPause (now : string) (response : Simulator.Fetch ControlResult)
| ClickResume (now : string) (response : Simulator.Fetch ControlResult)
| ClickStop (now : string) (response : Simulator.Fetch ControlResult)
| ClickRefreshLog (now : string) (response : Simulator.Fetch CommandsJson).

Definition handle (e : Event) (pg : Page) : Page :=
  match e with
  | Sim (Simulator.ClickLoadWave now response) =>
      loadSequence now Simulator.waveSequence response pg
  | Sim (Simulator.ClickLoadScream now response) =>
      loadSequence now Simulator.screamSequence response pg
  | Sim e' => withSim (Simulator.handle e' (sim pg)) pg
  | SocketConnect now =>
      {| sim := Simulator.log now "Connected to SITH simulator" "success" (sim pg);
         buttons := buttons pg; connection := updateConnectionStatus true |}
  | SocketDisconnect now =>
      {| sim := Simulator.log now "Disconnected from SITH simulator" "error" (sim pg);
         buttons := buttons pg; connection := updateConnectionStatus false |}
  | SequenceCompleted now message =>
      withButtons (updateSequenceButtons false false) (log now message "success" pg)
  | ClickStart now response => startSequence now response pg
  | ClickPause now response => pauseSequence now response pg
  | ClickResume now response => resumeSequence now response pg
  | ClickStop now response => stopSequence now response pg
  | ClickRefreshLog now response => refreshLog now response pg
  end.

Fixpoint run (es : list Event) (pg : Page) : Page :=
  match es with
  | [] => pg
  | e :: es' => run es' (handle e pg)
  end.

(** The pause and resume buttons are not both enabled, and the stop button
    is enabled exactly when one of them is. *)
Definition controls_coherent (b : Buttons) : Prop :=
  (pauseDisabled b = false -> resumeDisabled b = true) /\
  (stopDisabled b = false <-> pauseDisabled b = false \/ resumeDisabled b = false).

End Page.

(** ** What the panels of the page always satisfy *)

Module PanelFacts.

(** A panel is shown closed or open, and its colour goes with its class:
    a closed panel has the colour of [setPanelState] or none yet. *)
Definition panel_ok (p : Simulator.Panel) : Prop :=
  (Simulator.className p = "panel closed"
   /\ (Simulator.background p = "" \/ Simulator.background p = "#333"))
  \/ (Simulator.className p = "panel open" /\ Simulator.background p = "#4CAF50").

(** The array has the sixteen panels in the order of their numbers, each of
    them shown closed or open. *)
Definition dome_ok (panels : list Simulator.Panel) : Prop :=
  Simulator.panelNumber <$> panels = seq 1 16 /\ Forall panel_ok panels.


(** What [updatePanelsFromSequence] makes of a panel for the position the
    step has for it, if any. *)
Definition positioned (position : option Z) (p : Simulator.Panel) : Simulator.Panel :=
  match position with
  | Some v => if v =? 1000 then Simulator.setPanelState p "open"
              else if v =? 2000 then Simulator.setPanelState p "closed" else p
  | None => p
  end.

(** The last [k] elements of a list. *)
Definition lastn {A} (k : nat) (l : list A) : list A := drop (length l - k) l.

(** The log entry that [addLogEntry(message, type)] makes at time [now]. *)
Definition entry (e : string * string * string) : Simulator.Node :=
  let '(now, message, type) := e in
  Simulator.Element {| Simulator.entryClass := "log-entry " ++ type;
                       Simulator.textContent := "[" ++ now ++ "] " ++ message |}.

(** Calls of [addLogEntry] one after the other. *)
Definition addLogEntries (es : list (string * string * string)) (nodes : list Simulator.Node)
  : list Simulator.Node :=
  foldl (fun l e => let '(now, message, type) := e in Simulator.addLogEntry now message type l)
        nodes es.

End PanelFacts.

(** * The emergency fallback client

    The second [SITHAPI] class of [test_pyodide_mock.js], the Python code
    that the page runs when the main class could not be created.  It shares
    the interpreter, and so the [World], with the main client. *)

Module EmergencyAPI.

Import SITHAPI.

Record API := mkAPI {
  base_url : string
}.

(** [__init__]. *)
Definition init (url : string) : M API :=
  print "Emergency SITH API activated" ;;;
  ret {| base_url := url |}.

Definition send_command (self : API) (command : string) : M Py.dict :=
  print ("Emergency simulated command: " ++ command) ;;;
  ret [("success", Py.VBool true); ("message", Py.VStr ("Emergency: " ++ command))].

(** [{panel_num}] is [str(panel_num)], here of a number in 1..16. *)
Definition open_panel (self : API) (panel_num : Z) : M Py.dict :=
  if (1 <=? panel_num) && (panel_num <=? 16) then
    print ("Emergency: Opening panel " ++ Py.decimal panel_num) ;;;
    ret [("success", Py.VBool true);
         ("message", Py.VStr ("Emergency: Opened panel " ++ Py.decimal panel_num))]
  else ret panel_range_error.

Definition close_panel (self : API) (panel_num : Z) : M Py.dict :=
  if (1 <=? panel_num) && (panel_num <=? 16) then
    print ("Emergency: Closing panel " ++ Py.decimal panel_num) ;;;
    ret [("success", Py.VBool true);
         ("message", Py.VStr ("Emergency: Closed panel " ++ Py.decimal panel_num))]
  else ret panel_range_error.

Definition open_all_panels (self : API) : M Py.dict :=
  print "Emergency: Opening all panels" ;;;
  ret [("success", Py.VBool true); ("message", Py.VStr "Emergency: Opened all panels")].

Definition close_all_panels (self : API) : M Py.dict :=
  print "Emergency: Closing all panels" ;;;
  ret [("success", Py.VBool true); ("message", Py.VStr "Emergency: Closed all panels")].

(** [sequence_name] is what the f-string makes of the argument. *)
Definition run_sequence (self : API) (sequence_name : string) : M Py.dict :=
  print ("Emergency: Running sequence " ++ sequence_name) ;;;
  ret [("success", Py.VBool true);
       ("message", Py.VStr ("Emergency: Ran sequence " ++ sequence_name))].

Definition get_status (self : API) : M Py.dict :=
  ret [("success", Py.VBool true); ("status", Py.VStr "emergency_mode");
       ("panels", Py.VStr "all_closed")].

Definition get_panels (self : API) : M Py.dict :=
  ret [("success", Py.VBool true);
       ("panels", Py.VList (Py.list_repeat (Py.VBool false) 16))].

Definition reset (self : API) : M Py.dict :=
  print "Emergency: Resetting R2-D2" ;;;
  ret [("success", Py.VBool true); ("message", Py.VStr "Emergency: Reset complete")].

Definition call (self : API) (c : Call) : M Py.dict :=
  match c with
  | CallOpenPanel n => open_panel self n
  | CallClosePanel n => close_panel self n
  | CallOpenAllPanels => open_all_panels self
  | CallCloseAllPanels => close_all_panels self
  | CallRunSequence s => run_sequence self s
  | CallGetStatus => get_status self
  | CallGetPanels => get_panels self
  | CallReset => reset self
  end.

(** A script on the fallback: the calls in order, their results collected. *)
Fixpoint run (self : API) (cs : list Call) : M (list Py.dict) :=
  match cs with
  | [] => ret []
  | c :: cs' => r <- call self c ;; rs <- run self cs' ;; ret (r :: rs)
  end.

End EmergencyAPI.

(** * The mock interpreter

    [MockPyodide] of [test_pyodide_simple.js].  What it writes on the
    console is left out. *)

Module MockPyodide.

(** [String.prototype.includes]. *)
Fixpoint includes (s searchString : string) : bool :=
  String.prefix searchString s ||
  match s with
  | EmptyString => false
  | String _ s' => includes s' searchString
  end.

(** The values of the result objects.  [JNaN] is what [[false] * 16] is in
    JavaScript: the array converts to the string ['false'], which is not a
    number. *)
Inductive value :=
| JBool (b : bool)
| JStr (s : string)
| JNaN.

Definition object := list (string * value).

Fixpoint get (k : string) (o : object) : option value :=
  match o with
  | [] => None
  | (k', v) :: o' => if String.eqb k k' then Some v else get k o'
  end.

Definition executePythonCode (code : string) : object :=
  if includes code "sith.open_panel(1)" then
    [("success", JBool true); ("message", JStr "Simulated: Opened panel 1")]
  else if includes code "sith.close_panel(1)" then
    [("success", JBool true); ("message", JStr "Simulated: Closed panel 1")]
  else if includes code "sith.open_all_panels()" then
    [("success", JBool true); ("message", JStr "Simulated: Opened all panels")]
  else if includes code "sith.get_status()" then
    [("success", JBool true); ("status", JStr "simulation_mode"); ("panels", JStr "all_closed")]
  else if includes code "sith.get_panels()" then
    [("success", JBool true); ("panels", JNaN)]
  else if includes code "sith.run_sequence(" then
    [("success", JBool true); ("message", JStr "Simulated: Ran sequence")]
  else if includes code "sith.reset()" then
    [("success", JBool true); ("message", JStr "Simulated: Reset complete")]
  else
    [("success", JBool true); ("message", JStr "Simulated execution")].

(** The call as a user script writes it, for a panel number that is not
    negative. *)
Definition open_panel_call (panel_num : Z) : string :=
  "sith.open_panel(" ++ Py.decimal panel_num ++ ")".

End MockPyodide.

(** * Vocabulary for the properties of the clients and of the page *)

Module ClientFacts.

Import SITHAPI.

(** Whether a call passes the check of its panel number. *)
Definition accepted (c : Call) : bool :=
  match c with
  | CallOpenPanel t | CallClosePanel t => (1 <=? t) && (t <=? 16)
  | _ => true
  end.

(** The calls that only ask. *)
Definition is_query (c : Call) : bool :=
  match c with
  | CallGetStatus | CallGetPanels => true
  | _ => false
  end.

(** Whether a result says [success: True]. *)
Definition succeeded (r : Py.dict) : bool :=
  match Py.get "success" r with
  | Some (Py.VBool true) => true
  | _ => false
  end.

(** The paths of the server that the client uses. *)
Definition endpoints : list string :=
  ["/api/command"; "/api/status"; "/api/panels"; "/api/reset"].

(** What a socket event says of the connection. *)
Definition socket (e : Page.Event) : option bool :=
  match e with
  | Page.SocketConnect _ => Some true
  | Page.SocketDisconnect _ => Some false
  | _ => None
  end.

(** The last socket event of a history, [acc] when there is none. *)
Fixpoint lastSocket (es : list Page.Event) (acc : option bool) : option bool :=
  match es with
  | [] => acc
  | e :: es' => lastSocket es' (match socket e with Some b => Some b | None => acc end)
  end.

End ClientFacts.

(** * Properties *)

(** ** Decimal strings: what [parseInt] makes of the digits Python writes *)

(** One digit of a decimal string read by [parseDigits]. *)
Lemma parseDigits_cons (R : Z) (c : ascii) (s : string) (acc : option Z) :
  JS.parseDigits R (String c s) acc =
  match JS.digitValue c with
  | Some d =>
      if d <? R
      then JS.parseDigits R s (Some (match acc with Some a => a * R + d | None => d end))
      else acc
  | None => acc
  end.
Proof. reflexivity. Qed.

Ltac read_digit :=
  rewrite parseDigits_cons;
  match goal with
  | |- context [JS.digitValue ?c] =>
      let v := eval vm_compute in (JS.digitValue c) in
      change (JS.digitValue c) with v
  end;
  cbv beta iota;
  match goal with
  | |- context [?k <? 10] => change (k <? 10) with true
  end;
  cbv beta iota.

Lemma parseDigits_uint (d : Decimal.uint) (a : Z) :
  JS.parseDigits 10 (NilEmpty.string_of_uint d) (Some a) = Some (Py.uint_value d a).
Proof.
  revert a. induction d; intros a; cbn [NilEmpty.string_of_uint Py.uint_value]; [reflexivity|..];
    read_digit; rewrite IHd; f_equal; f_equal; lia.
Qed.

Lemma parseDigits_uint_start (d : Decimal.uint) :
  d <> Decimal.Nil -> JS.parseDigits 10 (NilEmpty.string_of_uint d) None = Some (Py.uint_value d 0).
Proof.
  destruct d; intros Hd; [congruence|..]; cbn [NilEmpty.string_of_uint Py.uint_value];
    read_digit; rewrite parseDigits_uint; reflexivity.
Qed.

Lemma digits_plain (d : Decimal.uint) :
  d <> Decimal.Nil ->
  JS.trimStart (NilEmpty.string_of_uint d) = NilEmpty.string_of_uint d /\ JS.splitSign (NilEmpty.string_of_uint d) = (1, NilEmpty.string_of_uint d)
  /\ JS.splitRadix (NilEmpty.string_of_uint d) = (10, NilEmpty.string_of_uint d).
Proof.
  intros Hd. destruct d as [|l|l|l|l|l|l|l|l|l|l]; [congruence|..];
    (split; [reflexivity|]; split; [reflexivity|]);
    destruct l; reflexivity.
Qed.

Lemma uint_value_acc (d : Decimal.uint) (acc : positive) :
  Z.pos (Pos.of_uint_acc d acc) = Py.uint_value d (Z.pos acc).
Proof.
  revert acc. induction d; intros acc; cbn [Pos.of_uint_acc Py.uint_value];
    [reflexivity|..]; rewrite IHd; f_equal; lia.
Qed.

Lemma uint_value_of_uint (d : Decimal.uint) : Z.of_N (Pos.of_uint d) = Py.uint_value d 0.
Proof.
  induction d; cbn [Pos.of_uint Py.uint_value]; [reflexivity | exact IHd |..];
    cbn [Z.of_N]; rewrite uint_value_acc; reflexivity.
Qed.

Lemma to_uint_value (n : N) : Py.uint_value (N.to_uint n) 0 = Z.of_N n.
Proof.
  rewrite <- uint_value_of_uint. f_equal. apply DecimalN.Unsigned.of_to.
Qed.

Lemma to_uint_nonnil (n : N) : N.to_uint n <> Decimal.Nil.
Proof.
  destruct n; [discriminate | apply DecimalPos.Unsigned.to_uint_nonnil].
Qed.

Lemma parseInt_digits (d : Decimal.uint) :
  d <> Decimal.Nil -> JS.parseInt (NilEmpty.string_of_uint d) = Some (Py.uint_value d 0).
Proof.
  intros Hd. unfold JS.parseInt.
  destruct (digits_plain d Hd) as (Ht & Hs & Hr).
  rewrite Ht, Hs, Hr, (parseDigits_uint_start d Hd). f_equal; lia.
Qed.

Lemma parseInt_minus_digits (d : Decimal.uint) :
  d <> Decimal.Nil -> JS.parseInt (String "-" (NilEmpty.string_of_uint d)) = Some (- Py.uint_value d 0).
Proof.
  intros Hd. unfold JS.parseInt.
  destruct (digits_plain d Hd) as (Ht & Hs & Hr).
  change (JS.trimStart (String "-" (NilEmpty.string_of_uint d))) with (String "-" (NilEmpty.string_of_uint d)).
  change (JS.splitSign (String "-" (NilEmpty.string_of_uint d))) with (-1, NilEmpty.string_of_uint d).
  cbv beta iota zeta. rewrite Hr, (parseDigits_uint_start d Hd). f_equal; lia.
Qed.

Lemma zfill_digits (d : Decimal.uint) :
  d <> Decimal.Nil ->
  Py.zfill 1 (NilEmpty.string_of_uint d) = NilEmpty.string_of_uint d /\
  (Py.zfill 2 (NilEmpty.string_of_uint d) = NilEmpty.string_of_uint d \/ Py.zfill 2 (NilEmpty.string_of_uint d) = NilEmpty.string_of_uint (Decimal.D0 d)).
Proof.
  intros Hd. destruct d as [|l|l|l|l|l|l|l|l|l|l]; [congruence|..];
    (split; [reflexivity|]); destruct l; (left; reflexivity) || (right; reflexivity).
Qed.

(** [parseInt] reads back what the format [:02d] writes, for every integer. *)
Lemma parseInt_fmt_02d (t : Z) : JS.parseInt (Py.fmt_02d t) = Some t.
Proof.
  unfold Py.fmt_02d, Py.decimal.
  destruct (Z.ltb_spec t 0) as [Hneg | Hpos].
  - pose proof (to_uint_nonnil (Z.to_N (- t))) as Hd.
    destruct (zfill_digits _ Hd) as [-> _].
    change ("-" ++ NilEmpty.string_of_uint (N.to_uint (Z.to_N (- t)))) with (String "-" (NilEmpty.string_of_uint (N.to_uint (Z.to_N (- t))))).
    rewrite (parseInt_minus_digits _ Hd), to_uint_value. f_equal; lia.
  - pose proof (to_uint_nonnil (Z.to_N t)) as Hd.
    destruct (zfill_digits _ Hd) as [_ [-> | ->]].
    + rewrite (parseInt_digits _ Hd), to_uint_value. f_equal; lia.
    + rewrite parseInt_digits by discriminate.
      cbn [Py.uint_value]. rewrite to_uint_value. f_equal; lia.
Qed.

(** ** Decoding of panel frames by the simulator *)

Import Simulator.

(** [updatePanelsFromCommand] is [decode] followed by [applyCommand]; a frame
    from which no command is read leaves the panels as they are. *)
Lemma updatePanelsFromCommand_decode (command : string) (panels : list Panel) :
  updatePanelsFromCommand command panels =
  match decode command with
  | Some c => applyCommand c panels
  | None => Some panels
  end.
Proof.
  unfold updatePanelsFromCommand, decode, decodeTarget.
  destruct (JS.startsWith ":OP" command).
  - destruct (JS.parseInt _) as [n|]; [|reflexivity].
    destruct (n =? 0); [reflexivity|].
    destruct ((1 <=? n) && (n <=? 16)); reflexivity.
  - destruct (JS.startsWith ":CL" command); [|reflexivity].
    destruct (JS.parseInt _) as [n|]; [|reflexivity].
    destruct (n =? 0); [reflexivity|].
    destruct ((1 <=? n) && (n <=? 16)); reflexivity.
Qed.

Lemma decodeTarget_range (command : string) (tg : Target) :
  decodeTarget command = Some tg ->
  tg = All \/ exists n, tg = PanelN n /\ 1 <= n <= 16.
Proof.
  unfold decodeTarget. destruct (JS.parseInt _) as [n|]; [|discriminate].
  destruct (n =? 0); [intros [= <-]; now left|].
  destruct ((1 <=? n) && (n <=? 16)) eqn:E; [|discriminate].
  intros [= <-]. right. exists n. split; [reflexivity | lia].
Qed.

(** The target of a decoded command is [All] or a panel from 1 to 16. *)
Lemma decode_range (command : string) (c : Command) :
  decode command = Some c ->
  target c = All \/ exists n, target c = PanelN n /\ 1 <= n <= 16.
Proof.
  unfold decode.
  destruct (JS.startsWith ":OP" command).
  - destruct (decodeTarget command) as [tg|] eqn:E; [|discriminate].
    intros [= <-]. simpl. eauto using decodeTarget_range.
  - destruct (JS.startsWith ":CL" command); [|discriminate].
    destruct (decodeTarget command) as [tg|] eqn:E; [|discriminate].
    intros [= <-]. simpl. eauto using decodeTarget_range.
Qed.

(** The frames of the API client decode to the command they were made of. *)
(** The target that the simulator reads off the frame the client would
    write for the integer [t], in range or not. *)
Lemma decode_fmt (op : Opcode) (t : Z) :
  decode ((match op with OP => ":OP" | CL => ":CL" end) ++ Py.fmt_02d t) =
  if t =? 0 then Some (mkCommand op All)
  else if (1 <=? t) && (t <=? 16) then Some (mkCommand op (PanelN t))
  else None.
Proof.
  assert (Htg : forall pre, String.length pre = 3%nat ->
            decodeTarget (pre ++ Py.fmt_02d t) =
            if t =? 0 then Some All
            else if (1 <=? t) && (t <=? 16) then Some (PanelN t) else None).
  { intros pre Hpre. unfold decodeTarget.
    destruct pre as [|a [|b [|c [|? ?]]]]; try discriminate.
    cbn [String.append JS.substring]. rewrite parseInt_fmt_02d. reflexivity. }
  unfold decode. destruct op.
  - change (JS.startsWith ":OP" (":OP" ++ Py.fmt_02d t)) with true. cbv iota.
    rewrite (Htg ":OP" eq_refl).
    destruct (t =? 0); [reflexivity|]. destruct ((1 <=? t) && (t <=? 16)); reflexivity.
  - change (JS.startsWith ":OP" (":CL" ++ Py.fmt_02d t)) with false.
    change (JS.startsWith ":CL" (":CL" ++ Py.fmt_02d t)) with true. cbv iota.
    rewrite (Htg ":CL" eq_refl).
    destruct (t =? 0); [reflexivity|]. destruct ((1 <=? t) && (t <=? 16)); reflexivity.
Qed.

Lemma decode_encode_panel (op : Opcode) (t : Z) :
  1 <= t <= 16 -> decode (encode (mkCommand op (PanelN t))) = Some (mkCommand op (PanelN t)).
Proof.
  intros Ht. unfold encode. cbn [opcode target]. rewrite decode_fmt.
  replace (t =? 0) with false by (symmetry; apply Z.eqb_neq; lia).
  replace ((1 <=? t) && (t <=? 16)) with true by (symmetry; apply andb_true_iff; lia).
  reflexivity.
Qed.

(** A frame written for a number outside 0..16 gives the simulator no
    command: its panels stay as they are. *)
Lemma decode_out_of_range (op : Opcode) (t : Z) (panels : list Panel) :
  t < 0 \/ 16 < t ->
  let frame := (match op with OP => ":OP" | CL => ":CL" end) ++ Py.fmt_02d t in
  decode frame = None /\ updatePanelsFromCommand frame panels = Some panels.
Proof.
  intros Ht. cbn zeta. rewrite updatePanelsFromCommand_decode, decode_fmt.
  replace (t =? 0) with false by (symmetry; apply Z.eqb_neq; lia).
  replace ((1 <=? t) && (t <=? 16)) with false by (symmetry; apply andb_false_iff; lia).
  split; reflexivity.
Qed.

Lemma decode_encode_all (op : Opcode) :
  decode (encode (mkCommand op All)) = Some (mkCommand op All).
Proof. destruct op; reflexivity. Qed.

Lemma setOnePanel_lookup (panels : list Panel) (t : Z) (state : string) :
  length panels = 16%nat -> 1 <= t <= 16 ->
  exists panel,
    panels !! Z.to_nat (t - 1) = Some panel /\
    setOnePanel panels t state = Some (<[Z.to_nat (t - 1) := setPanelState panel state]> panels).
Proof.
  intros Hlen Ht. unfold setOnePanel.
  destruct (panels !! Z.to_nat (t - 1)) as [panel|] eqn:E.
  - exists panel. split; reflexivity.
  - apply lookup_ge_None in E. lia.
Qed.

(** ** The panel array keeps its sixteen panels *)

Lemma setOnePanel_length (panels panels' : list Panel) (n : Z) (state : string) :
  setOnePanel panels n state = Some panels' -> length panels' = length panels.
Proof.
  unfold setOnePanel. destruct (panels !! Z.to_nat (n - 1)); [|discriminate].
  intros [= <-]. apply length_insert.
Qed.

Lemma updatePanelsFromCommand_length (command : string) (panels panels' : list Panel) :
  updatePanelsFromCommand command panels = Some panels' -> length panels' = length panels.
Proof.
  rewrite updatePanelsFromCommand_decode.
  destruct (decode command) as [[op [|n]]|]; unfold applyCommand; cbn [target opcode].
  - intros [= <-]. apply length_fmap.
  - apply setOnePanel_length.
  - now intros [= <-].
Qed.

Lemma updatePanelsFromIndex_length (positions : list Z) (index : nat) (panels : list Panel) :
  length (updatePanelsFromIndex index positions panels) = length panels.
Proof.
  revert index panels. induction positions as [|position rest IH]; intros index panels;
    [reflexivity|].
  cbn [updatePanelsFromIndex]. rewrite IH.
  destruct (panels !! index); [|reflexivity].
  destruct (position =? 1000); [apply length_insert|].
  destruct (position =? 2000); [apply length_insert | reflexivity].
Qed.

(** A click on a panel number from 1 on reads the panel before it in the
    array. *)
Lemma togglePanel_pos (ps : list Panel) (n : nat) :
  (1 <= n)%nat ->
  togglePanel ps n
  = match ps !! (n - 1)%nat with
    | Some panel =>
        Some (<[(n - 1)%nat :=
                 if classListContains (className panel) "open"
                 then setPanelState panel "closed"
                 else setPanelState panel "open"]> ps)
    | None => None
    end.
Proof.
  intros Hn. unfold togglePanel.
  now replace (n =? 0)%nat with false by (symmetry; apply Nat.eqb_neq; lia).
Qed.

Lemma handle_panels_length (e : Event) (st : State) :
  length (panels (handle e st)) = length (panels st).
Proof.
  destruct e as [now input r | now r | now r | n | k | now m | ]; simpl.
  - unfold sendCommand. destruct (String.eqb _ ""); [reflexivity|].
    destruct r as [result | msg]; [|reflexivity].
    destruct (cr_success result); [|reflexivity].
    cbn [panels log]. destruct (updatePanelsFromCommand _ _) as [ps|] eqn:E; [|reflexivity].
    cbn [panels withPanels]. now apply updatePanelsFromCommand_length in E.
  - unfold loadWaveSequence, loadSequence. destruct r as [result | msg]; [|reflexivity].
    destruct (sr_success result); reflexivity.
  - unfold loadScreamSequence, loadSequence. destruct r as [result | msg]; [|reflexivity].
    destruct (sr_success result); reflexivity.
  - unfold togglePanel. destruct (n =? 0)%nat; [reflexivity|].
    destruct (panels st !! (n - 1)%nat); [|reflexivity].
    cbn [panels withPanels]. apply length_insert.
  - unfold updateSequenceStatus. destruct (currentSequence st); [|reflexivity].
    destruct (if 0 <=? k then _ else _); [|reflexivity].
    cbn [panels withPanels]. apply updatePanelsFromIndex_length.
  - reflexivity.
  - reflexivity.
Qed.

(** In every state of the page the array has its sixteen panels, so that
    no panel command finds a panel missing. *)
Lemma reachable_sixteen_panels (st : State) : reachable st -> length (panels st) = 16%nat.
Proof.
  induction 1 as [nodes | e st _ IH]; [reflexivity|].
  now rewrite handle_panels_length.
Qed.

Lemma reachable_update_succeeds (st : State) (command : string) :
  reachable st -> exists ps, updatePanelsFromCommand command (panels st) = Some ps.
Proof.
  intros Hr. pose proof (reachable_sixteen_panels st Hr) as Hlen.
  rewrite updatePanelsFromCommand_decode.
  destruct (decode command) as [c|] eqn:E; [|eauto].
  destruct (decode_range command c E) as [Hall | (n & Hn & Hr')];
    unfold applyCommand; rewrite ?Hall, ?Hn; [eauto|].
  destruct (setOnePanel_lookup (panels st) n (stateOf (opcode c)) Hlen Hr') as (p & _ & ->).
  eauto.
Qed.

(** ** Panel targets: one panel, or all *)

(** C1. For every panel target t from 1 to 16, the frame ":OP" followed by
    the two-digit zero-padded t decodes to the command with opcode OP and
    target panel t, and the simulator (with its sixteen panels) opens panel t
    and leaves every other panel as it was; the frame ":OP00" decodes to the
    target [All], on which every panel is opened; and no frame at all decodes
    to the literal panel 0. *)
Theorem open_frame_decodes_to_panel_or_all (t : Z) (panels : list Panel) :
  length panels = 16%nat ->
  1 <= t <= 16 ->
  decode (":OP" ++ Py.fmt_02d t) = Some (mkCommand OP (PanelN t)) /\
  (exists panel panels',
      panels !! Z.to_nat (t - 1) = Some panel /\
      updatePanelsFromCommand (":OP" ++ Py.fmt_02d t) panels = Some panels' /\
      panels' !! Z.to_nat (t - 1) = Some (setPanelState panel "open") /\
      className (setPanelState panel "open") = "panel open" /\
      (forall j : nat, j <> Z.to_nat (t - 1) -> panels' !! j = panels !! j)) /\
  decode (":OP" ++ Py.fmt_02d 0) = Some (mkCommand OP All) /\
  updatePanelsFromCommand (":OP" ++ Py.fmt_02d 0) panels = Some (setAllPanels panels "open") /\
  Forall (fun p => className p = "panel open") (setAllPanels panels "open") /\
  length (setAllPanels panels "open") = length panels /\
  (forall frame c, decode frame = Some c -> target c <> PanelN 0).
Proof.
  intros Hlen Ht.
  assert (Hdec : decode (":OP" ++ Py.fmt_02d t) = Some (mkCommand OP (PanelN t)))
    by exact (decode_encode_panel OP t Ht).
  split; [exact Hdec|]. split.
  - destruct (setOnePanel_lookup panels t "open" Hlen Ht) as (panel & Hlk & Hset).
    exists panel, (<[Z.to_nat (t - 1) := setPanelState panel "open"]> panels).
    split; [exact Hlk|]. split.
    + rewrite updatePanelsFromCommand_decode, Hdec. exact Hset.
    + split; [|split; [reflexivity|]].
      * apply list_lookup_insert_eq. apply lookup_lt_Some in Hlk. exact Hlk.
      * intros j Hj. apply list_lookup_insert_ne. congruence.
  - split; [reflexivity|]. split; [reflexivity|]. split; [|split].
    + unfold setAllPanels. apply Forall_fmap, Forall_true. intros p. reflexivity.
    + unfold setAllPanels. apply length_fmap.
    + intros frame c Hc Heq. destruct (decode_range frame c Hc) as [Hall | (n & Hn & Hr)].
      * congruence.
      * rewrite Hn in Heq. injection Heq as ->. lia.
Qed.

Lemma open_frame_decodes_to_panel_or_all_witness :
  length initializeDome = 16%nat /\ 1 <= 7 <= 16 /\
  decode (":OP" ++ Py.fmt_02d 7) = Some (mkCommand OP (PanelN 7)).
Proof.
  split; [reflexivity|]. split; [lia|].
  refine (proj1 (open_frame_decodes_to_panel_or_all 7 initializeDome _ _)).
  - reflexivity.
  - lia.
Defined.

(** ** The API client: range check and simulation mode *)

Import SITHAPI.

(** C2. For every panel number t outside 0..16 (below 0 or above 16),
    [open_panel(t)] returns, whatever the mode and the server, the result
    [{'success': False, 'error': 'Panel number must be 1-16'}]: a value, with
    [success] false and an error message, and it issues no command: nothing
    is printed and no request is made. *)
Theorem open_panel_out_of_range_soft_failure
    (HAS_REQUESTS : bool) (server : list Request -> Request -> Py.dict + string)
    (self : API) (t : Z) (w : World) :
  t < 0 \/ 16 < t ->
  open_panel HAS_REQUESTS server self t w = (panel_range_error, w) /\
  Py.get "success" panel_range_error = Some (Py.VBool false) /\
  Py.get "error" panel_range_error = Some (Py.VStr "Panel number must be 1-16").
Proof.
  intros Ht. unfold open_panel.
  replace ((1 <=? t) && (t <=? 16)) with false by (symmetry; apply andb_false_iff; lia).
  repeat split.
Qed.

Lemma open_panel_out_of_range_soft_failure_witness :
  (99 < 0 \/ 16 < 99) /\
  open_panel false (fun _ _ => inr "unreachable") (mkAPI "http://localhost:5000" false) 99
    (mkWorld [] []) = (panel_range_error, mkWorld [] []).
Proof.
  split; [right; lia|].
  refine (proj1 (open_panel_out_of_range_soft_failure false _ _ 99 _ _)).
  right; lia.
Defined.

(** In simulation mode a command is printed and answered with success. *)
Lemma send_command_simulated (server : list Request -> Request -> Py.dict + string)
    (self : API) (command : string) (w : World) :
  send_command false server self command w =
  ([("success", Py.VBool true); ("message", Py.VStr ("Simulated: " ++ command))],
   {| stdout := stdout w ++ ["Simulated command: " ++ command];
      requests_made := requests_made w |}).
Proof. reflexivity. Qed.

(** The client sends the frame that [encode] gives. *)
Lemma open_panel_sends_encode (HAS_REQUESTS : bool)
    (server : list Request -> Request -> Py.dict + string) (self : API) (t : Z) :
  1 <= t <= 16 ->
  open_panel HAS_REQUESTS server self t
  = send_command HAS_REQUESTS server self (encode (mkCommand OP (PanelN t))).
Proof.
  intros Ht. unfold open_panel.
  replace ((1 <=? t) && (t <=? 16)) with true by (symmetry; apply andb_true_iff; lia).
  reflexivity.
Qed.

Lemma close_panel_sends_encode (HAS_REQUESTS : bool)
    (server : list Request -> Request -> Py.dict + string) (self : API) (t : Z) :
  1 <= t <= 16 ->
  close_panel HAS_REQUESTS server self t
  = send_command HAS_REQUESTS server self (encode (mkCommand CL (PanelN t))).
Proof.
  intros Ht. unfold close_panel.
  replace ((1 <=? t) && (t <=? 16)) with true by (symmetry; apply andb_true_iff; lia).
  reflexivity.
Qed.

Lemma all_panels_send_encode (HAS_REQUESTS : bool)
    (server : list Request -> Request -> Py.dict + string) (self : API) :
  open_all_panels HAS_REQUESTS server self
  = send_command HAS_REQUESTS server self (encode (mkCommand OP All)) /\
  close_all_panels HAS_REQUESTS server self
  = send_command HAS_REQUESTS server self (encode (mkCommand CL All)).
Proof. split; reflexivity. Qed.

(** ** Closing all panels *)




(** ** Round trip between the client's frames and the simulator's decoding *)

Lemma decode_encode (c : Command) : canonical c -> decode (encode c) = Some c.
Proof.
  destruct c as [op tg]. intros [H | (n & H & Hn)]; simpl in H; subst tg.
  - apply decode_encode_all.
  - now apply decode_encode_panel.
Qed.

(** C4, as stated, fails: the simulator reads the command "open panel 1" off
    the frame ":OP1", and the frame of that command is ":OP01". *)
Lemma round_trip_fails_on_short_frame :
  exists c, decode ":OP1" = Some c /\ encode c <> ":OP1".
Proof. exists (mkCommand OP (PanelN 1)). split; [reflexivity | discriminate]. Qed.

(** Other spellings that decode to "open panel 1": trailing text, a sign,
    white space, and hexadecimal digits. *)
Lemma lenient_spellings :
  Forall (fun frame => decode frame = Some (mkCommand OP (PanelN 1)))
         [":OP1"; ":OP01"; ":OP001"; ":OP1.5"; ":OP+1"; ":OP 1"; ":OP0x1"; ":OP1abc"].
Proof. repeat constructor. Qed.

(** C4, amended. Every command that a frame decodes to is one of the
    client's commands, and encoding it and decoding again gives it back;
    every frame of the client (opcode OP or CL with the two-digit target 00
    to 16) is reproduced byte for byte by decoding and encoding, in particular
    ":OP" followed by the zero-padded t for t from 1 to 16. *)
Theorem round_trip_on_client_frames (frame : string) (c : Command) (t : Z) :
  decode frame = Some c ->
  1 <= t <= 16 ->
  canonical c /\
  decode (encode c) = Some c /\
  (frame = encode c -> encode <$> decode frame = Some frame) /\
  encode <$> decode (encode c) = Some (encode c) /\
  encode <$> decode (":OP" ++ Py.fmt_02d t) = Some (":OP" ++ Py.fmt_02d t) /\
  encode <$> decode (":CL" ++ Py.fmt_02d t) = Some (":CL" ++ Py.fmt_02d t) /\
  encode <$> decode ":OP00" = Some ":OP00" /\
  encode <$> decode ":CL00" = Some ":CL00".
Proof.
  intros Hdec Ht.
  assert (Hc : canonical c) by exact (decode_range frame c Hdec).
  split; [exact Hc|]. split; [now apply decode_encode|].
  split; [intros ->; now rewrite decode_encode|].
  split; [now rewrite decode_encode|].
  split; [|split; [|split; reflexivity]].
  - change (":OP" ++ Py.fmt_02d t) with (encode (mkCommand OP (PanelN t))).
    now rewrite decode_encode_panel.
  - change (":CL" ++ Py.fmt_02d t) with (encode (mkCommand CL (PanelN t))).
    now rewrite decode_encode_panel.
Qed.

Lemma round_trip_on_client_frames_witness :
  decode ":OP1" = Some (mkCommand OP (PanelN 1)) /\ 1 <= 16 <= 16 /\
  encode <$> decode (":OP" ++ Py.fmt_02d 16) = Some ":OP16".
Proof.
  split; [reflexivity|]. split; [lia|].
  refine (proj1 (proj2 (proj2 (proj2 (proj2
    (round_trip_on_client_frames ":OP1" (mkCommand OP (PanelN 1)) 16 _ _)))))).
  - reflexivity.
  - lia.
Defined.

(** ** The queries of the client in simulation mode *)

(** C10. In simulation mode (requests unavailable), after any script of
    calls, and so after any sequence of [open_panel], [close_panel] and
    [open_all_panels] calls, [get_panels()] returns sixteen entries, all
    [False], and [get_status()] reports the panels as ['all_closed']; neither
    changes what is printed or requested. *)
Theorem simulated_queries_are_stateless
    (server : list Request -> Request -> Py.dict + string)
    (self : API) (cs : list Call) (w : World) :
  let w' := snd (run false server self cs w) in
  get_panels false server self w'
  = ([("success", Py.VBool true); ("panels", Py.VList (replicate 16 (Py.VBool false)))], w') /\
  get_status false server self w'
  = ([("success", Py.VBool true); ("status", Py.VStr "simulation_mode");
      ("panels", Py.VStr "all_closed")], w') /\
  fst (get_panels false server self w') = fst (get_panels false server self w) /\
  fst (get_status false server self w') = fst (get_status false server self w) /\
  requests_made w' = requests_made w.
Proof.
  cbn zeta. repeat split.
  revert w. induction cs as [|c cs IH]; intros w; [reflexivity|].
  cbn [run]. unfold bind.
  destruct (call false server self c w) as [r w1] eqn:Ec.
  specialize (IH w1). destruct (run false server self cs w1) as [rs w2]. simpl in *.
  rewrite IH. destruct c; cbn in Ec; unfold open_panel, close_panel, ret in Ec;
    repeat match type of Ec with context [if ?b then _ else _] => destruct b end;
    cbn in Ec; injection Ec as _ <-; reflexivity.
Qed.

(** ** The bound on the command log *)

Lemma keepLast100_bound (nodes : list Node) :
  (length (children (keepLast100 nodes)) <= 100)%nat.
Proof.
  funelim (keepLast100 nodes); [assumption | lia].
Qed.

Lemma keepLast100_id (nodes : list Node) :
  (length (children nodes) <= 100)%nat -> keepLast100 nodes = nodes.
Proof.
  intros H. rewrite keepLast100_equation_1.
  destruct (decide (100 < length (children nodes))%nat); [lia | reflexivity].
Qed.

Lemma children_tail (nodes : list Node) :
  (length (children nodes) <= S (length (children (tail nodes))))%nat.
Proof.
  destruct nodes as [|n ns]; [simpl; lia|].
  unfold children. rewrite filter_cons. destruct (decide (isElement n)); simpl; lia.
Qed.

Lemma keepLast100_exact (nodes : list Node) :
  (100 < length (children nodes))%nat -> length (children (keepLast100 nodes)) = 100%nat.
Proof.
  funelim (keepLast100 nodes); intros Hgt; [|lia].
  destruct (decide (100 < length (children (tail nodes)))%nat) as [Hmore | Hstop].
  - auto.
  - rewrite keepLast100_id by lia. pose proof (children_tail nodes). lia.
Qed.

Lemma keepLast100_suffix (nodes : list Node) :
  exists k, keepLast100 nodes = drop k nodes.
Proof.
  funelim (keepLast100 nodes).
  - destruct H as [k Hk]. exists (S k). rewrite Hk. destruct nodes; [now rewrite !drop_nil|reflexivity].
  - exists 0%nat. reflexivity.
Qed.

Lemma keepLast100_last (nodes : list Node) :
  last (keepLast100 nodes) = last nodes.
Proof.
  funelim (keepLast100 nodes); [|reflexivity].
  rewrite H.
  assert (Hlen : (length (children nodes) <= length nodes)%nat) by apply length_filter.
  destruct nodes as [|n [|n' ns]]; simpl in *; try lia; reflexivity.
Qed.

Lemma children_all_elements (nodes : list Node) :
  Forall isElement nodes -> children nodes = nodes.
Proof.
  unfold children. induction 1 as [|n ns Hn _ IH]; [reflexivity|].
  rewrite filter_cons. destruct (decide (isElement n)); [now rewrite IH | contradiction].
Qed.

(** C9. After [addLogEntry], the log container has at most 100 element
    children; what is left is the old content and the new entry with nodes
    taken off the front only; nothing is taken off while there are at most
    100 entries, and exactly 100 are left otherwise; and the new entry is
    the last node in every case. *)
Theorem addLogEntry_keeps_last_100 (now message type : string) (nodes : list Node) :
  let entry := Element {| entryClass := "log-entry " ++ type;
                          textContent := "[" ++ now ++ "] " ++ message |} in
  let nodes' := addLogEntry now message type nodes in
  (length (children nodes') <= 100)%nat /\
  last nodes' = Some entry /\
  (exists k, nodes' = drop k (nodes ++ [entry])%list) /\
  ((length (children nodes) < 100)%nat -> nodes' = (nodes ++ [entry])%list) /\
  ((100 <= length (children nodes))%nat -> length (children nodes') = 100%nat) /\
  (length nodes = 100%nat -> Forall isElement nodes -> nodes' = (tail nodes ++ [entry])%list).
Proof.
  cbn zeta. unfold addLogEntry.
  set (entry := Element _).
  assert (Hch : length (children (nodes ++ [entry])%list) = S (length (children nodes))).
  { unfold children. rewrite filter_app, length_app. simpl. lia. }
  split; [apply keepLast100_bound|].
  split; [rewrite keepLast100_last; apply last_snoc|].
  split; [apply keepLast100_suffix|].
  split; [intros Hlt; apply keepLast100_id; lia|].
  split; [intros Hge; apply keepLast100_exact; lia|].
  intros Hlen Hall.
  pose proof (children_all_elements nodes Hall) as Hfull.
  rewrite keepLast100_equation_1.
  destruct (decide (100 < length (children (nodes ++ [entry])%list))%nat) as [Hgt|Hn];
    [|exfalso; apply Hn; rewrite Hch, Hfull; lia].
  unfold keepLast100_unfold_clause_1. clear Hgt.
  destruct nodes as [|n ns]; [discriminate|]. simpl tail.
  apply keepLast100_id.
  apply Forall_cons in Hall as [_ Hrest].
  pose proof (children_all_elements ns Hrest) as Hns.
  unfold children in *. rewrite filter_app, length_app, Hns. simpl in *. lia.
Qed.

Lemma addLogEntry_keeps_last_100_witness :
  let full := replicate 100 (Element (mkLogEntry "log-entry info" "[12:00:00] old")) in
  length full = 100%nat /\
  length (children (addLogEntry "12:00:01" "new" "info" full)) = 100%nat.
Proof.
  cbn zeta. split; [reflexivity|].
  refine (proj1 (proj2 (proj2 (proj2 (proj2
    (addLogEntry_keeps_last_100 "12:00:01" "new" "info" _))))) _).
  vm_compute. lia.
Defined.

(** ** The positions of the sequences the simulator holds *)

Lemma valid_position_ok (v : Z) : valid_position v = true -> position_ok v.
Proof.
  unfold valid_position, position_ok. rewrite !orb_true_iff, andb_true_iff. lia.
Qed.

Lemma valid_sequence_ok (sq : Sequence) :
  valid_sequence sq = true ->
  forall step v, step ∈ steps sq -> v ∈ servo_positions step -> position_ok v.
Proof.
  unfold valid_sequence, valid_step. intros Hv step v Hs Hp.
  rewrite forallb_forall in Hv. apply list_elem_of_In in Hs.
  specialize (Hv step Hs). rewrite forallb_forall in Hv.
  apply valid_position_ok, Hv. now apply list_elem_of_In.
Qed.

Lemma log_currentSequence now message type st :
  currentSequence (log now message type st) = currentSequence st.
Proof. reflexivity. Qed.

Lemma handle_loaded_ok (e : Event) (st : State) : loaded_ok st -> loaded_ok (handle e st).
Proof.
  intros H. destruct e as [now input r | now r | now r | n | k | now m | ]; simpl.
  - unfold sendCommand. destruct (String.eqb _ ""); [exact H|].
    destruct r as [result | msg]; [|exact H].
    destruct (cr_success result); [|exact H].
    destruct (updatePanelsFromCommand _ _); exact H.
  - unfold loadWaveSequence, loadSequence. destruct r as [result | msg]; [|exact H].
    destruct (sr_success result); [|exact H]. right; left; reflexivity.
  - unfold loadScreamSequence, loadSequence. destruct r as [result | msg]; [|exact H].
    destruct (sr_success result); [|exact H]. right; right; reflexivity.
  - destruct (togglePanel _ _); exact H.
  - unfold updateSequenceStatus. destruct (currentSequence st) as [sq|] eqn:E; [|exact H].
    destruct (if 0 <=? k then _ else _); [|exact H].
    exact H.
  - exact H.
  - exact H.
Qed.

Lemma reachable_loaded_ok (st : State) : reachable st -> loaded_ok st.
Proof.
  induction 1 as [nodes | e st _ IH]; [now left | now apply handle_loaded_ok].
Qed.

(** C7. Every position of every step of the Wave and of the Scream sequence
    lies in the pulse range 500..2500 or is one of the OPEN, CLOSED, MID and
    NO-PULSE constants; and in every state the simulator can reach, the
    sequence it has loaded (the only one it can start) has this property. *)
Theorem sequence_positions_in_range (st : State) (sq : Sequence) (step : Step) (v : Z) :
  reachable st ->
  currentSequence st = Some sq ->
  step ∈ steps sq ->
  v ∈ servo_positions step ->
  position_ok v /\
  valid_sequence sq = true /\
  valid_sequence waveSequence = true /\
  valid_sequence screamSequence = true.
Proof.
  intros Hr Hsq Hstep Hv.
  assert (Hval : valid_sequence sq = true).
  { destruct (reachable_loaded_ok st Hr) as [H | [H | H]]; rewrite H in Hsq;
      [discriminate | injection Hsq as <- | injection Hsq as <-]; reflexivity. }
  split; [exact (valid_sequence_ok sq Hval step v Hstep Hv)|].
  split; [exact Hval|]. split; reflexivity.
Qed.

Lemma sequence_positions_in_range_witness :
  let st := handle (ClickLoadWave "12:00:00" (Resolved (mkSequenceResult true "6" "")))
                   (construct []) in
  currentSequence st = Some waveSequence /\ position_ok 2000.
Proof.
  cbn zeta. split; [reflexivity|].
  refine (proj1 (sequence_positions_in_range
                   (handle (ClickLoadWave "12:00:00" (Resolved (mkSequenceResult true "6" "")))
                           (construct []))
                   waveSequence
                   (mkStep 200 (replicate 12 2000) "Close all panels") 2000 _ _ _ _)).
  - apply reachable_handle, (reachable_construct []).
  - reflexivity.
  - unfold waveSequence; simpl. apply list_elem_of_here.
  - simpl. apply list_elem_of_here.
Defined.

(** ** Supersession in the sequence engine *)

Lemma transition_ids_from k from to e :
  Core.ids_from k e ->
  Core.ids_from k (fst (fst (Core.transition from to e)))
  /\ Core.events_from k (snd (fst (Core.transition from to e))).
Proof.
  intros H. pose proof H as [Hn Hc]. unfold Core.transition.
  destruct (Core.current e) as [r|] eqn:E; simpl; [|split; [exact H | constructor]].
  destruct (from (Core.state r)); simpl; [|split; [exact H | constructor]].
  split; [|constructor]. split; [exact Hn|]. simpl. intros r' [= <-]. simpl. auto.
Qed.

Lemma tick_ids_from k dt e :
  Core.ids_from k e ->
  Core.ids_from k (fst (fst (Core.tick dt e))) /\ Core.events_from k (snd (fst (Core.tick dt e))).
Proof.
  intros [Hn Hc]. unfold Core.tick.
  destruct (Core.current e) as [r|] eqn:E.
  - specialize (Hc r eq_refl).
    destruct (Core.state r); simpl;
      try (split; [split; [exact Hn | intros r' [= <-]; exact Hc] | constructor]).
    split; [split; [exact Hn | intros r' [= <-]; exact Hc]|].
    apply Forall_app. split.
    + apply Forall_fmap, Forall_true. intros c j [= <-]. exact Hc.
    + destruct (_ <=? _)%nat; repeat constructor. intros j [= <-]. exact Hc.
  - simpl. split; [split; [exact Hn | discriminate] | constructor].
Qed.

Lemma start_ids_from k ref e :
  Core.ids_from k e ->
  Core.ids_from k (fst (fst (Core.start ref e))) /\ Core.events_from k (snd (fst (Core.start ref e))).
Proof.
  intros H. pose proof H as [Hn Hc]. unfold Core.start.
  destruct (Core.lookup _ _) as [sq|]; [|split; [exact H | constructor]].
  assert (Hnew : forall old,
             Core.ids_from k
               {| Core.registry := Core.registry e;
                  Core.current :=
                    Some {| Core.run_id := Core.next_run e; Core.sequence := sq;
                            Core.current_step_index := 0; Core.state := Core.Running;
                            Core.started_at := Core.clock e; Core.elapsed_ms := 0%N |};
                  Core.past := old;
                  Core.clock := Core.clock e;
                  Core.next_run := S (Core.next_run e) |}).
  { intros old. split; simpl; [lia | intros r' [= <-]; simpl; lia]. }
  destruct (Core.current e) as [r|] eqn:E.
  - specialize (Hc r eq_refl). destruct (Core.isActive r); simpl.
    + split; [apply Hnew|]. repeat constructor. intros j [= <-]. exact Hc.
    + split; [apply Hnew | constructor].
  - simpl. split; [apply Hnew | constructor].
Qed.

Lemma run_op_ids_from k o e :
  Core.ids_from k e ->
  Core.ids_from k (fst (fst (Core.run_op o e))) /\ Core.events_from k (snd (fst (Core.run_op o e))).
Proof.
  intros H. destruct o as [ref | | | | dt | sq]; simpl.
  - now apply start_ids_from.
  - now apply transition_ids_from.
  - now apply transition_ids_from.
  - now apply transition_ids_from.
  - now apply tick_ids_from.
  - unfold Core.register. split; [exact H | constructor].
Qed.

Lemma run_ops_events_from k os e :
  Core.ids_from k e -> Core.events_from k (snd (Core.run_ops os e)).
Proof.
  revert e. induction os as [|o os IH]; intros e H; [constructor|].
  simpl. destruct (run_op_ids_from k o e H) as [H1 H2].
  destruct (Core.run_op o e) as [[e1 ev1] out]. simpl in *.
  specialize (IH e1 H1). destruct (Core.run_ops os e1) as [e2 ev2]. simpl in *.
  apply Forall_app. split; assumption.
Qed.

Lemma run_op_ids_fresh o e : Core.ids_fresh e -> Core.ids_fresh (fst (fst (Core.run_op o e))).
Proof.
  intros H. destruct o as [ref | | | | dt | sq]; simpl.
  - unfold Core.start. destruct (Core.lookup _ _); [|exact H].
    destruct (Core.current e) as [r|]; [destruct (Core.isActive r)|];
      intros r' [= <-]; simpl; lia.
  - unfold Core.stop, Core.transition. destruct (Core.current e) as [r|] eqn:E; [|exact H].
    destruct (match Core.state r with Core.Running | Core.Paused => true | _ => false end);
      [|exact H].
    intros r' [= <-]. simpl. now apply H.
  - unfold Core.pause, Core.transition. destruct (Core.current e) as [r|] eqn:E; [|exact H].
    destruct (match Core.state r with Core.Running => true | _ => false end); [|exact H].
    intros r' [= <-]. simpl. now apply H.
  - unfold Core.resume, Core.transition. destruct (Core.current e) as [r|] eqn:E; [|exact H].
    destruct (match Core.state r with Core.Paused => true | _ => false end); [|exact H].
    intros r' [= <-]. simpl. now apply H.
  - unfold Core.tick. destruct (Core.current e) as [r|] eqn:E.
    + destruct (Core.state r); simpl; intros r' [= <-]; simpl; now apply H.
    + simpl. discriminate.
  - unfold Core.register. intros r'. simpl. apply H.
Qed.

Lemma reachable_ids_fresh e : Core.reachable e -> Core.ids_fresh e.
Proof.
  induction 1 as [builtin | o e _ IH]; [discriminate | now apply run_op_ids_fresh].
Qed.

Lemma no_events_of_run (a : nat) (evs : list Core.Event) :
  Forall (fun ev => Core.event_run ev <> Some a) evs ->
  List.filter (Core.isHalOf a) evs = [] /\ List.filter (Core.isSupersededOf a) evs = [].
Proof.
  induction 1 as [|ev evs Hne _ [IH1 IH2]]; [split; reflexivity|]. simpl.
  destruct ev as [[j|] c | j [t n|]]; simpl in *; try (split; assumption).
  - destruct (Nat.eqb_spec j a); [congruence | split; assumption].
  - destruct (Nat.eqb_spec j a); [congruence | split; assumption].
Qed.

Lemma run_op_past (o : Core.Op) (e : Core.Engine) :
  exists more, Core.past (fst (fst (Core.run_op o e))) = (Core.past e ++ more)%list.
Proof.
  destruct o as [ref | | | | dt | sq]; simpl.
  - unfold Core.start. destruct (Core.lookup _ _); [|exists []; now rewrite app_nil_r].
    destruct (Core.current e) as [r|]; [destruct (Core.isActive r)|]; simpl; eauto.
  - unfold Core.stop, Core.transition. destruct (Core.current e) as [r|];
      [destruct (match Core.state r with Core.Running | Core.Paused => true | _ => false end)|];
      exists []; now rewrite app_nil_r.
  - unfold Core.pause, Core.transition. destruct (Core.current e) as [r|];
      [destruct (match Core.state r with Core.Running => true | _ => false end)|];
      exists []; now rewrite app_nil_r.
  - unfold Core.resume, Core.transition. destruct (Core.current e) as [r|];
      [destruct (match Core.state r with Core.Paused => true | _ => false end)|];
      exists []; now rewrite app_nil_r.
  - unfold Core.tick. destruct (Core.current e) as [r|]; [destruct (Core.state r)|];
      exists []; now rewrite app_nil_r.
  - exists []. simpl. now rewrite app_nil_r.
Qed.

Lemma run_ops_past (os : list Core.Op) (e : Core.Engine) :
  exists more, Core.past (fst (Core.run_ops os e)) = (Core.past e ++ more)%list.
Proof.
  revert e. induction os as [|o os IH]; intros e; [exists []; simpl; now rewrite app_nil_r|].
  simpl. destruct (run_op_past o e) as [m1 H1].
  destruct (Core.run_op o e) as [[e1 ev1] out]. simpl in H1.
  destruct (IH e1) as [m2 H2]. destruct (Core.run_ops os e1) as [e2 ev2]. simpl in *.
  exists (m1 ++ m2)%list. now rewrite H2, H1, app_assoc.
Qed.

Lemma run_ops_ids_from k os e :
  Core.ids_from k e -> Core.ids_from k (fst (Core.run_ops os e)).
Proof.
  revert e. induction os as [|o os IH]; intros e H; [exact H|].
  simpl. destruct (run_op_ids_from k o e H) as [H1 _].
  destruct (Core.run_op o e) as [[e1 ev1] out]. simpl in *.
  specialize (IH e1 H1). now destruct (Core.run_ops os e1).
Qed.

(** C6. When sequence B is started while the run of A is Running (in an
    engine that operations have led to), the start stops A's run: the run is
    no longer the current one, and the record that the engine keeps of it,
    the last of the past runs, is A's run in the state Stopped.  The start
    emits exactly one event, the notification Superseded for A; the new run
    is that of B, at step 0, Running, with elapsed time 0.  Whatever
    operations follow (starts, stops, pauses, resumes, ticks,
    registrations), no HAL call and no further notification belongs to A's
    run, so that the whole history has exactly one Superseded notification
    for A; A's run is never the current run again, and its record stays
    where it is, Stopped. *)
Theorem supersession_last_start_wins
    (e : Core.Engine) (a : Core.SequenceRun) (refB : Core.SequenceRef)
    (seqB : Core.Sequence) (os : list Core.Op) :
  Core.reachable e ->
  Core.current e = Some a ->
  Core.state a = Core.Running ->
  Core.lookup (Core.registry e) refB = Some seqB ->
  let e1 := fst (fst (Core.start refB e)) in
  let e2 := fst (Core.run_ops os e1) in
  let later := snd (Core.run_ops os e1) in
  Core.start refB e =
    (e1, [Core.Notify (Core.run_id a) Core.Superseded], Core.Success) /\
  Core.current e1 =
    Some {| Core.run_id := Core.next_run e; Core.sequence := seqB;
            Core.current_step_index := 0; Core.state := Core.Running;
            Core.started_at := Core.clock e; Core.elapsed_ms := 0%N |} /\
  Core.past e1 = (Core.past e ++ [Core.withState Core.Stopped a])%list /\
  (exists a',
     last (Core.past e1) = Some a' /\
     Core.state a' = Core.Stopped /\
     Core.run_id a' = Core.run_id a /\
     Core.sequence a' = Core.sequence a /\
     Core.current_step_index a' = Core.current_step_index a /\
     Core.elapsed_ms a' = Core.elapsed_ms a /\
     Core.past e2 !! length (Core.past e) = Some a') /\
  Core.run_id a <> Core.next_run e /\
  (forall r, Core.current e2 = Some r -> Core.run_id r <> Core.run_id a) /\
  Forall (fun ev => Core.event_run ev <> Some (Core.run_id a)) later /\
  List.filter (Core.isHalOf (Core.run_id a)) later = [] /\
  length (List.filter (Core.isSupersededOf (Core.run_id a))
            ([Core.Notify (Core.run_id a) Core.Superseded] ++ later)%list) = 1%nat.
Proof.
  intros Hr Hcur Hrun Hlk. cbn zeta.
  pose proof (reachable_ids_fresh e Hr a Hcur) as Hlt.
  assert (Hstart : Core.start refB e =
    ({| Core.registry := Core.registry e;
        Core.current := Some {| Core.run_id := Core.next_run e; Core.sequence := seqB;
                                Core.current_step_index := 0; Core.state := Core.Running;
                                Core.started_at := Core.clock e; Core.elapsed_ms := 0%N |};
        Core.past := (Core.past e ++ [Core.withState Core.Stopped a])%list;
        Core.clock := Core.clock e;
        Core.next_run := S (Core.next_run e) |},
     [Core.Notify (Core.run_id a) Core.Superseded], Core.Success)).
  { unfold Core.start. rewrite Hlk, Hcur. unfold Core.isActive. rewrite Hrun. reflexivity. }
  rewrite Hstart. simpl fst.
  set (e1 := Core.mkEngine _ _ _ _ _).
  assert (Hfrom : Core.ids_from (Core.next_run e) e1).
  { split; [simpl; lia | intros r [= <-]; simpl; lia]. }
  pose proof (run_ops_events_from _ os e1 Hfrom) as Hev.
  assert (Hnone : Forall (fun ev => Core.event_run ev <> Some (Core.run_id a))
                    (snd (Core.run_ops os e1))).
  { eapply Forall_impl; [exact Hev|]. intros ev Hk Heq. specialize (Hk _ Heq). lia. }
  split; [reflexivity|]. split; [reflexivity|]. split; [reflexivity|].
  split.
  { exists (Core.withState Core.Stopped a).
    split; [apply last_snoc|]. do 5 (split; [reflexivity|]).
    destruct (run_ops_past os e1) as [more ->]. cbn [Core.past e1].
    rewrite <- app_assoc. rewrite lookup_app_r by lia.
    now rewrite Nat.sub_diag. }
  split; [lia|].
  split.
  { intros r Hr2. pose proof (run_ops_ids_from _ os e1 Hfrom) as [_ Hc].
    specialize (Hc r Hr2). lia. }
  split; [exact Hnone|].
  destruct (no_events_of_run (Core.run_id a) _ Hnone) as [Hhal Hsup].
  split; [exact Hhal|].
  simpl. rewrite Nat.eqb_refl. simpl. now rewrite Hsup.
Qed.

Lemma supersession_last_start_wins_witness :
  let e := fst (fst (Core.run_op (Core.Tick 250)
             (fst (fst (Core.run_op (Core.Start (Core.ById 1)) (Core.init Core.catalogue)))))) in
  let a := {| Core.run_id := 0; Core.sequence := Core.of_simulator 1 true screamSequence;
              Core.current_step_index := 1; Core.state := Core.Running;
              Core.started_at := 0%N; Core.elapsed_ms := 250%N |} in
  Core.current e = Some a /\
  Core.state a = Core.Running /\
  Core.lookup (Core.registry e) (Core.ById 2) = Some (Core.of_simulator 2 true waveSequence) /\
  Core.start (Core.ById 2) e =
    (fst (fst (Core.start (Core.ById 2) e)),
     [Core.Notify 0 Core.Superseded], Core.Success).
Proof.
  cbn zeta. split; [reflexivity|]. split; [reflexivity|]. split; [reflexivity|].
  refine (proj1 (supersession_last_start_wins _
                   {| Core.run_id := 0; Core.sequence := Core.of_simulator 1 true screamSequence;
                      Core.current_step_index := 1; Core.state := Core.Running;
                      Core.started_at := 0%N; Core.elapsed_ms := 250%N |}
                   (Core.ById 2) (Core.of_simulator 2 true waveSequence)
                   [Core.Tick 300; Core.Tick 400] _ _ _ _)).
  - apply Core.reachable_op, Core.reachable_op, Core.reachable_init.
  - reflexivity.
  - reflexivity.
  - reflexivity.
Defined.

(** ** The end-to-end scenario *)

Section Scenario.

Variable hal : Core.HalCall -> option string.
Variable panel_channels : list nat.
Variable stop_call hold_call : nat -> Core.HalCall.

Let process_frame := Core.process_frame hal panel_channels stop_call hold_call.
Let process_frames := Core.process_frames hal panel_channels stop_call hold_call.

Lemma process_frame_OP01 (e : Core.Engine) :
  process_frame ":OP01" e =
  (e, [Core.Hal None (Core.ServosSetPosition 1 Core.OPEN)],
   Core.outcome_of hal [Core.ServosSetPosition 1 Core.OPEN]).
Proof. reflexivity. Qed.

Lemma process_frame_CL01 (e : Core.Engine) :
  process_frame ":CL01" e =
  (e, [Core.Hal None (Core.ServosSetPosition 1 Core.CLOSED)],
   Core.outcome_of hal [Core.ServosSetPosition 1 Core.CLOSED]).
Proof. reflexivity. Qed.

Lemma process_frame_SE02 (e : Core.Engine) :
  process_frame ":SE02" e = Core.start (Core.ById 2) e.
Proof. reflexivity. Qed.

(** The calls of a step that gives the twelve channels the position 2000. *)
Lemma close_twelve_calls (ch : nat) (pulse : Z) :
  In (Core.ServosSetPosition ch pulse) (Core.close_channels (seq 1 12))
  <-> (1 <= ch <= 12)%nat /\ pulse = Core.CLOSED.
Proof.
  unfold Core.close_channels. split.
  - intros H. apply list_elem_of_In, list_elem_of_fmap in H as (c & [= -> ->] & Hc).
    apply list_elem_of_In, in_seq in Hc. split; [lia | reflexivity].
  - intros [Hch ->]. apply list_elem_of_In, list_elem_of_fmap. exists ch.
    split; [reflexivity|]. apply list_elem_of_In, in_seq. lia.
Qed.

(** C5, amended.  From a fresh engine whose catalogue has the Wave sequence
    (the steps of [loadWaveSequence]) under id 2, the frames ":OP01",
    ":CL01", ":SE02" in this order issue servos.set_position(1, OPEN), then
    servos.set_position(1, CLOSED), and nothing else, and leave the run of
    sequence 2 started: Running at step 0.  The first step of Wave is
    set_position(ch, CLOSED) for the channels 1 to 12, the channels its
    steps have positions for, and for no other channel; the tick that
    reaches its offset issues these calls first.  So the step sets every
    panel channel of the dispatcher exactly when these all lie in 1..12. *)
Theorem end_to_end_open_close_wave (builtin : list Core.Sequence) (wave : Core.Sequence) :
  Core.lookup builtin (Core.ById 2) = Some wave ->
  Core.actuator_positions <$> Core.steps wave = Core.wave_positions ->
  let e3 :=
    {| Core.registry := builtin;
       Core.current := Some {| Core.run_id := 0; Core.sequence := wave;
                               Core.current_step_index := 0; Core.state := Core.Running;
                               Core.started_at := 0%N; Core.elapsed_ms := 0%N |};
       Core.past := []; Core.clock := 0%N; Core.next_run := 1 |} in
  fst (process_frames [":OP01"; ":CL01"; ":SE02"] (Core.init builtin)) =
    (e3, [Core.Hal None (Core.ServosSetPosition 1 Core.OPEN);
          Core.Hal None (Core.ServosSetPosition 1 Core.CLOSED)]) /\
  exists first rest,
    Core.steps wave = first :: rest /\
    Core.step_calls first = Core.close_channels (seq 1 12) /\
    (forall ch pulse,
        In (Core.ServosSetPosition ch pulse) (Core.step_calls first)
        <-> (1 <= ch <= 12)%nat /\ pulse = Core.CLOSED) /\
    (Forall (fun ch => In (Core.ServosSetPosition ch Core.CLOSED) (Core.step_calls first))
            panel_channels
     <-> Forall (fun ch => (1 <= ch <= 12)%nat) panel_channels) /\
    forall dt, (Core.offset_ms first <= dt)%N ->
      exists more,
        snd (fst (Core.tick dt e3))
        = ((Core.Hal (Some 0%nat) <$> Core.close_channels (seq 1 12)) ++ more)%list.
Proof.
  intros Hlk Hpos. cbn zeta. split.
  - unfold process_frames. cbn [Core.process_frames].
    fold process_frame. rewrite process_frame_OP01, process_frame_CL01, process_frame_SE02.
    unfold Core.start. cbn [Core.registry Core.init Core.current]. rewrite Hlk. reflexivity.
  - destruct (Core.steps wave) as [|first rest] eqn:Hsteps; [discriminate|].
    exists first, rest. split; [reflexivity|].
    assert (Hfirst : Core.step_calls first = Core.close_channels (seq 1 12)).
    { injection Hpos as Hp _. unfold Core.step_calls. rewrite Hp. reflexivity. }
    split; [exact Hfirst|]. rewrite Hfirst.
    split; [exact close_twelve_calls|].
    split.
    { split; intros H; (eapply Forall_impl; [exact H|]); intros ch Hch; cbn beta in *.
      - now apply close_twelve_calls in Hch.
      - apply close_twelve_calls. now split. }
    intros dt Hdt. unfold Core.tick. cbn [Core.current Core.state Core.sequence
      Core.current_step_index Core.elapsed_ms Core.run_id].
    rewrite Hsteps. cbn [drop Core.due]. rewrite N.add_0_l.
    replace (Core.offset_ms first <=? dt)%N with true by (symmetry; now apply N.leb_le).
    cbn [snd fst]. rewrite fmap_cons, concat_cons, fmap_app, Hfirst, <- app_assoc.
    eexists. reflexivity.
Qed.

End Scenario.

Lemma end_to_end_open_close_wave_witness :
  Core.lookup Core.catalogue (Core.ById 2) = Some (Core.of_simulator 2 true waveSequence) /\
  Core.actuator_positions <$> Core.steps (Core.of_simulator 2 true waveSequence)
    = Core.wave_positions /\
  snd (fst (Core.process_frames (fun _ => None) (seq 1 16) Core.ServosRelease Core.ServosRelease
              [":OP01"; ":CL01"; ":SE02"] (Core.init Core.catalogue))) =
    [Core.Hal None (Core.ServosSetPosition 1 Core.OPEN);
     Core.Hal None (Core.ServosSetPosition 1 Core.CLOSED)].
Proof.
  split; [reflexivity|]. split; [reflexivity|].
  refine (f_equal snd (proj1 (end_to_end_open_close_wave (fun _ => None) (seq 1 16)
            Core.ServosRelease Core.ServosRelease Core.catalogue
            (Core.of_simulator 2 true waveSequence) _ _))).
  - reflexivity.
  - reflexivity.
Defined.

(** C5, as stated, fails on the sixteen panel channels of the dome.  The
    frame ":CL00" addresses the channels 1 to 16, but the first step of the
    catalogue's Wave has no call for channel 13: the tick that plays it
    issues the twelve calls for the channels 1 to 12.  On the page, the
    same step leaves panel 13 of a dome with all panels open as it was. *)
Lemma wave_first_step_misses_panel_13 :
  let wave := Core.of_simulator 2 true waveSequence in
  let after_frames :=
    fst (fst (Core.process_frames (fun _ => None) (seq 1 16) Core.ServosRelease
                Core.ServosRelease [":OP01"; ":CL01"; ":SE02"] (Core.init Core.catalogue))) in
  Core.lookup Core.catalogue (Core.ById 2) = Some wave /\
  snd (fst (Core.process_frame (fun _ => None) (seq 1 16) Core.ServosRelease
              Core.ServosRelease ":CL00" (Core.init Core.catalogue)))
  = Core.Hal None <$> Core.close_channels (seq 1 16) /\
  exists first rest sfirst srest,
    Core.steps wave = first :: rest /\
    steps waveSequence = sfirst :: srest /\
    ~ Forall (fun ch => In (Core.ServosSetPosition ch Core.CLOSED) (Core.step_calls first))
             (seq 1 16) /\
    snd (fst (Core.tick 200 after_frames))
    = Core.Hal (Some 0%nat) <$> Core.close_channels (seq 1 12) /\
    updatePanelsFromSequence (servo_positions sfirst) (setAllPanels initializeDome "open")
      !! 12%nat
    = Some {| panelNumber := 13; className := "panel open"; background := "#4CAF50" |}.
Proof.
  cbn zeta. split; [reflexivity|]. split; [reflexivity|].
  eexists _, _, _, _. split; [reflexivity|]. split; [reflexivity|].
  split; [|split; reflexivity].
  intros H. rewrite Forall_forall in H.
  assert (H13 : 13%nat ∈ seq 1 16) by (apply list_elem_of_In, in_seq; lia).
  specialize (H 13%nat H13).
  change (Core.step_calls _) with (Core.close_channels (seq 1 12)) in H.
  apply close_twelve_calls in H. lia.
Qed.

(** ** Integrity of the configuration *)

Import ConfigStore.

(** A persisted configuration whose checksum agrees is taken as it is. *)
Lemma load_checksum_match (defaults : Configuration) (checksum : Configuration -> N)
    (st : Store) :
  checksum (fields (persisted st)) = stored_checksum (persisted st) ->
  load defaults checksum st =
  {| config := fields (persisted st); dirty := false;
     persisted := persisted st; logged := logged st |}.
Proof. intros H. unfold load. now rewrite H, N.eqb_refl. Qed.

(** C8. When the stored checksum differs from the checksum recomputed over
    the persisted fields, [load()] returns a store (it has no failure case)
    whose in-memory configuration is the compiled-in defaults, so that
    [get(slave_delay_ms)] is the default; a warning is logged and the store
    is dirty; the next [save] then writes the defaults with their checksum,
    which a later [load] accepts without a warning. *)
Theorem load_checksum_mismatch_falls_back
    (defaults : Configuration) (checksum : Configuration -> N) (st : Store) :
  checksum (fields (persisted st)) <> stored_checksum (persisted st) ->
  let st1 := load defaults checksum st in
  let st2 := save checksum st1 in
  config st1 = defaults /\
  get SlaveDelayMs st1 = slave_delay_ms defaults /\
  dirty st1 = true /\
  logged st1 = (logged st ++ [Warning Core.ConfigChecksumMismatch])%list /\
  persisted st1 = persisted st /\
  persisted st2 = {| fields := defaults; stored_checksum := checksum defaults |} /\
  dirty st2 = false /\
  load defaults checksum st2 =
    {| config := defaults; dirty := false; persisted := persisted st2; logged := logged st1 |}.
Proof.
  intros Hne. cbn zeta.
  assert (Hload : load defaults checksum st =
                  {| config := defaults; dirty := true; persisted := persisted st;
                     logged := (logged st ++ [Warning Core.ConfigChecksumMismatch])%list |}).
  { unfold load. destruct (N.eqb_spec (checksum (fields (persisted st)))
                                      (stored_checksum (persisted st))); [contradiction|].
    reflexivity. }
  rewrite Hload. repeat (split; [reflexivity|]).
  unfold save, write, load; simpl. now rewrite N.eqb_refl.
Qed.

Lemma load_checksum_mismatch_falls_back_witness :
  let defaults := mkConfiguration 0 1 false 50 SparkFun in
  let st := {| config := mkConfiguration 5 0 true 10 DFPlayer; dirty := false;
               persisted := {| fields := mkConfiguration 5 0 true 10 DFPlayer;
                               stored_checksum := 8 |};
               logged := [] |} in
  calc_crc (fields (persisted st)) <> stored_checksum (persisted st) /\
  get SlaveDelayMs (load defaults calc_crc st) = 50%N.
Proof.
  cbn zeta. split; [vm_compute; discriminate|].
  refine (proj1 (proj2 (load_checksum_mismatch_falls_back
                          (mkConfiguration 0 1 false 50 SparkFun) calc_crc _ _))).
  vm_compute. discriminate.
Defined.

(** On the page, the first step of Wave closes the twelve panels that the
    sequence has positions for, and leaves panels 13 to 16 as they were. *)
Lemma wave_first_step_on_dome (ps : list Panel) (first : Step) (rest : list Step) :
  length ps = 16%nat ->
  steps waveSequence = first :: rest ->
  updatePanelsFromSequence (servo_positions first) ps
  = (setAllPanels (take 12 ps) "closed" ++ drop 12 ps)%list.
Proof.
  intros Hlen [= <- _].
  do 17 (destruct ps as [|? ps]; try discriminate). reflexivity.
Qed.

(** ** The decoder of the specification and the simulator's reading *)

Lemma digit_inv (c : ascii) (x : nat) :
  Core.digit c = Some x -> (x < 10)%nat /\ c = ascii_of_nat (48 + x).
Proof.
  unfold Core.digit.
  destruct ((48 <=? nat_of_ascii c)%nat && (nat_of_ascii c <=? 57)%nat) eqn:E; [|discriminate].
  intros [= <-]. apply andb_true_iff in E as [H1 H2].
  apply Nat.leb_le in H1, H2. split; [lia|].
  replace (48 + (nat_of_ascii c - 48))%nat with (nat_of_ascii c) by lia.
  symmetry. apply ascii_nat_embedding.
Qed.

Lemma two_digits_inv (s : string) (n : nat) :
  Core.two_digits s = Some n -> (n < 100)%nat /\ s = Core.two_digit_string n.
Proof.
  unfold Core.two_digits. destruct s as [|a [|b [|? ?]]]; try discriminate.
  destruct (Core.digit a) as [x|] eqn:Ea; [|discriminate].
  destruct (Core.digit b) as [y|] eqn:Eb; [|discriminate].
  intros Hn. injection Hn as Hn. apply digit_inv in Ea as [Hx ->], Eb as [Hy ->].
  assert (Hdiv : (n / 10)%nat = x) by (symmetry; apply Nat.div_unique with y; lia).
  assert (Hmod : (n mod 10)%nat = y) by (symmetry; apply Nat.mod_unique with x; lia).
  split; [lia|]. unfold Core.two_digit_string. now rewrite Hdiv, Hmod.
Qed.

Lemma mnemonic_inv (s : string) (op : Core.Opcode) :
  Core.mnemonic s = Some op -> s = Core.mnemonic_string op.
Proof.
  unfold Core.mnemonic.
  repeat match goal with
         | |- context [String.eqb s ?m] => destruct (String.eqb_spec s m); [intros [= <-]; assumption|]
         end.
  discriminate.
Qed.

Lemma substring_split (body m : string) :
  String.length m = 2%nat -> String.substring 0 2 body = m ->
  body = m ++ JS.substring 2 body.
Proof.
  destruct m as [|m1 [|m2 [|? ?]]]; try discriminate. intros _.
  destruct body as [|a [|b rest]]; cbn; try discriminate.
  now intros [= -> ->].
Qed.

(** The round trip holds of the decoder of the specification: a Panel
    frame it accepts is the frame of the decoded Command. *)
Lemma strict_round_trip (frame : string) (cmd : Core.Command) :
  Core.decode frame = inr cmd -> Core.family cmd = Core.Panel ->
  Core.encode cmd = Some frame /\ Core.raw cmd = frame.
Proof.
  unfold Core.decode. destruct frame as [|start body]; [discriminate|].
  destruct (Core.classify start) as [[]|] eqn:Ec; try discriminate;
    try (intros [= <-]; discriminate).
  destruct (Core.mnemonic _) as [op|] eqn:Em; [|discriminate].
  destruct (Core.decodePanelTarget op _) as [err|t] eqn:Et; [discriminate|].
  intros [= <-] _. split; [|reflexivity].
  assert (Hstart : start = ":"%char).
  { unfold Core.classify in Ec.
    repeat match type of Ec with
           | context [Ascii.eqb start ?c] => destruct (Ascii.eqb_spec start c); [try discriminate; assumption|]
           end.
    discriminate. }
  subst start. apply mnemonic_inv in Em.
  pose proof (substring_split body (Core.mnemonic_string op)) as Hbody.
  rewrite (Hbody ltac:(now destruct op) Em) at 2.
  unfold Core.encode. cbn [Core.family Core.opcode Core.target]. do 2 f_equal.
  change (":" ++ ?x) with (String ":" x). f_equal. f_equal.
  unfold Core.decodePanelTarget in Et.
  destruct (Core.two_digits (JS.substring 2 body)) as [n|] eqn:E2.
  - apply two_digits_inv in E2 as [_ E2].
    destruct op; try (injection Et as <-; now rewrite E2);
      (destruct n as [|n']; [injection Et as <-; now rewrite E2|];
       destruct (S n' <=? 16)%nat; [injection Et as <-; now rewrite E2 | discriminate]).
  - destruct op; try discriminate.
    destruct (negb _ && _); [now injection Et as <- | discriminate].
Qed.

Lemma two_digit_string_fmt (n : nat) :
  (n <= 16)%nat -> Core.two_digit_string n = Py.fmt_02d (Z.of_nat n).
Proof.
  intros Hn. do 17 (destruct n as [|n]; [reflexivity|]). lia.
Qed.

(** The simulator reads every OP or CL frame that the decoder of the
    specification accepts, and reads the same command off it. *)
Lemma simulator_reads_strict_frames (frame : string) (cmd : Core.Command) (c : Command) :
  Core.decode frame = inr cmd ->
  Core.to_simulator cmd = Some c ->
  decode frame = Some c /\ encode c = frame.
Proof.
  intros Hdec Hc.
  assert (Hfam : Core.family cmd = Core.Panel).
  { unfold Core.decode in Hdec. destruct frame as [|start body]; [discriminate|].
    destruct (Core.classify start) as [[]|]; try discriminate;
      try (injection Hdec as <-; discriminate Hc).
    destruct (Core.mnemonic _); [|discriminate].
    destruct (Core.decodePanelTarget _ _); [discriminate|]. now injection Hdec as <-. }
  destruct (strict_round_trip frame cmd Hdec Hfam) as [Henc _].
  assert (Hrange : forall n, Core.target cmd = Some (Core.Actuator n) ->
                             Core.opcode cmd <> Some Core.SE -> (1 <= n <= 16)%nat).
  { intros n Ht Hop. unfold Core.decode in Hdec. destruct frame as [|start body]; [discriminate|].
    destruct (Core.classify start) as [[]|]; try discriminate;
      try (injection Hdec as <-; discriminate Ht).
    destruct (Core.mnemonic _) as [op|]; [|discriminate].
    destruct (Core.decodePanelTarget op _) as [err|t] eqn:Et; [discriminate|].
    injection Hdec as <-. cbn in Ht, Hop. injection Ht as ->.
    unfold Core.decodePanelTarget in Et.
    destruct op; try congruence;
      (destruct (Core.two_digits _) as [[|m]|]; try discriminate;
       destruct (S m <=? 16)%nat eqn:E; try discriminate;
       apply Nat.leb_le in E; injection Et as <-; lia). }
  unfold Core.to_simulator in Hc. unfold Core.encode in Henc. rewrite Hfam in Henc.
  destruct (Core.opcode cmd) as [[]|]; try discriminate;
    destruct (Core.target cmd) as [[|n|ref]|]; try discriminate;
    injection Hc as <-; injection Henc as <-;
    try (split; reflexivity);
    (assert (Hn : (1 <= n <= 16)%nat) by (apply Hrange; [reflexivity | discriminate]);
     rewrite two_digit_string_fmt by lia;
     split; [|reflexivity]).
  - apply (decode_encode_panel OP). lia.
  - apply (decode_encode_panel CL). lia.
Qed.

(** ** The positions that the engine of the specification plays *)

Lemma lookup_well_formed (reg : list Core.Sequence) (ref : Core.SequenceRef)
    (sq : Core.Sequence) :
  Forall (fun sq => Core.well_formed sq = true) reg ->
  Core.lookup reg ref = Some sq -> Core.well_formed sq = true.
Proof.
  intros Hreg Hlk. unfold Core.lookup in Hlk. apply List.find_some in Hlk as [Hin _].
  rewrite Forall_forall in Hreg. apply Hreg. now apply list_elem_of_In.
Qed.

Lemma run_op_well_formed (o : Core.Op) (e : Core.Engine) :
  match o with Core.Register sq => Core.well_formed sq = true | _ => True end ->
  Core.all_well_formed e -> Core.all_well_formed (fst (fst (Core.run_op o e))).
Proof.
  intros Ho H. pose proof H as [Hreg Hcur].
  destruct o as [ref | | | | dt | sq]; simpl.
  - unfold Core.start. destruct (Core.lookup _ _) as [sq|] eqn:Hlk; [|exact H].
    pose proof (lookup_well_formed _ _ _ Hreg Hlk) as Hsq.
    destruct (Core.current e) as [r|]; [destruct (Core.isActive r)|];
      (split; [exact Hreg | intros r' [= <-]; exact Hsq]).
  - unfold Core.stop, Core.transition. destruct (Core.current e) as [r|] eqn:E; [|exact H].
    destruct (match Core.state r with Core.Running | Core.Paused => true | _ => false end);
      [|exact H].
    split; [exact Hreg | intros r' [= <-]; exact (Hcur r eq_refl)].
  - unfold Core.pause, Core.transition. destruct (Core.current e) as [r|] eqn:E; [|exact H].
    destruct (match Core.state r with Core.Running => true | _ => false end); [|exact H].
    split; [exact Hreg | intros r' [= <-]; exact (Hcur r eq_refl)].
  - unfold Core.resume, Core.transition. destruct (Core.current e) as [r|] eqn:E; [|exact H].
    destruct (match Core.state r with Core.Paused => true | _ => false end); [|exact H].
    split; [exact Hreg | intros r' [= <-]; exact (Hcur r eq_refl)].
  - unfold Core.tick. destruct (Core.current e) as [r|] eqn:E.
    + destruct (Core.state r); (split; [exact Hreg | intros r' [= <-]; exact (Hcur r eq_refl)]).
    + split; [exact Hreg | discriminate].
  - unfold Core.register. split; [|exact Hcur]. simpl.
    apply Forall_app. split; [exact Hreg|]. now constructor.
Qed.

(** From the catalogue of the two sequences of the sources, when every
    sequence that is registered keeps the invariants of its steps, whatever
    is started, the positions of the sequence being played are in the pulse
    range or sentinels. *)
Lemma engine_plays_valid_positions (os : list Core.Op) (r : Core.SequenceRun)
    (s : Core.SequenceStep) (a : nat) (v : Z) :
  Forall (fun sq => Core.well_formed sq = true) (Core.registered os) ->
  Core.current (fst (Core.run_ops os (Core.init Core.catalogue))) = Some r ->
  s ∈ Core.steps (Core.sequence r) ->
  (a, v) ∈ Core.actuator_positions s ->
  position_ok v.
Proof.
  assert (Hall : forall os e,
             Forall (fun sq => Core.well_formed sq = true) (Core.registered os) ->
             Core.all_well_formed e ->
             Core.all_well_formed (fst (Core.run_ops os e))).
  { clear. induction os as [|o os IH]; intros e Hos He; [exact He|].
    assert (Ho : match o with Core.Register sq => Core.well_formed sq = true | _ => True end
                 /\ Forall (fun sq => Core.well_formed sq = true) (Core.registered os)).
    { destruct o; try (split; [exact I | exact Hos]).
      unfold Core.registered in Hos. cbn [omap list_omap] in Hos.
      now apply Forall_cons in Hos. }
    destruct Ho as [Ho Hos'].
    simpl. pose proof (run_op_well_formed o e Ho He) as H1.
    destruct (Core.run_op o e) as [[e1 ev1] out]. simpl in H1.
    specialize (IH e1 Hos' H1). now destruct (Core.run_ops os e1). }
  intros Hos Hcur Hs Hv.
  assert (Hinit : Core.all_well_formed (Core.init Core.catalogue)).
  { split; [repeat constructor | discriminate]. }
  destruct (Hall os _ Hos Hinit) as [_ Hr]. specialize (Hr r Hcur).
  unfold Core.well_formed in Hr. apply andb_true_iff in Hr as [Hr _].
  rewrite forallb_forall in Hr. apply list_elem_of_In in Hs. specialize (Hr s Hs).
  unfold Core.valid_step in Hr. rewrite forallb_forall in Hr.
  apply list_elem_of_In in Hv. apply valid_position_ok. exact (Hr (a, v) Hv).
Qed.

(** * Further properties of the simulator page *)

Import PanelFacts.

(** ** The dome keeps its shape *)

Lemma setPanelState_ok (p : Panel) (op : Opcode) : panel_ok (setPanelState p (stateOf op)).
Proof. destruct op; [right | left]; split; auto. Qed.

Lemma setPanelState_number (p : Panel) (s : string) :
  panelNumber (setPanelState p s) = panelNumber p.
Proof. reflexivity. Qed.

Lemma dome_ok_insert (ps : list Panel) (i : nat) (p : Panel) (op : Opcode) :
  dome_ok ps -> ps !! i = Some p -> dome_ok (<[i := setPanelState p (stateOf op)]> ps).
Proof.
  intros [Hnum Hok] Hi. split.
  - rewrite list_fmap_insert, setPanelState_number, list_insert_id; [exact Hnum|].
    now rewrite list_lookup_fmap, Hi.
  - apply Forall_insert; [exact Hok | apply setPanelState_ok].
Qed.

Lemma dome_ok_setAll (ps : list Panel) (op : Opcode) :
  dome_ok ps -> dome_ok (setAllPanels ps (stateOf op)).
Proof.
  intros [Hnum Hok]. unfold setAllPanels. split.
  - rewrite <- list_fmap_compose. exact Hnum.
  - apply Forall_fmap, Forall_true. intros p. apply setPanelState_ok.
Qed.

Lemma dome_ok_length (ps : list Panel) : dome_ok ps -> length ps = 16%nat.
Proof. intros [Hnum _]. apply (f_equal length) in Hnum. now rewrite length_fmap in Hnum. Qed.

Lemma dome_ok_applyCommand (c : Command) (ps ps' : list Panel) :
  dome_ok ps -> applyCommand c ps = Some ps' -> dome_ok ps'.
Proof.
  intros Hd. unfold applyCommand, setOnePanel. destruct (target c) as [|n].
  - intros [= <-]. now apply dome_ok_setAll.
  - destruct (ps !! Z.to_nat (n - 1)) as [p|] eqn:E; [|discriminate].
    intros [= <-]. now apply dome_ok_insert.
Qed.

Lemma dome_ok_command (command : string) (ps ps' : list Panel) :
  dome_ok ps -> updatePanelsFromCommand command ps = Some ps' -> dome_ok ps'.
Proof.
  intros Hd. rewrite updatePanelsFromCommand_decode.
  destruct (decode command) as [c|]; [now apply dome_ok_applyCommand | now intros [= <-]].
Qed.

Lemma dome_ok_toggle (ps ps' : list Panel) (n : nat) :
  dome_ok ps -> togglePanel ps n = Some ps' -> dome_ok ps'.
Proof.
  intros Hd. unfold togglePanel. destruct (n =? 0)%nat; [discriminate|].
  destruct (ps !! (n - 1)%nat) as [p|] eqn:E; [|discriminate].
  intros [= <-]. destruct (classListContains _ _).
  - now apply (dome_ok_insert ps _ p CL).
  - now apply (dome_ok_insert ps _ p OP).
Qed.

Lemma dome_ok_sequence (positions : list Z) (index : nat) (ps : list Panel) :
  dome_ok ps -> dome_ok (updatePanelsFromIndex index positions ps).
Proof.
  revert index ps. induction positions as [|position rest IH]; intros index ps Hd; [exact Hd|].
  cbn [updatePanelsFromIndex]. apply IH.
  destruct (ps !! index) as [p|] eqn:E; [|exact Hd].
  destruct (position =? 1000); [now apply (dome_ok_insert ps _ p OP)|].
  destruct (position =? 2000); [now apply (dome_ok_insert ps _ p CL) | exact Hd].
Qed.

Lemma dome_ok_updateSequenceStatus (k : Z) (st : State) :
  dome_ok (panels st) -> dome_ok (panels (updateSequenceStatus k st)).
Proof.
  intros Hd. unfold updateSequenceStatus. destruct (currentSequence st); [|exact Hd].
  destruct (if 0 <=? k then _ else _); [|exact Hd].
  now apply dome_ok_sequence.
Qed.

Lemma dome_ok_handle (e : Event) (st : State) :
  dome_ok (panels st) -> dome_ok (panels (handle e st)).
Proof.
  intros Hd. destruct e as [now input r | now r | now r | n | k | now m | ]; simpl.
  - unfold sendCommand. destruct (String.eqb _ ""); [exact Hd|].
    destruct r as [result | msg]; [|exact Hd].
    destruct (cr_success result); [|exact Hd].
    cbn [panels log]. destruct (updatePanelsFromCommand _ _) as [ps|] eqn:E; [|exact Hd].
    now apply (dome_ok_command _ _ _ Hd E).
  - unfold loadWaveSequence, loadSequence. destruct r as [result | msg]; [|exact Hd].
    destruct (sr_success result); exact Hd.
  - unfold loadScreamSequence, loadSequence. destruct r as [result | msg]; [|exact Hd].
    destruct (sr_success result); exact Hd.
  - destruct (togglePanel _ _) as [ps|] eqn:E; [|exact Hd]. now apply (dome_ok_toggle _ _ _ Hd E).
  - now apply dome_ok_updateSequenceStatus.
  - exact Hd.
  - exact Hd.
Qed.

(** [refreshLog] writes the log only. *)
Lemma refreshLog_frame (now : string) (r : Fetch Page.CommandsJson) (pg : Page.Page) :
  panels (Page.sim (Page.refreshLog now r pg)) = panels (Page.sim pg) /\
  currentSequence (Page.sim (Page.refreshLog now r pg)) = currentSequence (Page.sim pg) /\
  commandCount (Page.sim (Page.refreshLog now r pg)) = commandCount (Page.sim pg) /\
  Page.buttons (Page.refreshLog now r pg) = Page.buttons pg /\
  Page.connection (Page.refreshLog now r pg) = Page.connection pg.
Proof.
  unfold Page.refreshLog. destruct r as [[items | msg] | msg]; [|now repeat split..].
  destruct (Page.appendCommands items []) as [nodes | [nodes msg]]; now repeat split.
Qed.

Lemma page_loadSequence_sim now sq r pg :
  Page.sim (Page.loadSequence now sq r pg) = loadSequence now sq r (Page.sim pg).
Proof.
  unfold Page.loadSequence. destruct r as [result|msg]; [|reflexivity].
  destruct (sr_success result); reflexivity.
Qed.

Lemma dome_ok_page_handle (e : Page.Event) (pg : Page.Page) :
  dome_ok (panels (Page.sim pg)) -> dome_ok (panels (Page.sim (Page.handle e pg))).
Proof.
  intros Hd. destruct e as [e | now | now | now m | now r | now r | now r | now r | now r].
  - destruct e; try exact (dome_ok_handle _ _ Hd);
      cbn [Page.handle]; rewrite page_loadSequence_sim;
      [exact (dome_ok_handle (ClickLoadWave _ _) _ Hd)
      | exact (dome_ok_handle (ClickLoadScream _ _) _ Hd)].
  - exact Hd.
  - exact Hd.
  - exact Hd.
  - cbn. unfold Page.startSequence. destruct r as [res|msg]; [destruct (Page.success res)|]; exact Hd.
  - cbn. unfold Page.pauseSequence. destruct r as [res|msg]; [destruct (Page.success res)|]; exact Hd.
  - cbn. unfold Page.resumeSequence. destruct r as [res|msg]; [destruct (Page.success res)|]; exact Hd.
  - cbn [Page.handle]. unfold Page.stopSequence.
    destruct r as [res|msg]; [destruct (Page.success res)|]; try exact Hd.
    cbn [Page.sim Page.withSim]. now apply dome_ok_updateSequenceStatus.
  - cbn [Page.handle]. now rewrite (proj1 (refreshLog_frame now r pg)).
Qed.

Lemma dome_ok_initial : dome_ok initializeDome.
Proof.
  split; [reflexivity|]. unfold initializeDome. apply Forall_fmap, Forall_true.
  intros i. left. split; [reflexivity | now left].
Qed.

Lemma dome_ok_page_run (es : list Page.Event) (pg : Page.Page) :
  dome_ok (panels (Page.sim pg)) -> dome_ok (panels (Page.sim (Page.run es pg))).
Proof.
  revert pg. induction es as [|e es IH]; intros pg Hd; [exact Hd|].
  cbn [Page.run]. apply IH. now apply dome_ok_page_handle.
Qed.

(** X1. Whatever happens to the page after its constructor (commands sent,
    panels clicked, sequences loaded, started, stopped or reported by the
    socket, log cleared or refreshed), the panel array holds the sixteen
    panels in the order of their numbers 1 to 16, and each panel is shown
    either closed (with the colour #333, or none if never set) or open with
    the colour #4CAF50. *)
Theorem dome_shape_is_invariant (es : list Page.Event) (nodes : list Node)
    (b : Page.Buttons) (dot text : string) :
  let ps := panels (Page.sim (Page.run es (Page.construct nodes b dot text))) in
  panelNumber <$> ps = seq 1 16 /\
  length ps = 16%nat /\
  Forall (fun p =>
            (className p = "panel closed" /\ (background p = "" \/ background p = "#333"))
            \/ (className p = "panel open" /\ background p = "#4CAF50")) ps.
Proof.
  cbn zeta.
  pose proof (dome_ok_page_run es (Page.construct nodes b dot text) dome_ok_initial) as Hd.
  split; [exact (proj1 Hd)|]. split; [exact (dome_ok_length _ Hd) | exact (proj2 Hd)].
Qed.

(** X2. In every state of the page, no command finds its panel missing:
    [updatePanelsFromCommand] returns for every command string, and
    [togglePanel] for every panel number from 1 to 16, without the TypeError
    of a missing array element. *)
Theorem page_updates_never_throw (es : list Page.Event) (nodes : list Node)
    (b : Page.Buttons) (dot text : string) (command : string) (n : nat) :
  (1 <= n <= 16)%nat ->
  let ps := panels (Page.sim (Page.run es (Page.construct nodes b dot text))) in
  (exists ps', updatePanelsFromCommand command ps = Some ps') /\
  (exists ps', togglePanel ps n = Some ps').
Proof.
  intros Hn. cbn zeta.
  pose proof (dome_ok_page_run es (Page.construct nodes b dot text) dome_ok_initial) as Hd.
  pose proof (dome_ok_length _ Hd) as Hlen.
  set (ps := panels _) in *. split.
  - rewrite updatePanelsFromCommand_decode.
    destruct (decode command) as [c|] eqn:E; [|eauto].
    destruct (decode_range command c E) as [Hall | (m & Hm & Hr)];
      unfold applyCommand; rewrite ?Hall, ?Hm; [eauto|].
    destruct (setOnePanel_lookup ps m (stateOf (opcode c)) Hlen Hr) as (p & _ & ->). eauto.
  - rewrite togglePanel_pos by lia. destruct (ps !! (n - 1)%nat) as [p|] eqn:E; [eauto|].
    apply lookup_ge_None in E. lia.
Qed.

Lemma page_updates_never_throw_witness :
  (1 <= 16 <= 16)%nat /\
  exists ps', togglePanel
    (panels (Page.sim (Page.run [Page.Sim (ClickPanel 3)] (Page.construct [] (Page.mkButtons false true true true) "" "")))) 16
    = Some ps'.
Proof.
  split; [lia|].
  refine (proj2 (page_updates_never_throw [Page.Sim (ClickPanel 3)] []
                   (Page.mkButtons false true true true) "" "" ":OP01" 16 _)).
  lia.
Defined.

(** ** Frames that change nothing *)






(** ** How panel commands compose *)

Lemma setPanelState_twice (p : Panel) (s : string) (op : Opcode) :
  setPanelState (setPanelState p s) (stateOf op) = setPanelState p (stateOf op).
Proof. destruct op; reflexivity. Qed.

Lemma setAllPanels_after_insert (ps : list Panel) (i : nat) (p : Panel) (s : string)
    (op : Opcode) :
  ps !! i = Some p ->
  setAllPanels (<[i := setPanelState p s]> ps) (stateOf op) = setAllPanels ps (stateOf op).
Proof.
  intros Hi. unfold setAllPanels. rewrite list_fmap_insert, setPanelState_twice.
  apply list_insert_id. now rewrite list_lookup_fmap, Hi.
Qed.

Lemma setAllPanels_twice (ps : list Panel) (s : string) (op : Opcode) :
  setAllPanels (setAllPanels ps s) (stateOf op) = setAllPanels ps (stateOf op).
Proof.
  unfold setAllPanels. rewrite <- list_fmap_compose. apply list_fmap_ext.
  intros i p _. apply setPanelState_twice.
Qed.

Lemma applyCommand_override (c1 c2 : Command) (ps ps1 : list Panel) :
  target c2 = All \/ target c2 = target c1 ->
  applyCommand c1 ps = Some ps1 ->
  applyCommand c2 ps1 = applyCommand c2 ps.
Proof.
  intros Ht H1. unfold applyCommand in *.
  destruct (target c1) as [|a] eqn:E1.
  - injection H1 as <-.
    assert (E2 : target c2 = All) by (destruct Ht; congruence). rewrite E2.
    now rewrite setAllPanels_twice.
  - unfold setOnePanel in H1.
    destruct (ps !! Z.to_nat (a - 1)) as [p|] eqn:Ea; [|discriminate].
    injection H1 as <-. destruct Ht as [E2 | E2]; rewrite E2.
    + now rewrite (setAllPanels_after_insert _ _ _ _ _ Ea).
    + unfold setOnePanel. rewrite Ea.
      rewrite list_lookup_insert_eq by (now apply lookup_lt_Some in Ea).
      now rewrite list_insert_insert_eq, setPanelState_twice.
Qed.

(** X4. The last command wins.  When a command for all panels, or for the
    panel that the command before addressed, follows a panel command, the
    panels end exactly as if the earlier command had not been given:
    ":OP03" then ":CL03" is ":CL03", and anything then ":CL00" is ":CL00". *)
Theorem later_command_overrides (f1 f2 : string) (c1 c2 : Command) (ps ps1 : list Panel) :
  decode f1 = Some c1 ->
  decode f2 = Some c2 ->
  target c2 = All \/ target c2 = target c1 ->
  updatePanelsFromCommand f1 ps = Some ps1 ->
  updatePanelsFromCommand f2 ps1 = updatePanelsFromCommand f2 ps.
Proof.
  intros H1 H2 Ht Hu. rewrite updatePanelsFromCommand_decode, H1 in Hu.
  rewrite !updatePanelsFromCommand_decode, H2.
  exact (applyCommand_override c1 c2 ps ps1 Ht Hu).
Qed.

Lemma later_command_overrides_witness :
  decode ":OP03" = Some (mkCommand OP (PanelN 3)) /\
  decode ":CL3" = Some (mkCommand CL (PanelN 3)) /\
  updatePanelsFromCommand ":CL3" (<[2%nat := mkPanel 3 "panel open" "#4CAF50"]> initializeDome)
  = updatePanelsFromCommand ":CL3" initializeDome.
Proof.
  split; [reflexivity|]. split; [reflexivity|].
  refine (later_command_overrides ":OP03" ":CL3" (mkCommand OP (PanelN 3))
            (mkCommand CL (PanelN 3)) initializeDome _ _ _ _ _).
  - reflexivity.
  - reflexivity.
  - right; reflexivity.
  - reflexivity.
Defined.

(** X5. Commands for two different panels commute: given in either order
    they leave the same panels (and fail together when the array is too
    short for one of them). *)
Theorem commands_on_distinct_panels_commute
    (f1 f2 : string) (c1 c2 : Command) (a b : Z) (ps : list Panel) :
  decode f1 = Some c1 ->
  decode f2 = Some c2 ->
  target c1 = PanelN a ->
  target c2 = PanelN b ->
  a <> b ->
  match updatePanelsFromCommand f1 ps with
  | Some ps1 => updatePanelsFromCommand f2 ps1
  | None => None
  end =
  match updatePanelsFromCommand f2 ps with
  | Some ps2 => updatePanelsFromCommand f1 ps2
  | None => None
  end.
Proof.
  intros H1 H2 Ha Hb Hab.
  destruct (decode_range f1 c1 H1) as [E | (a' & Ea' & Hra)]; [congruence|].
  destruct (decode_range f2 c2 H2) as [E | (b' & Eb' & Hrb)]; [congruence|].
  assert (a' = a) by congruence. assert (b' = b) by congruence. subst a' b'.
  assert (Hij : Z.to_nat (a - 1) <> Z.to_nat (b - 1)) by lia.
  rewrite !updatePanelsFromCommand_decode, H1, H2.
  unfold applyCommand, setOnePanel. rewrite Ha, Hb.
  destruct (ps !! Z.to_nat (a - 1)) as [p|] eqn:Ep;
    destruct (ps !! Z.to_nat (b - 1)) as [q|] eqn:Eq.
  - rewrite !updatePanelsFromCommand_decode, H1, H2.
    unfold applyCommand, setOnePanel. rewrite Ha, Hb.
    rewrite list_lookup_insert_ne by congruence. rewrite Eq.
    rewrite list_lookup_insert_ne by congruence. rewrite Ep.
    f_equal. now apply list_insert_insert_ne.
  - rewrite updatePanelsFromCommand_decode, H2.
    unfold applyCommand, setOnePanel. rewrite Hb.
    rewrite list_lookup_insert_ne by congruence. now rewrite Eq.
  - rewrite updatePanelsFromCommand_decode, H1.
    unfold applyCommand, setOnePanel. rewrite Ha.
    rewrite list_lookup_insert_ne by congruence. now rewrite Ep.
  - reflexivity.
Qed.

Lemma commands_on_distinct_panels_commute_witness :
  decode ":OP01" = Some (mkCommand OP (PanelN 1)) /\ 1 <> 2 /\
  match updatePanelsFromCommand ":OP01" initializeDome with
  | Some ps1 => updatePanelsFromCommand ":CL02" ps1
  | None => None
  end =
  match updatePanelsFromCommand ":CL02" initializeDome with
  | Some ps2 => updatePanelsFromCommand ":OP01" ps2
  | None => None
  end.
Proof.
  split; [reflexivity|]. split; [lia|].
  refine (commands_on_distinct_panels_commute ":OP01" ":CL02" (mkCommand OP (PanelN 1))
            (mkCommand CL (PanelN 2)) 1 2 initializeDome _ _ _ _ _);
    (reflexivity || lia).
Defined.

(** ** Clicking a panel *)




(** ** Sequence steps on the panels *)

Lemma updatePanelsFromIndex_lookup (positions : list Z) (index : nat) (ps : list Panel)
    (i : nat) :
  updatePanelsFromIndex index positions ps !! i =
  (fun p => if (i <? index)%nat then p else positioned (positions !! (i - index)%nat) p)
    <$> ps !! i.
Proof.
  revert index ps. induction positions as [|v rest IH]; intros index ps.
  - cbn [updatePanelsFromIndex]. destruct (ps !! i) as [p|]; [|reflexivity].
    cbn [fmap option_fmap option_map]. destruct (i <? index)%nat; [reflexivity|].
    now rewrite lookup_nil.
  - cbn [updatePanelsFromIndex]. rewrite IH. clear IH.
    destruct (Nat.ltb_spec i index) as [Hlt | Hge].
    + replace (i <? S index)%nat with true by (symmetry; apply Nat.ltb_lt; lia).
      destruct (ps !! index) as [q|] eqn:Eq; [|reflexivity].
      destruct (v =? 1000); [now rewrite list_lookup_insert_ne by lia|].
      destruct (v =? 2000); [now rewrite list_lookup_insert_ne by lia | reflexivity].
    + destruct (decide (i = index)) as [-> | Hne].
      * replace (index <? S index)%nat with true by (symmetry; apply Nat.ltb_lt; lia).
        rewrite Nat.sub_diag. cbn [lookup list_lookup positioned].
        destruct (ps !! index) as [q|] eqn:Eq; [|now rewrite Eq].
        assert (Hlen : (index < length ps)%nat) by (now apply lookup_lt_Some in Eq).
        destruct (v =? 1000); [now rewrite list_lookup_insert_eq by exact Hlen|].
        destruct (v =? 2000); [now rewrite list_lookup_insert_eq by exact Hlen|].
        now rewrite Eq.
      * replace (i <? S index)%nat with false by (symmetry; apply Nat.ltb_ge; lia).
        replace (i - index)%nat with (S (i - S index)) by lia. cbn [lookup list_lookup].
        destruct (ps !! index) as [q|] eqn:Eq; [|reflexivity].
        destruct (v =? 1000); [now rewrite list_lookup_insert_ne by lia|].
        destruct (v =? 2000); [now rewrite list_lookup_insert_ne by lia | reflexivity].
Qed.

Lemma updatePanelsFromSequence_lookup (positions : list Z) (ps : list Panel) (i : nat) :
  updatePanelsFromSequence positions ps !! i =
  (fun p =>
     match positions !! i with
     | Some v => if v =? 1000 then setPanelState p "open"
                 else if v =? 2000 then setPanelState p "closed" else p
     | None => p
     end) <$> ps !! i.
Proof.
  unfold updatePanelsFromSequence.
  rewrite updatePanelsFromIndex_lookup. rewrite Nat.sub_0_r. reflexivity.
Qed.

(** X7. [updatePanelsFromSequence] panel by panel: the array keeps its
    length; panel i+1 is set open when position i of the step is 1000,
    closed when it is 2000, and left exactly as it was for every other
    position (1750, -1, ...) and where the step has no position i; a
    position beyond the panels is passed over. *)
Theorem updatePanelsFromSequence_pointwise (positions : list Z) (ps : list Panel) (i : nat) :
  length (updatePanelsFromSequence positions ps) = length ps /\
  updatePanelsFromSequence positions ps !! i =
  (fun p =>
     match positions !! i with
     | Some v => if v =? 1000 then setPanelState p "open"
                 else if v =? 2000 then setPanelState p "closed" else p
     | None => p
     end) <$> ps !! i.
Proof.
  split; [apply updatePanelsFromIndex_length | apply updatePanelsFromSequence_lookup].
Qed.

Lemma loaded_ok_log now m t st : loaded_ok st -> loaded_ok (Simulator.log now m t st).
Proof. exact (fun H => H). Qed.

Lemma loaded_ok_page_handle (e : Page.Event) (pg : Page.Page) :
  loaded_ok (Page.sim pg) -> loaded_ok (Page.sim (Page.handle e pg)).
Proof.
  intros H. destruct e as [e | now | now | now m | now r | now r | now r | now r | now r].
  - destruct e; try exact (handle_loaded_ok _ _ H);
      cbn [Page.handle]; rewrite page_loadSequence_sim;
      [exact (handle_loaded_ok (ClickLoadWave _ _) _ H)
      | exact (handle_loaded_ok (ClickLoadScream _ _) _ H)].
  - exact H.
  - exact H.
  - exact H.
  - cbn. unfold Page.startSequence. destruct r as [res|msg]; [destruct (Page.success res)|]; exact H.
  - cbn. unfold Page.pauseSequence. destruct r as [res|msg]; [destruct (Page.success res)|]; exact H.
  - cbn. unfold Page.resumeSequence. destruct r as [res|msg]; [destruct (Page.success res)|]; exact H.
  - cbn [Page.handle]. unfold Page.stopSequence.
    destruct r as [res|msg]; [destruct (Page.success res)|]; try exact H.
    cbn [Page.sim Page.withSim].
    change (loaded_ok (handle (SequenceStatus 0)
                         (Simulator.log now "Sequence stopped" "info" (Page.sim pg)))).
    apply handle_loaded_ok. exact H.
  - cbn [Page.handle]. unfold loaded_ok.
    now rewrite (proj1 (proj2 (refreshLog_frame now r pg))).
Qed.

Lemma loaded_ok_page_run (es : list Page.Event) (pg : Page.Page) :
  loaded_ok (Page.sim pg) -> loaded_ok (Page.sim (Page.run es pg)).
Proof.
  revert pg. induction es as [|e es IH]; intros pg H; [exact H|].
  cbn [Page.run]. apply IH. now apply loaded_ok_page_handle.
Qed.

Lemma loaded_steps_have_twelve (sq : Sequence) (step : Step) :
  sq = waveSequence \/ sq = screamSequence ->
  step ∈ steps sq -> length (servo_positions step) = 12%nat.
Proof.
  intros [-> | ->] Hin; cbn in Hin;
    repeat (apply elem_of_cons in Hin as [-> | Hin]; [reflexivity|]);
    now apply elem_of_nil in Hin.
Qed.

Lemma updateSequenceStatus_spares (current_step : Z) (st : State) (i : nat) :
  loaded_ok st -> (12 <= i)%nat ->
  panels (updateSequenceStatus current_step st) !! i = panels st !! i.
Proof.
  intros Hl Hi. unfold updateSequenceStatus.
  destruct (currentSequence st) as [sq|] eqn:Esq; [|reflexivity].
  destruct (if 0 <=? current_step then _ else _) as [step|] eqn:Estep; [|reflexivity].
  cbn [panels withPanels].
  rewrite updatePanelsFromSequence_lookup.
  assert (Hin : step ∈ steps sq).
  { destruct (0 <=? current_step); [|discriminate]. now apply list_elem_of_lookup_2 in Estep. }
  assert (Hsq : sq = waveSequence \/ sq = screamSequence).
  { destruct Hl as [H | [H | H]]; rewrite Esq in H; [discriminate | left | right]; congruence. }
  rewrite (lookup_ge_None_2 (servo_positions step) i)
    by (rewrite (loaded_steps_have_twelve sq step Hsq Hin); exact Hi).
  now destruct (panels st !! i).
Qed.

(** X8. The sequences of the page reach panels 1 to 12 only: in every state
    of the page, a [sequence_status] event with any step number (in range
    or not, negative or not) leaves panels 13 to 16 exactly as they were,
    and keeps the sixteen panels. *)
Theorem sequence_status_spares_panels_13_to_16 (es : list Page.Event) (nodes : list Node)
    (b : Page.Buttons) (dot text : string) (current_step : Z) (i : nat) :
  (12 <= i)%nat ->
  let st := Page.sim (Page.run es (Page.construct nodes b dot text)) in
  panels (updateSequenceStatus current_step st) !! i = panels st !! i /\
  length (panels (updateSequenceStatus current_step st)) = 16%nat.
Proof.
  intros Hi. cbn zeta.
  pose proof (dome_ok_page_run es (Page.construct nodes b dot text) dome_ok_initial) as Hd.
  pose proof (loaded_ok_page_run es (Page.construct nodes b dot text) (or_introl eq_refl)) as Hl.
  set (st := Page.sim _) in *.
  split; [|exact (dome_ok_length _ (dome_ok_updateSequenceStatus current_step st Hd))].
  now apply updateSequenceStatus_spares.
Qed.

Lemma sequence_status_spares_panels_13_to_16_witness :
  (12 <= 13)%nat /\
  let st := Page.sim (Page.run [Page.Sim (ClickPanel 14);
                                Page.Sim (ClickLoadScream "12:00" (Resolved (mkSequenceResult true "3" "")))]
                       (Page.construct [] (Page.mkButtons false true true true) "" "")) in
  panels (updateSequenceStatus 1 st) !! 13%nat = panels st !! 13%nat.
Proof.
  split; [lia|]. cbn zeta.
  refine (proj1 (sequence_status_spares_panels_13_to_16 _ [] _ "" "" 1 13 _)). lia.
Defined.

Lemma updateSequenceStatus_log (k : Z) (now m t : string) (st : State) :
  panels (updateSequenceStatus k (Simulator.log now m t st))
  = panels (updateSequenceStatus k st) /\
  commandLog (updateSequenceStatus k (Simulator.log now m t st))
  = addLogEntry now m t (commandLog st).
Proof.
  unfold updateSequenceStatus. cbn [currentSequence Simulator.log panels].
  destruct (currentSequence st); [|split; reflexivity].
  destruct (if 0 <=? k then _ else _); split; reflexivity.
Qed.

(** X9. Stopping shows the first step again.  When the stop request
    succeeds on a page that has a sequence loaded, [stopSequence] calls
    [updateSequenceStatus] with step 0, and the first step of both
    sequences closes every channel: panels 1 to 12 end closed, panels 13 to
    16 stay as they were, only the start button is left enabled, and one
    entry is added to the log.  With no sequence loaded the panels do not
    change. *)
Theorem stop_shows_first_step (es : list Page.Event) (nodes : list Node)
    (b : Page.Buttons) (dot text now err : string) (i : nat) :
  let pg := Page.run es (Page.construct nodes b dot text) in
  let pg' := Page.stopSequence now (Resolved (Page.mkControlResult true err)) pg in
  (currentSequence (Page.sim pg) <> None -> (i < 12)%nat ->
   panels (Page.sim pg') !! i
   = (fun p => setPanelState p "closed") <$> panels (Page.sim pg) !! i) /\
  ((12 <= i)%nat -> panels (Page.sim pg') !! i = panels (Page.sim pg) !! i) /\
  (currentSequence (Page.sim pg) = None -> panels (Page.sim pg') = panels (Page.sim pg)) /\
  Page.buttons pg' = Page.mkButtons false true true true /\
  commandLog (Page.sim pg') = addLogEntry now "Sequence stopped" "info" (commandLog (Page.sim pg)).
Proof.
  cbn zeta.
  pose proof (loaded_ok_page_run es (Page.construct nodes b dot text) (or_introl eq_refl)) as Hl.
  set (pg := Page.run es _) in *.
  assert (Hpanels : panels (Page.sim (Page.stopSequence now
                       (Resolved (Page.mkControlResult true err)) pg))
                    = panels (updateSequenceStatus 0 (Page.sim pg))).
  { exact (proj1 (updateSequenceStatus_log 0 now "Sequence stopped" "info" (Page.sim pg))). }
  split; [|split; [|split; [|split]]].
  - intros Hsome Hi. rewrite Hpanels. unfold updateSequenceStatus.
    destruct (currentSequence (Page.sim pg)) as [sq|] eqn:Esq; [|congruence].
    assert (Hfirst : exists step, steps sq !! 0%nat = Some step
                                  /\ servo_positions step = replicate 12 2000).
    { destruct Hl as [H | [H | H]]; rewrite Esq in H; [discriminate | |];
        injection H as ->; eexists; split; reflexivity. }
    destruct Hfirst as (step & Hstep & Hpos).
    change (if 0 <=? 0 then steps sq !! Z.to_nat 0 else None) with (steps sq !! 0%nat).
    rewrite Hstep. cbn [panels withPanels].
    rewrite updatePanelsFromSequence_lookup, Hpos.
    rewrite lookup_replicate_2 by exact Hi. reflexivity.
  - intros Hi. rewrite Hpanels.
    now apply updateSequenceStatus_spares.
  - intros Hnone. rewrite Hpanels. unfold updateSequenceStatus. now rewrite Hnone.
  - reflexivity.
  - exact (proj2 (updateSequenceStatus_log 0 now "Sequence stopped" "info" (Page.sim pg))).
Qed.

Lemma stop_shows_first_step_witness :
  let pg := Page.run [Page.Sim (ClickLoadWave "12:00" (Resolved (mkSequenceResult true "6" "")));
                      Page.Sim (ClickPanel 2)]
              (Page.construct [] (Page.mkButtons false true true true) "" "") in
  currentSequence (Page.sim pg) <> None /\ (1 < 12)%nat /\
  panels (Page.sim (Page.stopSequence "12:01" (Resolved (Page.mkControlResult true "")) pg)) !! 1%nat
  = (fun p => setPanelState p "closed") <$> panels (Page.sim pg) !! 1%nat.
Proof.
  cbn zeta. split; [discriminate|]. split; [lia|].
  refine (proj1 (stop_shows_first_step _ [] _ "" "" "12:01" "" 1) _ _); [discriminate | lia].
Defined.

(** ** The log over many entries *)

Lemma keepLast100_elements (nodes : list Node) :
  Forall isElement nodes -> keepLast100 nodes = lastn 100 nodes.
Proof.
  unfold lastn. funelim (keepLast100 nodes); intros Hall.
  - pose proof (children_all_elements nodes Hall) as Hfull.
    destruct nodes as [|x rest]; [cbn in *; lia|].
    apply Forall_cons in Hall as [_ Hrest]. cbn [tail] in *.
    rewrite (H Hrest).
    assert (Hlen : (100 < length (x :: rest))%nat) by (now rewrite <- Hfull).
    cbn [length] in *.
    replace (S (length rest) - 100)%nat with (S (length rest - 100)) by lia.
    reflexivity.
  - pose proof (children_all_elements nodes Hall) as Hfull.
    pose proof n as Hn. rewrite Hfull in Hn.
    replace (length nodes - 100)%nat with 0%nat by lia. reflexivity.
Qed.

Lemma lastn_app_lastn {A} (k : nat) (l r : list A) :
  lastn k (lastn k l ++ r) = lastn k (l ++ r).
Proof.
  unfold lastn. rewrite !length_app, length_drop.
  destruct (decide (length l <= k)%nat) as [Hle | Hgt].
  - replace (length l - k)%nat with 0%nat by lia. now rewrite drop_0, Nat.sub_0_r.
  - replace (length l - (length l - k) + length r - k)%nat with (length r) by lia.
    replace (length l + length r - k)%nat with ((length l - k) + length r)%nat by lia.
    rewrite <- drop_drop. f_equal. rewrite drop_app_le by lia. reflexivity.
Qed.

Lemma lastn_length {A} (k : nat) (l : list A) : (length (lastn k l) <= k)%nat.
Proof. unfold lastn. rewrite length_drop. lia. Qed.

Lemma entry_isElement (e : string * string * string) : isElement (entry e).
Proof. destruct e as [[now m] t]. exact I. Qed.

(** X10. The log shows the latest hundred.  On a log container that holds
    only entries (no text nodes) and at most 100 of them, any number of
    [addLogEntry] calls leaves exactly the last 100 of the old entries
    followed by the new ones, in their order. *)
Theorem log_shows_latest_hundred (es : list (string * string * string)) (nodes : list Node) :
  Forall isElement nodes ->
  (length nodes <= 100)%nat ->
  addLogEntries es nodes = lastn 100 (nodes ++ (entry <$> es)) /\
  (length (addLogEntries es nodes) <= 100)%nat /\
  length (addLogEntries es nodes) = ((length nodes + length es) `min` 100)%nat.
Proof.
  intros Hall Hlen.
  assert (Hmain : addLogEntries es nodes = lastn 100 (nodes ++ (entry <$> es))).
  { revert nodes Hall Hlen. induction es as [|e es IH]; intros nodes Hall Hlen.
    - cbn. rewrite app_nil_r. unfold lastn.
      replace (length nodes - 100)%nat with 0%nat by lia. reflexivity.
    - change (addLogEntries (e :: es) nodes)
        with (addLogEntries es (let '(now, message, type) := e in
                                addLogEntry now message type nodes)).
      assert (Hstep : (let '(now, message, type) := e in addLogEntry now message type nodes)
                      = lastn 100 (nodes ++ [entry e])).
      { destruct e as [[now m] t]. unfold addLogEntry.
        apply keepLast100_elements. apply Forall_app. split; [exact Hall|].
        now repeat constructor. }
      rewrite Hstep. rewrite IH.
      + rewrite lastn_app_lastn, <- app_assoc. reflexivity.
      + unfold lastn. apply Forall_drop, Forall_app. split; [exact Hall|].
        repeat constructor. apply entry_isElement.
      + apply lastn_length. }
  split; [exact Hmain|]. rewrite Hmain. split; [apply lastn_length|].
  unfold lastn. rewrite length_drop, length_app, length_fmap. lia.
Qed.

Lemma log_shows_latest_hundred_witness :
  Forall isElement clearLog /\ (length clearLog <= 100)%nat /\
  length (addLogEntries (replicate 120 ("12:00", "ok", "info")) clearLog) = 100%nat.
Proof.
  split; [repeat constructor|]. split; [cbn; lia|].
  refine (proj2 (proj2 (log_shows_latest_hundred (replicate 120 ("12:00", "ok", "info")) clearLog _ _))).
  - repeat constructor.
  - cbn; lia.
Defined.

Lemma appendCommands_all (commands : list (string * string)) (nodes : list Node) :
  Page.appendCommands (inl <$> commands) nodes
  = inl (nodes ++ (Page.commandEntry <$> commands))%list.
Proof.
  revert nodes. induction commands as [|cmd commands IH]; intros nodes.
  - cbn. now rewrite app_nil_r.
  - cbn [fmap list_fmap Page.appendCommands]. rewrite IH, <- app_assoc. reflexivity.
Qed.

Lemma appendCommands_throws (commands : list (string * string)) (failure : string)
    (rest : list (string * string + string)) (nodes : list Node) :
  Page.appendCommands ((inl <$> commands) ++ inr failure :: rest)%list nodes
  = inr ((nodes ++ (Page.commandEntry <$> commands))%list, failure).
Proof.
  revert nodes. induction commands as [|cmd commands IH]; intros nodes.
  - cbn. now rewrite app_nil_r.
  - cbn [fmap list_fmap app Page.appendCommands]. rewrite IH, <- app_assoc. reflexivity.
Qed.

(** X11. [refreshLog] replaces the log.  With the commands of the server
    the container holds one entry for each command, in the order of the
    response, and nothing of what it held before, however many they are
    (more than 100 if the server sends more); the next [addLogEntry] cuts
    it to the last 100.  What a failure leaves depends on where it strikes:
    when the request itself fails, the log is kept and gets one error
    entry; when the response is no array, the old log is lost and the error
    entry is all the log holds; when an element of the array cannot be
    read, the log holds the entries of the commands before it, then the
    error entry, cut to the last 100.  Whatever the response, panels,
    loaded sequence, command count, buttons and connection do not
    change. *)
Theorem refreshLog_replaces_log (now now' message type failure : string)
    (commands : list (string * string)) (rest : list (string * string + string))
    (response : Fetch Page.CommandsJson) (pg : Page.Page) :
  let pg' := Page.refreshLog now (Resolved (Page.Commands (inl <$> commands))) pg in
  let shown := commandLog (Page.sim pg') in
  let entries :=
    (fun cmd => Element (mkLogEntry "log-entry info" ("[" ++ fst cmd ++ "] " ++ snd cmd)))
      <$> commands in
  let error_entry :=
    Element (mkLogEntry "log-entry error" ("[" ++ now ++ "] Error refreshing log: " ++ failure)) in
  shown = entries /\
  length shown = length commands /\
  children shown = shown /\
  (forall i, shown !! i
             = (fun cmd => Element (mkLogEntry "log-entry info"
                                      ("[" ++ fst cmd ++ "] " ++ snd cmd)))
               <$> commands !! i) /\
  length (children (addLogEntry now' message type shown)) = ((S (length commands)) `min` 100)%nat /\
  commandLog (Page.sim (Page.refreshLog now (Rejected failure) pg))
  = addLogEntry now ("Error refreshing log: " ++ failure) "error" (commandLog (Page.sim pg)) /\
  commandLog (Page.sim (Page.refreshLog now (Resolved (Page.NoArray failure)) pg))
  = [error_entry] /\
  commandLog (Page.sim (Page.refreshLog now
               (Resolved (Page.Commands ((inl <$> commands) ++ inr failure :: rest)%list)) pg))
  = lastn 100 (entries ++ [error_entry]) /\
  panels (Page.sim (Page.refreshLog now response pg)) = panels (Page.sim pg) /\
  currentSequence (Page.sim (Page.refreshLog now response pg)) = currentSequence (Page.sim pg) /\
  commandCount (Page.sim (Page.refreshLog now response pg)) = commandCount (Page.sim pg) /\
  Page.buttons (Page.refreshLog now response pg) = Page.buttons pg /\
  Page.connection (Page.refreshLog now response pg) = Page.connection pg.
Proof.
  cbn zeta.
  set (shown := (fun cmd => Element (mkLogEntry "log-entry info"
                                       ("[" ++ fst cmd ++ "] " ++ snd cmd))) <$> commands).
  assert (Hshown : commandLog (Page.sim (Page.refreshLog now
                      (Resolved (Page.Commands (inl <$> commands))) pg)) = shown).
  { unfold Page.refreshLog. rewrite appendCommands_all. reflexivity. }
  rewrite !Hshown.
  assert (Hel : Forall isElement shown).
  { unfold shown. apply Forall_fmap, Forall_true. intros cmd. exact I. }
  assert (Hnew : forall now' message type,
             addLogEntry now' message type shown
             = lastn 100 (shown ++ [Element (mkLogEntry ("log-entry " ++ type)
                                               ("[" ++ now' ++ "] " ++ message))])).
  { intros n' m t. unfold addLogEntry. apply keepLast100_elements.
    apply Forall_app. split; [exact Hel | now repeat constructor]. }
  split; [reflexivity|].
  split; [apply length_fmap|]. split; [now apply children_all_elements|].
  split; [intros i; unfold shown; now rewrite list_lookup_fmap|].
  split.
  { rewrite Hnew. rewrite (children_all_elements (lastn 100 _)).
    - unfold lastn. rewrite length_drop, length_app. unfold shown. rewrite length_fmap.
      cbn [length]. lia.
    - unfold lastn. apply Forall_drop, Forall_app. split; [exact Hel | now repeat constructor]. }
  split; [reflexivity|].
  split; [reflexivity|].
  split.
  { unfold Page.refreshLog. rewrite appendCommands_throws.
    cbn [app Page.sim Page.withLog Page.withSim commandLog].
    change (Page.commandEntry <$> commands) with shown. apply Hnew. }
  exact (refreshLog_frame now response pg).
Qed.

(** ** Requests that fail *)

(** X12. A request that fails changes nothing but the log.  When the server
    answers a command or a sequence load with [success: false], or the
    request itself fails, the panels, the loaded sequence and the command
    count stay as they were and exactly one error entry is logged; an input
    that is empty once trimmed does nothing at all, whatever the server
    would answer; and an unsuccessful answer to pause, resume or stop
    leaves the whole page untouched, without a log entry (only an
    unsuccessful start is logged). *)
Theorem failed_requests_change_only_the_log
    (now input blank message failure : string) (n : Z) (steps_text : string)
    (sq : Sequence) (st : State) (pg : Page.Page) (response : Fetch CommandResult) :
  JS.trim input <> "" ->
  JS.trim blank = "" ->
  let keeps (st' : State) (logged : string) :=
    panels st' = panels st /\ currentSequence st' = currentSequence st /\
    commandCount st' = commandCount st /\
    commandLog st' = addLogEntry now logged "error" (commandLog st) in
  keeps (sendCommand now input (Resolved (mkCommandResult false message n)) st)
        (JS.trim input ++ " - " ++ message) /\
  keeps (sendCommand now input (Rejected failure) st) ("Error sending command: " ++ failure) /\
  keeps (loadSequence now sq (Resolved (mkSequenceResult false steps_text message)) st)
        ("Failed to load sequence: " ++ message) /\
  keeps (loadSequence now sq (Rejected failure) st) ("Error loading sequence: " ++ failure) /\
  sendCommand now blank response st = st /\
  Page.handle (Page.Sim (SendCommand now blank response)) pg = pg /\
  Page.pauseSequence now (Resolved (Page.mkControlResult false message)) pg = pg /\
  Page.resumeSequence now (Resolved (Page.mkControlResult false message)) pg = pg /\
  Page.stopSequence now (Resolved (Page.mkControlResult false message)) pg = pg /\
  Page.startSequence now (Resolved (Page.mkControlResult false message)) pg
  = Page.log now ("Failed to start sequence: " ++ message) "error" pg.
Proof.
  intros Hin Hblank. cbn zeta.
  assert (Hb : forall st0, sendCommand now blank response st0 = st0).
  { intros st0. unfold sendCommand. now rewrite Hblank. }
  split; [|split; [|split; [|split; [|split; [exact (Hb st)|split]]]]];
    try (unfold sendCommand;
         destruct (String.eqb_spec (JS.trim input) "") as [E | _]; [contradiction|];
         now repeat split);
    try (now repeat split).
  cbn [Page.handle handle]. rewrite Hb. now destruct pg.
Qed.

Lemma failed_requests_change_only_the_log_witness :
  JS.trim " :OP01 " <> "" /\
  JS.trim "   " = "" /\
  panels (sendCommand "12:00" " :OP01 " (Rejected "Failed to fetch") (Simulator.construct []))
  = initializeDome /\
  sendCommand "12:00" "   " (Resolved (mkCommandResult true "ok" 1)) (Simulator.construct [])
  = Simulator.construct [].
Proof.
  split; [discriminate|]. split; [reflexivity|].
  pose proof (failed_requests_change_only_the_log "12:00" " :OP01 " "   " ""
                "Failed to fetch" 0 "" waveSequence (Simulator.construct [])
                (Page.construct [] (Page.mkButtons false true true true) "" "")
                (Resolved (mkCommandResult true "ok" 1)) ltac:(discriminate) eq_refl)
    as (_ & (Hp & _) & _ & _ & Hb & _).
  split; [exact Hp | exact Hb].
Defined.

(** ** The sequence buttons *)

Lemma controls_coherent_update (running paused : bool) :
  Page.controls_coherent (Page.updateSequenceButtons running paused).
Proof. destruct running, paused; unfold Page.controls_coherent; cbn; intuition discriminate. Qed.

Lemma controls_coherent_handle (e : Page.Event) (pg : Page.Page) :
  Page.controls_coherent (Page.buttons pg) ->
  Page.controls_coherent (Page.buttons (Page.handle e pg)).
Proof.
  intros H. destruct e as [e | now | now | now m | now r | now r | now r | now r | now r].
  - destruct e; try exact H; cbn [Page.handle]; unfold Page.loadSequence;
      (destruct response as [res|msg]; [destruct (sr_success res)|]; exact H).
  - exact H.
  - exact H.
  - apply controls_coherent_update.
  - cbn. unfold Page.startSequence. destruct r as [res|msg]; [destruct (Page.success res)|];
      try exact H. apply controls_coherent_update.
  - cbn. unfold Page.pauseSequence. destruct r as [res|msg]; [destruct (Page.success res)|];
      try exact H. apply controls_coherent_update.
  - cbn. unfold Page.resumeSequence. destruct r as [res|msg]; [destruct (Page.success res)|];
      try exact H. apply controls_coherent_update.
  - cbn. unfold Page.stopSequence. destruct r as [res|msg]; [destruct (Page.success res)|];
      try exact H. apply controls_coherent_update.
  - cbn [Page.handle].
    now rewrite (proj1 (proj2 (proj2 (proj2 (refreshLog_frame now r pg))))).
Qed.

(** X13. The pause and resume buttons are never enabled together, and the
    stop button is enabled exactly when one of them is: this holds after
    every history of events on a page whose document starts that way.  The
    start button is not part of it: a sequence loaded while one is running
    enables start beside stop. *)
Theorem sequence_buttons_stay_coherent (es : list Page.Event) (pg : Page.Page)
    (now now' steps_text err : string) :
  Page.controls_coherent (Page.buttons pg) ->
  let b := Page.buttons (Page.run es pg) in
  (Page.pauseDisabled b = false -> Page.resumeDisabled b = true) /\
  (Page.stopDisabled b = false <-> Page.pauseDisabled b = false \/ Page.resumeDisabled b = false) /\
  Page.buttons
    (Page.run [Page.ClickStart now (Resolved (Page.mkControlResult true err));
               Page.Sim (ClickLoadWave now' (Resolved (mkSequenceResult true steps_text err)))]
       pg)
  = Page.mkButtons false false true false.
Proof.
  intros H. cbn zeta. split; [|split; [|reflexivity]].
  - revert pg H. induction es as [|e es IH]; intros pg H; [exact (proj1 H)|].
    cbn [Page.run]. apply IH. now apply controls_coherent_handle.
  - revert pg H. induction es as [|e es IH]; intros pg H; [exact (proj2 H)|].
    cbn [Page.run]. apply IH. now apply controls_coherent_handle.
Qed.

Lemma sequence_buttons_stay_coherent_witness :
  let pg := Page.construct [] (Page.mkButtons false true true true) "" "" in
  Page.controls_coherent (Page.buttons pg) /\
  (Page.pauseDisabled (Page.buttons (Page.run
       [Page.ClickStart "12:00" (Resolved (Page.mkControlResult true ""));
        Page.ClickPause "12:01" (Resolved (Page.mkControlResult true ""))] pg)) = false ->
   Page.resumeDisabled (Page.buttons (Page.run
       [Page.ClickStart "12:00" (Resolved (Page.mkControlResult true ""));
        Page.ClickPause "12:01" (Resolved (Page.mkControlResult true ""))] pg)) = true).
Proof.
  cbn zeta.
  assert (H : Page.controls_coherent (Page.mkButtons false true true true)).
  { split; [reflexivity|]. split; [discriminate | intros [?|?]; discriminate]. }
  split; [exact H|].
  exact (proj1 (sequence_buttons_stay_coherent
                  [Page.ClickStart "12:00" (Resolved (Page.mkControlResult true ""));
                   Page.ClickPause "12:01" (Resolved (Page.mkControlResult true ""))]
                  (Page.construct [] (Page.mkButtons false true true true) "" "")
                  "" "" "" "" H)).
Defined.

(** * Further properties of the clients *)

Import ClientFacts.

Lemma print_world (line : string) (w : World) :
  print line w = (tt, {| stdout := stdout w ++ [line]; requests_made := requests_made w |}).
Proof. reflexivity. Qed.

(** What one call does in simulation mode. *)
Lemma call_simulated (server : list Request -> Request -> Py.dict + string)
    (self : API) (c : Call) (w : World) :
  let '(r, w') := call false server self c w in
  succeeded r = accepted c /\
  requests_made w' = requests_made w /\
  length (stdout w')
  = (length (stdout w) + (if accepted c && negb (is_query c) then 1 else 0))%nat.
Proof.
  destruct c as [t | t | | | s | | |]; cbn [call accepted is_query];
    unfold open_panel, close_panel;
    try destruct ((1 <=? t) && (t <=? 16));
    cbn; rewrite ?length_app; cbn; repeat split; try reflexivity; lia.
Qed.

(** What one call does on the fallback. *)
Lemma call_emergency (self : EmergencyAPI.API) (c : Call) (w : World) :
  let '(r, w') := EmergencyAPI.call self c w in
  succeeded r = accepted c /\
  requests_made w' = requests_made w /\
  length (stdout w')
  = (length (stdout w) + (if accepted c && negb (is_query c) then 1 else 0))%nat.
Proof.
  destruct c as [t | t | | | s | | |]; cbn [EmergencyAPI.call accepted is_query];
    unfold EmergencyAPI.open_panel, EmergencyAPI.close_panel;
    try destruct ((1 <=? t) && (t <=? 16));
    cbn; rewrite ?length_app; cbn; repeat split; try reflexivity; lia.
Qed.

(** X14. A panel call is issued exactly when its number is in 1..16, for
    [close_panel] as for [open_panel], in both modes: in range, the call
    prints one line or makes one request; out of range, 0 included, it
    returns the error result and leaves the output and the requests as
    they were.  So the frames [:OP00] and [:CL00] come from
    [open_all_panels] and [close_all_panels] only. *)
Theorem panel_calls_issue_iff_in_range
    (HAS_REQUESTS : bool) (server : list Request -> Request -> Py.dict + string)
    (self : API) (t : Z) (w : World) :
  let issued (r : Py.dict * World) :=
    (length (stdout (snd r)) + length (requests_made (snd r))
     = S (length (stdout w) + length (requests_made w)))%nat in
  if (1 <=? t) && (t <=? 16)
  then issued (open_panel HAS_REQUESTS server self t w) /\
       issued (close_panel HAS_REQUESTS server self t w)
  else open_panel HAS_REQUESTS server self t w = (panel_range_error, w) /\
       close_panel HAS_REQUESTS server self t w = (panel_range_error, w) /\
       succeeded panel_range_error = false.
Proof.
  cbn zeta. unfold open_panel, close_panel.
  destruct ((1 <=? t) && (t <=? 16)); [|repeat split].
  unfold send_command, http.
  destruct (HAS_REQUESTS && session self).
  - split; (match goal with |- context [server ?h ?r] => destruct (server h r) end);
      cbn; rewrite length_app; cbn; lia.
  - split; cbn; rewrite length_app; cbn; lia.
Qed.

(** X15. A script in simulation mode.  Each call succeeds unless it is a
    panel call with a number outside 1..16, and the script prints one line
    for each command that passed that check, none for a query or a refused
    call. *)
Theorem simulated_script_results
    (server : list Request -> Request -> Py.dict + string)
    (self : API) (cs : list Call) (w : World) :
  let '(rs, w') := run false server self cs w in
  succeeded <$> rs = accepted <$> cs /\
  length (stdout w')
  = (length (stdout w) + length (List.filter (fun c => accepted c && negb (is_query c)) cs))%nat.
Proof.
  revert w. induction cs as [|c cs IH]; intros w.
  - cbn. split; [reflexivity | lia].
  - cbn [run]. unfold bind.
    pose proof (call_simulated server self c w) as Hc.
    destruct (call false server self c w) as [r w1].
    destruct Hc as (Hs & _ & Hout).
    specialize (IH w1). destruct (run false server self cs w1) as [rs w2].
    destruct IH as [IHs IHout]. cbn [ret fmap list_fmap]. split.
    + cbn. now rewrite Hs, IHs.
    + rewrite IHout, Hout. cbn [List.filter].
      destruct (accepted c && negb (is_query c)); cbn [length]; lia.
Qed.

(** One call of a client that has a session. *)
Lemma call_requests (server : list Request -> Request -> Py.dict + string)
    (self : API) (c : Call) (w : World) :
  session self = true ->
  let '(r, w') := call true server self c w in
  stdout w' = stdout w /\
  exists new,
    requests_made w' = (requests_made w ++ new)%list /\
    length new = (if accepted c then 1 else 0)%nat /\
    Forall (fun q => exists path, req_url q = base_url self ++ path /\ In path endpoints) new.
Proof.
  intros Hs.
  assert (Hhttp : forall q path,
             req_url q = base_url self ++ path -> In path endpoints ->
             let '(r, w') := http server q w in
             stdout w' = stdout w /\
             exists new,
               requests_made w' = (requests_made w ++ new)%list /\
               length new = 1%nat /\
               Forall (fun q => exists path, req_url q = base_url self ++ path
                                             /\ In path endpoints) new).
  { intros q path Hq Hin. unfold http. destruct (server (requests_made w) q); cbn;
      (split; [reflexivity|]); exists [q]; (split; [reflexivity|]); (split; [reflexivity|]);
      repeat constructor; now exists path. }
  assert (Hnone : stdout w = stdout w /\
            exists new, requests_made w = (requests_made w ++ new)%list /\
              length new = 0%nat /\
              Forall (fun q => exists path, req_url q = base_url self ++ path
                                            /\ In path endpoints) new).
  { split; [reflexivity|]. exists []. rewrite app_nil_r. now repeat split. }
  destruct c as [t | t | | | s | | |]; cbn [call accepted];
    unfold open_panel, close_panel, open_all_panels, close_all_panels, run_sequence,
      get_status, get_panels, reset, send_command; rewrite Hs; cbn [andb];
    try (destruct ((1 <=? t) && (t <=? 16)); [|exact Hnone]);
    (eapply Hhttp; [reflexivity | cbn; tauto]).
Qed.

(** A script of a client that has a session. *)
Lemma run_requests (server : list Request -> Request -> Py.dict + string)
    (self : API) (cs : list Call) (w : World) :
  session self = true ->
  let '(rs, w') := run true server self cs w in
  stdout w' = stdout w /\ length rs = length cs /\
  exists new,
    requests_made w' = (requests_made w ++ new)%list /\
    length new = length (List.filter accepted cs) /\
    Forall (fun q => exists path, req_url q = base_url self ++ path /\ In path endpoints) new.
Proof.
  intros Hs. revert w. induction cs as [|c cs IH]; intros w.
  - cbn. repeat split. exists []. rewrite app_nil_r. now repeat split.
  - cbn [run]. unfold bind.
    pose proof (call_requests server self c w Hs) as Hc.
    destruct (call true server self c w) as [r w1].
    destruct Hc as (Hout & new1 & Hreq & Hlen & Hall).
    specialize (IH w1). destruct (run true server self cs w1) as [rs w2].
    destruct IH as (IHout & IHlen & new2 & IHreq & IHnew & IHall).
    cbn [ret]. split; [congruence|]. split; [cbn; lia|].
    exists (new1 ++ new2)%list. split; [rewrite IHreq, Hreq; now rewrite app_assoc|].
    split; [|now apply Forall_app].
    rewrite length_app, Hlen, IHnew. cbn [List.filter].
    destruct (accepted c); cbn [length]; lia.
Qed.

(** X16. A script on a client that [__init__] made with [requests]
    available.  The script prints nothing, gives one result for each call,
    and makes exactly one request for each call that passed the check of
    its panel number, after the requests made before; each goes to one of
    the four paths under the [base_url] of the client. *)
Theorem requests_script_one_request_per_call
    (server : list Request -> Request -> Py.dict + string)
    (url : string) (cs : list Call) (w : World) :
  let '(self, w0) := init true url w in
  let '(rs, w') := run true server self cs w0 in
  stdout w0 = (stdout w ++ ["SITH API initialized"])%list /\
  stdout w' = stdout w0 /\
  length rs = length cs /\
  exists new,
    requests_made w' = (requests_made w ++ new)%list /\
    length new = length (List.filter accepted cs) /\
    Forall (fun q => exists path, req_url q = url ++ path /\ In path endpoints) new.
Proof.
  cbn [init bind print ret]. cbn beta iota.
  pose proof (run_requests server {| base_url := url; session := true |} cs
                {| stdout := stdout w ++ ["SITH API initialized"];
                   requests_made := requests_made w |} eq_refl) as H.
  destruct (run true server _ cs _) as [rs w']. split; [reflexivity|]. exact H.
Qed.

(** One call while the server raises. *)
Lemma call_server_down (server : list Request -> Request -> Py.dict + string)
    (e : string) (self : API) (c : Call) (w : World) :
  (forall history q, server history q = inr e) ->
  session self = true ->
  fst (call true server self c w)
  = if accepted c then [("success", Py.VBool false); ("error", Py.VStr e)]
    else panel_range_error.
Proof.
  intros Hdown Hs.
  destruct c as [t | t | | | s | | |]; cbn [call accepted];
    unfold open_panel, close_panel, open_all_panels, close_all_panels, run_sequence,
      get_status, get_panels, reset, send_command, http; rewrite Hs; cbn [andb];
    try (destruct ((1 <=? t) && (t <=? 16)); [|reflexivity]);
    now rewrite Hdown.
Qed.

(** X17. While every request raises (the server is down), a script on a
    client with a session still runs to its end: each call returns a
    result, none of them a success, and a call that passed the check of its
    panel number returns [{'success': False, 'error': str(e)}] with the
    message of the exception. *)
Theorem server_down_gives_failure_results
    (server : list Request -> Request -> Py.dict + string)
    (e : string) (self : API) (cs : list Call) (w : World) :
  (forall history q, server history q = inr e) ->
  session self = true ->
  let rs := fst (run true server self cs w) in
  length rs = length cs /\
  Forall (fun r => succeeded r = false) rs /\
  forall i c, cs !! i = Some c -> accepted c = true ->
              rs !! i = Some [("success", Py.VBool false); ("error", Py.VStr e)].
Proof.
  intros Hdown Hs. cbn zeta. revert w. induction cs as [|c cs IH]; intros w.
  - cbn. repeat split; [constructor | intros i c H; discriminate].
  - cbn [run]. unfold bind.
    pose proof (call_server_down server e self c w Hdown Hs) as Hc.
    destruct (call true server self c w) as [r w1]. cbn [fst] in Hc.
    specialize (IH w1). destruct (run true server self cs w1) as [rs w2].
    cbn [fst ret] in *. destruct IH as (IHlen & IHall & IHat).
    split; [cbn; lia|]. split.
    + constructor; [|exact IHall]. rewrite Hc. now destruct (accepted c).
    + intros [|i] c' Hi Hacc; cbn in *.
      * injection Hi as <-. now rewrite Hc, Hacc.
      * now apply (IHat i c').
Qed.

Lemma server_down_gives_failure_results_witness :
  fst (run true (fun _ _ => inr "Connection refused") (mkAPI "http://localhost:5000" true)
         [CallOpenPanel 1; CallOpenPanel 99; CallGetStatus] (mkWorld [] [])) !! 2%nat
  = Some [("success", Py.VBool false); ("error", Py.VStr "Connection refused")].
Proof.
  refine (proj2 (proj2 (server_down_gives_failure_results (fun _ _ => inr "Connection refused")
            "Connection refused" (mkAPI "http://localhost:5000" true)
            [CallOpenPanel 1; CallOpenPanel 99; CallGetStatus] (mkWorld [] []) _ _))
            2%nat CallGetStatus _ _); reflexivity.
Defined.

(** X18. The emergency fallback agrees with the main client in simulation
    mode.  On every script the two give the same success flags (both refuse
    exactly the panel numbers outside 1..16), the same answers to
    [get_panels], and print the same number of lines; the fallback never
    makes a request.  Their [get_status] answers differ in the status text
    only. *)
Theorem emergency_agrees_with_simulation
    (server : list Request -> Request -> Py.dict + string)
    (self : API) (fallback : EmergencyAPI.API) (cs : list Call) (w : World) :
  let '(rs, w1) := run false server self cs w in
  let '(rs', w2) := EmergencyAPI.run fallback cs w in
  succeeded <$> rs' = succeeded <$> rs /\
  Py.get "panels" <$> rs' = Py.get "panels" <$> rs /\
  length (stdout w2) = length (stdout w1) /\
  requests_made w2 = requests_made w /\
  Py.get "status" (fst (EmergencyAPI.get_status fallback w)) = Some (Py.VStr "emergency_mode") /\
  Py.get "status" (fst (get_status false server self w)) = Some (Py.VStr "simulation_mode").
Proof.
  assert (H : forall wa wb,
             length (stdout wa) = length (stdout wb) ->
             let '(rs, w1) := run false server self cs wa in
             let '(rs', w2) := EmergencyAPI.run fallback cs wb in
             succeeded <$> rs' = succeeded <$> rs /\
             Py.get "panels" <$> rs' = Py.get "panels" <$> rs /\
             length (stdout w2) = length (stdout w1) /\
             requests_made w2 = requests_made wb).
  { induction cs as [|c cs IH]; intros wa wb Hlen.
    - cbn. now repeat split.
    - cbn [run EmergencyAPI.run]. unfold bind.
      pose proof (call_simulated server self c wa) as Ha.
      pose proof (call_emergency fallback c wb) as Hb.
      assert (Hp : Py.get "panels" (fst (EmergencyAPI.call fallback c wb))
                   = Py.get "panels" (fst (call false server self c wa))).
      { destruct c as [t | t | | | s | | |]; cbn [call EmergencyAPI.call];
          unfold EmergencyAPI.open_panel, open_panel, EmergencyAPI.close_panel, close_panel;
          try destruct ((1 <=? t) && (t <=? 16)); reflexivity. }
      destruct (call false server self c wa) as [ra wa1].
      destruct (EmergencyAPI.call fallback c wb) as [rb wb1].
      destruct Ha as (Has & _ & Haout). destruct Hb as (Hbs & Hbreq & Hbout).
      cbn [fst] in Hp.
      assert (Hlen1 : length (stdout wa1) = length (stdout wb1)) by lia.
      specialize (IH wa1 wb1 Hlen1).
      destruct (run false server self cs wa1) as [rs w1].
      destruct (EmergencyAPI.run fallback cs wb1) as [rs' w2].
      destruct IH as (IHs & IHp & IHout & IHreq).
      cbn [ret fmap list_fmap]. repeat split.
      + cbn. now rewrite Has, Hbs, IHs.
      + cbn. now rewrite Hp, IHp.
      + exact IHout.
      + congruence. }
  specialize (H w w eq_refl).
  destruct (run false server self cs w) as [rs w1].
  destruct (EmergencyAPI.run fallback cs w) as [rs' w2].
  destruct H as (H1 & H2 & H3 & H4). now repeat split.
Qed.

(** ** The connection status *)

Lemma handle_connection (e : Page.Event) (pg : Page.Page) :
  Page.connection (Page.handle e pg)
  = match socket e with
    | Some b => Page.updateConnectionStatus b
    | None => Page.connection pg
    end.
Proof.
  destruct e as [e | now | now | now m | now r | now r | now r | now r | now r];
    cbn [socket]; try reflexivity.
  - destruct e; try reflexivity; cbn [Page.handle]; unfold Page.loadSequence;
      (destruct response as [res|msg]; [destruct (sr_success res)|]; reflexivity).
  - cbn. unfold Page.startSequence. now destruct r as [[[] ?]|].
  - cbn. unfold Page.pauseSequence. now destruct r as [[[] ?]|].
  - cbn. unfold Page.resumeSequence. now destruct r as [[[] ?]|].
  - cbn. unfold Page.stopSequence. now destruct r as [[[] ?]|].
  - cbn [Page.handle]. exact (proj2 (proj2 (proj2 (proj2 (refreshLog_frame now r pg))))).
Qed.

Lemma lastSocket_some (es : list Page.Event) (b : bool) :
  exists b', lastSocket es (Some b) = Some b'.
Proof.
  revert b. induction es as [|e es IH]; intros b; [now exists b|].
  cbn [lastSocket]. destruct (socket e) as [b1|]; apply IH.
Qed.

Lemma run_connection (es : list Page.Event) (pg : Page.Page) (acc : option bool) :
  match acc with
  | Some b => Page.connection pg = Page.updateConnectionStatus b
  | None => True
  end ->
  Page.connection (Page.run es pg)
  = match lastSocket es acc with
    | Some b => Page.updateConnectionStatus b
    | None => Page.connection pg
    end.
Proof.
  revert pg acc. induction es as [|e es IH]; intros pg acc Hacc.
  - cbn. destruct acc; [exact Hacc | reflexivity].
  - cbn [Page.run lastSocket].
    pose proof (handle_connection e pg) as He.
    rewrite (IH (Page.handle e pg) (match socket e with Some b => Some b | None => acc end)).
    + destruct (socket e) as [b|] eqn:Es.
      * destruct (lastSocket_some es b) as [b' ->]. reflexivity.
      * destruct (lastSocket es acc); [reflexivity | exact He].
    + destruct (socket e) as [b|]; [exact He|].
      destruct acc; [now rewrite He | exact I].
Qed.

(** X19. The connection display follows the socket.  After any history of
    events the flag, the colour of the dot and the text are those of the
    last [connect] or [disconnect] event (green and "Connected", or red and
    "Disconnected"); until the first such event they are as the document
    had them.  No command, sequence or log event changes them. *)
Theorem connection_follows_last_socket_event (es : list Page.Event) (pg : Page.Page) :
  Page.connection (Page.run es pg)
  = match lastSocket es None with
    | Some true => Page.mkConnection true "#4CAF50" "Connected"
    | Some false => Page.mkConnection false "#F44336" "Disconnected"
    | None => Page.connection pg
    end.
Proof.
  rewrite (run_connection es pg None I).
  destruct (lastSocket es None) as [[|]|]; reflexivity.
Qed.

(** ** The mock interpreter *)

Lemma includes_no_first (c : ascii) (rest s : string) :
  Forall (fun x => x <> c) (list_ascii_of_string s) ->
  MockPyodide.includes s (String c rest) = false.
Proof.
  induction s as [|x s IH]; intros Hall; [reflexivity|].
  cbn [list_ascii_of_string] in Hall. apply Forall_cons in Hall as [Hx Hs].
  cbn [MockPyodide.includes String.prefix].
  destruct (ascii_dec c x) as [E|_]; [now subst|].
  now rewrite IH.
Qed.

Lemma digits_no_letter (d : Decimal.uint) (c : ascii) (tail : string) :
  (N_of_ascii c < 48 \/ 57 < N_of_ascii c)%N ->
  Forall (fun x => x <> c) (list_ascii_of_string tail) ->
  Forall (fun x => x <> c)
    (list_ascii_of_string (DecimalString.NilEmpty.string_of_uint d ++ tail)).
Proof.
  intros Hc Htail.
  induction d; cbn [DecimalString.NilEmpty.string_of_uint String.append list_ascii_of_string];
    [exact Htail | ..];
    (constructor; [intros <-; vm_compute in Hc; destruct Hc; discriminate | exact IHd]).
Qed.

(** X20. The mock interpreter never reports a failure: whatever the code,
    the result of [executePythonCode] has [success: true].  A script that
    opens a panel other than panel 1 gets the default answer
    ['Simulated execution'], also for the numbers that the client refuses
    (0, 17, 99, ...). *)
Theorem mock_never_reports_failure (code : string) (t : Z) :
  MockPyodide.get "success" (MockPyodide.executePythonCode code)
  = Some (MockPyodide.JBool true) /\
  (0 <= t -> t <> 1 ->
   MockPyodide.executePythonCode (MockPyodide.open_panel_call t)
   = [("success", MockPyodide.JBool true);
      ("message", MockPyodide.JStr "Simulated execution")]).
Proof.
  split.
  - unfold MockPyodide.executePythonCode.
    repeat match goal with |- context [if ?b then _ else _] => destruct b end; reflexivity.
  - intros Ht0 Ht1.
    unfold MockPyodide.open_panel_call, Py.decimal.
    set (d := N.to_uint (Z.to_N t)).
    assert (Hd : d <> Decimal.D1 Decimal.Nil).
    { intros E. assert (Hn : N.of_uint d = Z.to_N t) by apply DecimalN.Unsigned.of_to.
      rewrite E in Hn. cbn in Hn. lia. }
    assert (Hrest : forall rest,
               MockPyodide.includes (DecimalString.NilEmpty.string_of_uint d ++ ")")
                 (String "s" rest) = false).
    { intros rest. apply includes_no_first. apply digits_no_letter; [right; reflexivity|].
      repeat constructor. discriminate. }
    assert (Hone : String.prefix "1)" (DecimalString.NilEmpty.string_of_uint d ++ ")") = false).
    { destruct d as [|d'|d'|d'|d'|d'|d'|d'|d'|d'|d']; try reflexivity.
      destruct d'; try reflexivity. now contradiction Hd. }
    clearbody d. unfold MockPyodide.executePythonCode.
    change ("sith.open_panel(" ++ DecimalString.NilEmpty.string_of_uint d ++ ")")
      with ("sith.open_panel(" ++ (DecimalString.NilEmpty.string_of_uint d ++ ")")).
    revert Hrest Hone. generalize (DecimalString.NilEmpty.string_of_uint d ++ ")").
    intros tail Hrest Hone. cbn in Hone |- *. rewrite Hone, !Hrest. reflexivity.
Qed.

Lemma mock_never_reports_failure_witness :
  MockPyodide.executePythonCode "sith.open_panel(99)"
  = [("success", MockPyodide.JBool true); ("message", MockPyodide.JStr "Simulated execution")].
Proof.
  refine (proj2 (mock_never_reports_failure "" 99) _ _); lia.
Defined.
